(** * A shallow embedding of the request router (package mux)

    The development follows the Go sources: [mux.go] (Router, dispatch,
    request context helpers) and the route-regexp file (template compiler,
    URL builder, query lookup, variable extraction).

    Go strings are byte strings and are modelled by [string]; Go maps from
    strings to strings by [gmap string string] (a nil map is [None]); Go
    slices by lists; [int] values that may be [-1] by [Z], lengths and
    in-range indices by [nat]. *)

From Stdlib Require Import ZArith Ascii String DecimalString.
From stdpp Require Import base option list strings gmap.

Local Open Scope Z_scope.
Local Open Scope nat_scope.

(** ** Go string primitives *)

Section GoStrings.

Definition len (s : string) : nat := String.length s.

(** [s[lo:]] *)
Fixpoint sliceFrom (s : string) (lo : nat) {struct lo} : string :=
  match lo, s with
  | O, _ => s
  | S lo', String _ s' => sliceFrom s' lo'
  | S _, EmptyString => EmptyString
  end.

(** [s[:hi]] *)
Fixpoint sliceTo (s : string) (hi : nat) {struct hi} : string :=
  match hi, s with
  | O, _ => EmptyString
  | S hi', String c s' => String c (sliceTo s' hi')
  | S _, EmptyString => EmptyString
  end.

(** [s[lo:hi]]; callers guard the bounds as the Go code does. *)
Definition slice (s : string) (lo hi : nat) : string :=
  sliceTo (sliceFrom s lo) (hi - lo).

Fixpoint HasPrefix (s prefix : string) : bool :=
  match prefix, s with
  | EmptyString, _ => true
  | String p prefix', String c s' =>
      if decide (p = c) then HasPrefix s' prefix' else false
  | String _ _, EmptyString => false
  end.

Definition HasSuffix (s suffix : string) : bool :=
  if decide (len suffix <= len s)
  then bool_decide (sliceFrom s (len s - len suffix) = suffix)
  else false.

(** [strings.Index]: first position of [substr] in [s], or [-1]. *)
Fixpoint Index (s substr : string) : Z :=
  if HasPrefix s substr then 0%Z
  else match s with
       | EmptyString => (-1)%Z
       | String _ s' =>
           let i := Index s' substr in
           if (i <? 0)%Z then (-1)%Z else (i + 1)%Z
       end.

Definition Contains (s substr : string) : bool := (0 <=? Index s substr)%Z.

Fixpoint containsByte (chars : string) (c : ascii) : bool :=
  match chars with
  | EmptyString => false
  | String d chars' => if decide (d = c) then true else containsByte chars' c
  end.

(** [strings.IndexAny]: first position in [s] of any byte of [chars]. *)
Fixpoint IndexAny (s chars : string) : Z :=
  match s with
  | EmptyString => (-1)%Z
  | String c s' =>
      if containsByte chars c then 0%Z
      else let i := IndexAny s' chars in
           if (i <? 0)%Z then (-1)%Z else (i + 1)%Z
  end.

(** Every byte of [s] satisfies [p]. *)
Fixpoint allBytes (p : ascii -> bool) (s : string) : bool :=
  match s with
  | EmptyString => true
  | String c rest => p c && allBytes p rest
  end.

(** [strings.Cut]: [(before, after, found)]. *)
Definition Cut (s sep : string) : string * string * bool :=
  let i := Index s sep in
  if (0 <=? i)%Z
  then (sliceTo s (Z.to_nat i), sliceFrom s (Z.to_nat i + len sep), true)
  else (s, EmptyString, false).

(** [strings.SplitN(s, sep, 2)] for a non-empty separator. *)
Definition SplitN2 (s sep : string) : list string :=
  let '(before, after, found) := Cut s sep in
  if found then [before; after] else [s].

End GoStrings.

(** ** Percent-encoding of query components (net/url) *)

Section NetURLEscaping.

Definition ishex (c : ascii) : bool :=
  let n := nat_of_ascii c in
  ((48 <=? n) && (n <=? 57)) || ((97 <=? n) && (n <=? 102))
  || ((65 <=? n) && (n <=? 70)).

Definition unhex (c : ascii) : nat :=
  let n := nat_of_ascii c in
  if (48 <=? n) && (n <=? 57) then n - 48
  else if (97 <=? n) && (n <=? 102) then n - 97 + 10
  else if (65 <=? n) && (n <=? 70) then n - 65 + 10
  else 0.

(** [unescape(s, mode)] for the query-component mode ([plus = true]: a
    ['+'] decodes to a space) and the path mode ([plus = false]).  [None]
    stands for the [EscapeError] that Go returns when a ['%'] is not
    followed by two hexadecimal digits. *)
Fixpoint unescape (plus : bool) (s : string) : option string :=
  match s with
  | EmptyString => Some EmptyString
  | String "%" (String h1 (String h2 rest)) =>
      if ishex h1 && ishex h2
      then String (ascii_of_nat (unhex h1 * 16 + unhex h2)) <$> unescape plus rest
      else None
  | String "%" _ => None
  | String "+" rest =>
      String (if plus then " "%char else "+"%char) <$> unescape plus rest
  | String c rest => String c <$> unescape plus rest
  end.

(** [url.QueryUnescape] *)
Definition QueryUnescape (s : string) : option string := unescape true s.

Definition upperhex (n : nat) : ascii :=
  if n <? 10 then ascii_of_nat (48 + n) else ascii_of_nat (65 + (n - 10)).

(** [shouldEscape(c, encodeQueryComponent)]: only unreserved bytes stay. *)
Definition shouldEscape (c : ascii) : bool :=
  let n := nat_of_ascii c in
  negb (((97 <=? n) && (n <=? 122)) || ((65 <=? n) && (n <=? 90))
        || ((48 <=? n) && (n <=? 57))
        || containsByte "-_.~" c).

(** [url.QueryEscape] *)
Fixpoint QueryEscape (s : string) : string :=
  match s with
  | EmptyString => EmptyString
  | String c rest =>
      if decide (c = " "%char) then String "+" (QueryEscape rest)
      else if shouldEscape c
      then let n := nat_of_ascii c in
           String "%" (String (upperhex (n / 16))
                         (String (upperhex (n mod 16)) (QueryEscape rest)))
      else String c (QueryEscape rest)
  end.

End NetURLEscaping.

(** ** Query-key lookup *)

Section FindFirstQueryKey.

(** The head of the loop body: [foundKey] and the new [rawQuery]. *)
Definition nextSegment (strict : bool) (rawQuery : string) : string * string :=
  if strict then
    let '(before, after, _) := Cut rawQuery "&" in (before, after)
  else
    let i := IndexAny rawQuery "&;" in
    if (0 <=? i)%Z
    then (sliceTo rawQuery (Z.to_nat i), sliceFrom rawQuery (Z.to_nat i + 1))
    else (rawQuery, sliceTo rawQuery 0).

(** One iteration of the [for len(rawQuery) > 0] loop consumes at least one
    byte of [rawQuery]; [fuel] bounds the number of iterations and
    [None] is returned only when it is exhausted. *)
Fixpoint findFirstQueryKey_loop (fuel : nat) (rawQuery key : string) (strict : bool)
  : option (string * bool) :=
  if decide (len rawQuery = 0) then Some (EmptyString, false)
  else
    match fuel with
    | O => None
    | S fuel' =>
        let '(foundKey, rawQuery') := nextSegment strict rawQuery in
        if decide (len foundKey = 0)
        then findFirstQueryKey_loop fuel' rawQuery' key strict
        else
          let '(foundKey, value, _) := Cut foundKey "=" in
          if decide (len foundKey < len key)
          then findFirstQueryKey_loop fuel' rawQuery' key strict
          else
            match QueryUnescape foundKey with
            | None => findFirstQueryKey_loop fuel' rawQuery' key strict
            | Some keyString =>
                if decide (keyString <> key)
                then findFirstQueryKey_loop fuel' rawQuery' key strict
                else
                  match QueryUnescape value with
                  | None => findFirstQueryKey_loop fuel' rawQuery' key strict
                  | Some valueString => Some (valueString, true)
                  end
            end
    end.

(** [len rawQuery] iterations always suffice (lemma
    [findFirstQueryKey_loop_fuel] below), so the default is never used. *)
Definition findFirstQueryKey (rawQuery key : string) (strict : bool) : string * bool :=
  default (EmptyString, false)
    (findFirstQueryKey_loop (len rawQuery) rawQuery key strict).

End FindFirstQueryKey.

(** *** The lookup as the specification words it

    Split the raw query on the separators, skip empty segments, split each
    segment on its first ['='], percent-decode key and value, and return the
    value of the first segment whose decoded key is the target key.  A
    segment that does not decode contributes nothing. *)

Section FindKeySpec.

Definition isSeparator (strict : bool) (c : ascii) : bool :=
  if strict then bool_decide (c = "&"%char)
  else bool_decide (c = "&"%char) || bool_decide (c = ";"%char).

(** The pieces of [s] between separator bytes. *)
Fixpoint splitOn (isSep : ascii -> bool) (s : string) : list string :=
  match s with
  | EmptyString => [EmptyString]
  | String c s' =>
      if isSep c then EmptyString :: splitOn isSep s'
      else match splitOn isSep s' with
           | seg :: segs => String c seg :: segs
           | [] => [String c EmptyString]
           end
  end.

Definition segments (strict : bool) (s : string) : list string :=
  splitOn (isSeparator strict) s.

Fixpoint splitFirstEq (seg : string) : string * string :=
  match seg with
  | EmptyString => (EmptyString, EmptyString)
  | String c seg' =>
      if decide (c = "="%char) then (EmptyString, seg')
      else let '(k, v) := splitFirstEq seg' in (String c k, v)
  end.

Definition decodePair (seg : string) : option (string * string) :=
  let '(k, v) := splitFirstEq seg in
  k' ← QueryUnescape k; v' ← QueryUnescape v; Some (k', v').

Fixpoint firstValue (key : string) (segs : list string) : option string :=
  match segs with
  | [] => None
  | seg :: rest =>
      if decide (seg = EmptyString) then firstValue key rest
      else match decodePair seg with
           | Some (k, v) => if decide (k = key) then Some v else firstValue key rest
           | None => firstValue key rest
           end
  end.

Definition findKey_spec (rawQuery key : string) (strict : bool) : option string :=
  firstValue key (segments strict rawQuery).

(** The Go result pair [(value, ok)] of a lookup outcome. *)
Definition lookupResult (o : option string) : string * bool :=
  match o with
  | Some v => (v, true)
  | None => (EmptyString, false)
  end.

End FindKeySpec.


(** ** Results of fallible code

    A Go function returning [(T, error)] that may also [panic] yields an
    [outcome]: a value, an ordinary returned error, or an abort. *)

Inductive error : Type :=
| ErrUnbalancedBraces (s : string)
| ErrMissingNameOrPattern (tag : string)
| ErrCompilingRegex (tag : string) (err : string)
| ErrRegexpCompile (err : string)
| ErrMissingRouteVariable (v : string)
| ErrVariableMismatch (value pattern : string).

Inductive panic : Type :=
| PanicCaptureGroups (template : string)
| PanicIndexOutOfRange.

Inductive outcome (A : Type) : Type :=
| Return (a : A)
| Fail (e : error)
| Abort (p : panic).

Arguments Return {A} a.
Arguments Fail {A} e.
Arguments Abort {A} p.

Global Instance outcome_bind : MBind outcome := fun A B f m =>
  match m with
  | Return a => f a
  | Fail e => Fail e
  | Abort p => Abort p
  end.

(** ** The regexp package

    [RegexpCompileFunc] is a hook of the package ([regexp.Compile] unless
    overridden), so the compiler and its results are an interface here. *)

Class RegexpLib : Type := {
  Regexp : Type;
  (** a compiled expression, or the text of the error *)
  RegexpCompileFunc : string -> Regexp + string;
  MatchString : Regexp -> string -> bool;
  NumSubexp : Regexp -> nat;
  (** [nil] when there is no match, else [2 * (NumSubexp + 1)] offsets with
      [-1] for a group that took no part in the match *)
  FindStringSubmatchIndex : Regexp -> string -> list Z;
  (** the source text the expression was compiled from *)
  Regexp_String : Regexp -> string;
}.

(** [regexp.QuoteMeta] *)
Fixpoint QuoteMeta (s : string) : string :=
  match s with
  | EmptyString => EmptyString
  | String c rest =>
      if containsByte "\.+*?()|[]{}^$" c
      then String "\" (String c (QuoteMeta rest))
      else String c (QuoteMeta rest)
  end.

(** [strconv.Itoa] on a non-negative int *)
Definition Itoa (n : nat) : string :=
  NilZero.string_of_uint (Nat.to_uint n).

(** ** Template compiler *)

Record routeRegexpOptions : Type := {
  opt_strictSlash : bool;
  opt_useEncodedPath : bool;
  opt_strictQueryParamSep : bool;
}.

Inductive regexpType : Type :=
| regexpTypePath
| regexpTypeHost
| regexpTypePrefix
| regexpTypeQuery.

Global Instance regexpType_eq_dec : EqDecision regexpType.
Proof. solve_decision. Defined.

(** [braceIndices]: the loop over the bytes of [s]; [rest] is [s[i:]]. *)
Fixpoint braceIndices_loop (s rest : string) (i : nat) (level : Z) (idx : nat)
    (idxs : list nat) : error + list nat :=
  match rest with
  | EmptyString =>
      if decide (level <> 0%Z) then inl (ErrUnbalancedBraces s) else inr idxs
  | String c rest' =>
      if decide (c = "{"%char) then
        let level := (level + 1)%Z in
        let idx := if decide (level = 1%Z) then i else idx in
        braceIndices_loop s rest' (S i) level idx idxs
      else if decide (c = "}"%char) then
        let level := (level - 1)%Z in
        if decide (level = 0%Z)
        then braceIndices_loop s rest' (S i) level idx (idxs ++ [idx; i + 1])
        else if decide (level < 0)%Z then inl (ErrUnbalancedBraces s)
        else braceIndices_loop s rest' (S i) level idx idxs
      else braceIndices_loop s rest' (S i) level idx idxs
  end.

Definition braceIndices (s : string) : error + list nat :=
  braceIndices_loop s s 0 0%Z 0 [].

Definition varGroupName (idx : nat) : string := "v" +:+ Itoa idx.

Section TemplateCompiler.
Context `{RegexpLib}.

(** [routeRegexp]: a compiled template *)
Record routeRegexp : Type := {
  template : string;
  regexpType_of : regexpType;
  options : routeRegexpOptions;
  regexp : Regexp;
  reverse : string;
  varsN : list string;
  varsR : list Regexp;
  wildcardHostPort : bool;
}.

(** What the [for i := 0; i < len(idxs); i += 2] loop of [newRouteRegexp]
    has built so far. *)
Record parseState : Type := {
  ps_pattern : string;
  ps_reverse : string;
  ps_varsN : list string;
  ps_varsR : list Regexp;
  ps_end : nat;
}.

Fixpoint parseVars (tpl defaultPattern : string) (idxs : list nat)
    (groupIdx : nat) (st : parseState) : outcome parseState :=
  match idxs with
  | lo :: hi :: idxs' =>
      let raw := slice tpl (ps_end st) lo in
      let end_ := hi in
      let tag := slice tpl lo end_ in
      let param := slice tag 1 (len tag - 1) in
      let colonIdx := Index param ":" in
      let '(name, patt) :=
        if decide (colonIdx = (-1)%Z) then (param, defaultPattern)
        else (slice param 0 (Z.to_nat colonIdx),
              sliceFrom param (Z.to_nat colonIdx + 1)) in
      if decide (name = EmptyString \/ patt = EmptyString)
      then Fail (ErrMissingNameOrPattern tag)
      else
        let groupName := varGroupName groupIdx in
        let pattern :=
          ps_pattern st +:+ (QuoteMeta raw +:+ "(?P<" +:+ groupName +:+ ">" +:+ patt +:+ ")") in
        let reverse := ps_reverse st +:+ (raw +:+ "%s") in
        match RegexpCompileFunc ("^" +:+ patt +:+ "$") with
        | inr err => Fail (ErrCompilingRegex tag err)
        | inl re =>
            parseVars tpl defaultPattern idxs' (S groupIdx)
              {| ps_pattern := pattern; ps_reverse := reverse;
                 ps_varsN := ps_varsN st ++ [name];
                 ps_varsR := ps_varsR st ++ [re];
                 ps_end := end_ |}
        end
  | _ => Return st
  end.

Definition defaultPatternOf (typ : regexpType) : string :=
  if decide (typ = regexpTypeQuery) then ".*"
  else if decide (typ = regexpTypeHost) then "[^.]+"
  else "[^/]+".

(** What [newRouteRegexp] holds when it reaches [// Compile full regexp]:
    the pattern text [patternStr], the loop's results, the trailing
    literal [raw], the [endSlash] flag, the effective options and
    [len(idxs)/2]. *)
Record builtPattern : Type := {
  bp_patternStr : string;
  bp_state : parseState;
  bp_raw : string;
  bp_endSlash : bool;
  bp_options : routeRegexpOptions;
  bp_nvars : nat;
}.

(** [newRouteRegexp] up to that point: the value, or the error or abort
    met before. *)
Definition buildPattern (tpl : string) (typ : regexpType) (options : routeRegexpOptions)
  : outcome builtPattern :=
  match braceIndices tpl with
  | inl errBraces => Fail errBraces
  | inr idxs =>
      let template := tpl in
      let defaultPattern := defaultPatternOf typ in
      let options :=
        if decide (typ <> regexpTypePath)
        then {| opt_strictSlash := false;
                opt_useEncodedPath := opt_useEncodedPath options;
                opt_strictQueryParamSep := opt_strictQueryParamSep options |}
        else options in
      let '(tpl, endSlash) :=
        if opt_strictSlash options && HasSuffix tpl "/"
        then (sliceTo tpl (len tpl - 1), true) else (tpl, false) in
      st ← parseVars tpl defaultPattern idxs 0
              {| ps_pattern := "^"; ps_reverse := EmptyString;
                 ps_varsN := []; ps_varsR := []; ps_end := 0 |};
      let raw := sliceFrom tpl (ps_end st) in
      let pattern := ps_pattern st +:+ QuoteMeta raw in
      let pattern := if opt_strictSlash options then pattern +:+ "[/]?" else pattern in
      pattern ←
        (if decide (typ = regexpTypeQuery) then
           match SplitN2 template "=" !! 1 with
           | None => Abort PanicIndexOutOfRange
           | Some queryVal =>
               if decide (queryVal = EmptyString)
               then Return (pattern +:+ defaultPattern) else Return pattern
           end
         else Return pattern);
      let pattern := if decide (typ <> regexpTypePrefix) then pattern +:+ "$" else pattern in
      Return {| bp_patternStr := pattern; bp_state := st; bp_raw := raw;
                bp_endSlash := endSlash; bp_options := options;
                bp_nvars := length idxs / 2 |}
  end.

Definition newRouteRegexp (tpl : string) (typ : regexpType) (options : routeRegexpOptions)
  : outcome routeRegexp :=
  bp ← buildPattern tpl typ options;
  let patternStr := bp_patternStr bp in
  let st := bp_state bp in
  match RegexpCompileFunc patternStr with
  | inr errCompile => Fail (ErrRegexpCompile errCompile)
  | inl reg =>
      if decide (NumSubexp reg <> bp_nvars bp)
      then Abort (PanicCaptureGroups tpl)
      else
        let wildcardHostPort :=
          if decide (typ = regexpTypeHost)
          then (if negb (Contains patternStr ":") then true else false)
          else false in
        let reverse := ps_reverse st +:+ bp_raw bp in
        let reverse := if bp_endSlash bp then reverse +:+ "/" else reverse in
        Return {| template := tpl; regexpType_of := typ; options := bp_options bp;
                  regexp := reg; reverse := reverse;
                  varsN := ps_varsN st; varsR := ps_varsR st;
                  wildcardHostPort := wildcardHostPort |}
  end.

End TemplateCompiler.

(** ** Requests, routes and routers *)

(** The fields of [url.URL] the router reads. *)
Record URL : Type := {
  Scheme : string;
  URL_Host : string;
  Path : string;
  RawPath : string;
  RawQuery : string;
}.

(** [URL.IsAbs] *)
Definition IsAbs (u : URL) : bool := negb (bool_decide (Scheme u = EmptyString)).

(** Standard-library functions the router calls and this development does
    not look into. *)
Class GoStd : Type := {
  (** [fmt.Sprintf] applied to string arguments *)
  Sprintf : string -> list string -> string;
  (** [URL.String] *)
  URL_String : URL -> string;
  (** [URL.EscapedPath] *)
  URL_EscapedPath : URL -> string;
  (** [path.Clean] *)
  path_Clean : string -> string;
}.

(** The handler values ([http.Handler] implementations other than nil) and
    the matcher values (the [matcher] interface) are left open. *)
Class HTTPTypes : Type := {
  Handler : Type;
  matcher : Type;
  (** [http.RedirectHandler(url, code)] *)
  http_RedirectHandler : string -> nat -> Handler;
  (** [http.NotFoundHandler()] *)
  http_NotFoundHandler : Handler;
}.

Definition StatusMovedPermanently : nat := 301.
Definition StatusMethodNotAllowed : nat := 405.

Inductive matchError : Type :=
| ErrMethodMismatch
| ErrNotFound.

Global Instance matchError_eq_dec : EqDecision matchError.
Proof. solve_decision. Defined.

Inductive contextKey : Type :=
| varsKey
| routeKey
| routerKey.

Global Instance contextKey_eq_dec : EqDecision contextKey.
Proof. solve_decision. Defined.

Section Model.
Context `{RegexpLib} `{GoStd} `{HTTPTypes}.

(** An [http.Handler] interface value; [None] is nil. *)
Definition http_Handler : Type := option Handler.

(** The [middleware] interface: its one method. *)
Record middleware : Type := { Middleware : http_Handler -> http_Handler }.

Record routeRegexpGroup : Type := {
  rg_host : option routeRegexp;
  rg_path : option routeRegexp;
  rg_queries : list routeRegexp;
}.

Record routeConf : Type := {
  useEncodedPath : bool;
  strictSlash : bool;
  skipClean : bool;
  omitRouteFromContext : bool;
  omitRouterFromContext : bool;
  strictQueryParamSep : bool;
  conf_regexp : routeRegexpGroup;
  matchers : list matcher;
  buildScheme : string;
}.

(** The fields of [Route] that [mux.go] and the route-regexp file use:
    the handler and the embedded [routeConf]. *)
Record Route : Type := {
  handler : http_Handler;
  route_conf : routeConf;
}.

Record Router : Type := {
  NotFoundHandler : http_Handler;
  MethodNotAllowedHandler : http_Handler;
  routes : list Route;
  namedRoutes : gmap string Route;
  middlewares : list middleware;
  router_conf : routeConf;
}.

(** Values stored in a request context under the three keys. *)
Inductive ctxValue : Type :=
| CtxVars (vars : option (gmap string string))
| CtxRoute (route : option Route)
| CtxRouter (router : Router).

(** A [context.Context] as its chain of [WithValue] layers, newest first. *)
Definition Context_ : Type := list (contextKey * ctxValue).

Definition WithValue (ctx : Context_) (key : contextKey) (val : ctxValue) : Context_ :=
  (key, val) :: ctx.

Fixpoint Value (ctx : Context_) (key : contextKey) : option ctxValue :=
  match ctx with
  | [] => None
  | (k, v) :: parent => if decide (k = key) then Some v else Value parent key
  end.

Record Request : Type := {
  Method : string;
  req_URL : URL;
  Host : string;
  req_ctx : Context_;
}.

(** [Request.WithContext] *)
Definition WithContext (r : Request) (ctx : Context_) : Request :=
  {| Method := Method r; req_URL := req_URL r; Host := Host r; req_ctx := ctx |}.

Record RouteMatch : Type := {
  match_Route : option Route;
  match_Handler : http_Handler;
  match_Vars : option (gmap string string);
  MatchErr : option matchError;
}.

Definition set_Handler (m : RouteMatch) (h : http_Handler) : RouteMatch :=
  {| match_Route := match_Route m; match_Handler := h;
     match_Vars := match_Vars m; MatchErr := MatchErr m |}.

Definition set_Vars (m : RouteMatch) (vars : option (gmap string string)) : RouteMatch :=
  {| match_Route := match_Route m; match_Handler := match_Handler m;
     match_Vars := vars; MatchErr := MatchErr m |}.

Definition set_MatchErr (m : RouteMatch) (e : option matchError) : RouteMatch :=
  {| match_Route := match_Route m; match_Handler := match_Handler m;
     match_Vars := match_Vars m; MatchErr := e |}.

(** The zero value [var match RouteMatch]. *)
Definition emptyMatch : RouteMatch :=
  {| match_Route := None; match_Handler := None; match_Vars := None; MatchErr := None |}.

(** *** Matching a compiled template *)

Definition getHost (r : Request) : string :=
  if IsAbs (req_URL r) then URL_Host (req_URL r) else Host r.

(** The host with its port taken off when the pattern sets no port. *)
Definition hostToMatch (r : routeRegexp) (host : string) : string :=
  if wildcardHostPort r then
    let i := Index host ":" in
    if decide (i <> (-1)%Z) then sliceTo host (Z.to_nat i) else host
  else host.

(** [strings.SplitN(template, "=", 2)[0]]: the slice returned by [SplitN]
    is never empty. *)
Definition templateKeyOf (template : string) : string :=
  default EmptyString (head (SplitN2 template "=")).

Definition getURLQuery (r : routeRegexp) (req : Request) : string :=
  if decide (regexpType_of r <> regexpTypeQuery) then EmptyString
  else
    let templateKey := templateKeyOf (template r) in
    let strict := opt_strictQueryParamSep (options r) in
    let '(val, ok) := findFirstQueryKey (RawQuery (req_URL req)) templateKey strict in
    if ok then templateKey +:+ "=" +:+ val else EmptyString.

Definition matchQueryString (r : routeRegexp) (req : Request) : bool :=
  MatchString (regexp r) (getURLQuery r req).

(** [routeRegexp.Match] *)
Definition routeRegexp_Match (r : routeRegexp) (req : Request) (m : RouteMatch) : bool :=
  if decide (regexpType_of r = regexpTypeHost) then
    let host := getHost req in
    MatchString (regexp r) (hostToMatch r host)
  else if decide (regexpType_of r = regexpTypeQuery) then
    matchQueryString r req
  else
    let path := Path (req_URL req) in
    let path := if opt_useEncodedPath (options r) then URL_EscapedPath (req_URL req) else path in
    MatchString (regexp r) path.

(** *** Building a URL part *)

Fixpoint url_values (r : routeRegexp) (names : list string) (values : gmap string string)
  : outcome (list string) :=
  match names with
  | [] => Return []
  | v :: names' =>
      match values !! v with
      | None => Fail (ErrMissingRouteVariable v)
      | Some value =>
          let value :=
            if decide (regexpType_of r = regexpTypeQuery) then QueryEscape value else value in
          rest ← url_values r names' values;
          Return (value :: rest)
      end
  end.

(** [values[v]]: the empty string for a missing key *)
Definition mapIndex (values : gmap string string) (v : string) : string :=
  default EmptyString (values !! v).

(** The second loop of [url]: the first variable, in declaration order,
    whose value its own validator rejects. *)
Fixpoint url_check (r : routeRegexp) (k : nat) (names : list string)
    (values : gmap string string) : outcome unit :=
  match names with
  | [] => Return tt
  | v :: names' =>
      match varsR r !! k with
      | None => Abort PanicIndexOutOfRange
      | Some re =>
          let value := mapIndex values v in
          if negb (MatchString re value)
          then Fail (ErrVariableMismatch value (Regexp_String re))
          else url_check r (S k) names' values
      end
  end.

(** [routeRegexp.url] *)
Definition url (r : routeRegexp) (values : gmap string string) : outcome string :=
  urlValues ← url_values r (varsN r) values;
  let rv := Sprintf (reverse r) urlValues in
  if negb (MatchString (regexp r) rv)
  then (_ ← url_check r 0 (varsN r) values; Return rv)
  else Return rv.

(** *** Extracting variables *)

(** [input[lo:hi]] with Go's bounds check. *)
Definition sliceChecked (input : string) (lo hi : Z) : option string :=
  if decide (0 <= lo /\ lo <= hi /\ hi <= Z.of_nat (len input))%Z
  then Some (slice input (Z.to_nat lo) (Z.to_nat hi))
  else None.

Fixpoint extractVars_loop (input : string) (matches : list Z) (i : nat)
    (names : list string) (output : option (gmap string string))
  : outcome (option (gmap string string)) :=
  match names with
  | [] => Return output
  | name :: names' =>
      let output := match output with None => ∅ | Some o => o end in
      match matches !! (2 * i + 2), matches !! (2 * i + 3) with
      | Some lo, Some hi =>
          match sliceChecked input lo hi with
          | Some v => extractVars_loop input matches (S i) names' (Some (<[name := v]> output))
          | None => Abort PanicIndexOutOfRange
          end
      | _, _ => Abort PanicIndexOutOfRange
      end
  end.

Definition extractVars (input : string) (matches : list Z) (names : list string)
    (output : option (gmap string string)) : outcome (option (gmap string string)) :=
  extractVars_loop input matches 0 names output.

(** Each variable of [names], the [i]-th declared one first, is captured
    by a span of [input] that holds the value [values] gives it. *)
Definition spansHold (input : string) (matches : list Z) (i : nat)
    (names : list string) (values : gmap string string) : Prop :=
  forall (j : nat) (name : string),
    names !! j = Some name ->
    exists lo hi,
      matches !! (2 * (i + j) + 2) = Some lo
      /\ matches !! (2 * (i + j) + 3) = Some hi
      /\ sliceChecked input lo hi = Some (mapIndex values name).

(** The arguments the first loop of [url] collects for [Sprintf] when no
    variable is missing. *)
Definition urlValuesOf (r : routeRegexp) (values : gmap string string) : list string :=
  map (fun name =>
         if decide (regexpType_of r = regexpTypeQuery)
         then QueryEscape (mapIndex values name)
         else mapIndex values name) (varsN r).

(** [replaceURLPath] prints a copy of the URL with a different path. *)
Definition replaceURLPath (u : URL) (p : string) : string :=
  let u2 := {| Scheme := Scheme u; URL_Host := URL_Host u; Path := p;
               RawPath := RawPath u; RawQuery := RawQuery u |} in
  URL_String u2.

(** The variables of one compiled template, stored into the match when
    its pattern finds a match in [input]. *)
Definition storeVars (re : routeRegexp) (input : string) (m : RouteMatch)
  : outcome RouteMatch :=
  if decide (0 < length (varsN re)) then
    let matches := FindStringSubmatchIndex (regexp re) input in
    if decide (0 < length matches) then
      vars ← extractVars input matches (varsN re) (match_Vars m);
      Return (set_Vars m vars)
    else Return m
  else Return m.

(** Extraction from [input] does not abort: when the pattern finds a
    match, every declared variable has a capture span inside [input]. *)
Definition extractable (re : routeRegexp) (input : string) : Prop :=
  let matches := FindStringSubmatchIndex (regexp re) input in
  0 < length matches ->
  forall i, i < length (varsN re) ->
            exists lo hi v,
              matches !! (2 * i + 2) = Some lo
              /\ matches !! (2 * i + 3) = Some hi
              /\ sliceChecked input lo hi = Some v.

Fixpoint setMatch_queries (queries : list routeRegexp) (req : Request) (m : RouteMatch)
  : outcome RouteMatch :=
  match queries with
  | [] => Return m
  | q :: queries' =>
      m ← storeVars q (getURLQuery q req) m;
      setMatch_queries queries' req m
  end.

(** The [path] variable of [setMatch]: the decoded path, or the escaped
    one when the route uses encoded paths. *)
Definition requestPath (r : Route) (req : Request) : string :=
  let path := Path (req_URL req) in
  if useEncodedPath (route_conf r) then URL_EscapedPath (req_URL req) else path.

(** [routeRegexpGroup.setMatch] *)
Definition setMatch (v : routeRegexpGroup) (req : Request) (m : RouteMatch) (r : Route)
  : outcome RouteMatch :=
  m ← match rg_host v with
      | Some h => storeVars h (hostToMatch h (getHost req)) m
      | None => Return m
      end;
  let path := requestPath r req in
  m ← match rg_path v with
      | Some vpath =>
          m ← storeVars vpath path m;
          if opt_strictSlash (options vpath) then
            let p1 := HasSuffix path "/" in
            let p2 := HasSuffix (template vpath) "/" in
            if decide (p1 <> p2) then
              let p := Path (req_URL req) in
              p ← (if p1
                   then (if decide (len p = 0) then Abort PanicIndexOutOfRange
                         else Return (sliceTo p (len p - 1)))
                   else Return (p +:+ "/"));
              let u := replaceURLPath (req_URL req) p in
              Return (set_Handler m (Some (http_RedirectHandler u StatusMovedPermanently)))
            else Return m
          else Return m
      | None => Return m
      end;
  setMatch_queries (rg_queries v) req m.

(** The handler [setMatch] is to leave in the match: the redirect of the
    strict-slash check, or the one it was given. *)
Definition handlerAfter (v : routeRegexpGroup) (req : Request) (m : RouteMatch)
    (r : Route) : http_Handler :=
  match rg_path v with
  | Some vpath =>
      let p1 := HasSuffix (requestPath r req) "/" in
      let p2 := HasSuffix (template vpath) "/" in
      if opt_strictSlash (options vpath) && negb (eqb p1 p2)
      then
        let p := Path (req_URL req) in
        let p := if p1 then sliceTo p (len p - 1) else p +:+ "/" in
        Some (http_RedirectHandler (replaceURLPath (req_URL req) p) StatusMovedPermanently)
      else match_Handler m
  | None => match_Handler m
  end.

(** *** Request context *)

(** [Vars] *)
Definition Vars (r : Request) : option (gmap string string) :=
  match Value (req_ctx r) varsKey with
  | Some (CtxVars vars) => vars
  | _ => None
  end.

(** [CurrentRoute] *)
Definition CurrentRoute (r : Request) : option Route :=
  match Value (req_ctx r) routeKey with
  | Some (CtxRoute route) => route
  | _ => None
  end.

(** [len(vars)] of a possibly nil map *)
Definition lenVars (vars : option (gmap string string)) : nat :=
  match vars with
  | None => 0
  | Some m => size m
  end.

Definition requestWithVars (r : Request) (vars : option (gmap string string)) : Request :=
  if decide (lenVars vars = 0) then r
  else
    let ctx := WithValue (req_ctx r) varsKey (CtxVars vars) in
    WithContext r ctx.

Definition requestWithRouteAndVars (r : Request) (route : option Route)
    (vars : option (gmap string string)) : Request :=
  let ctx := WithValue (req_ctx r) routeKey (CtxRoute route) in
  let ctx := if decide (0 < lenVars vars) then WithValue ctx varsKey (CtxVars vars) else ctx in
  WithContext r ctx.

Definition requestWithRouter (r : Request) (router : Router) : Request :=
  let ctx := WithValue (req_ctx r) routerKey (CtxRouter router) in
  WithContext r ctx.

(** *** Helpers *)

Definition lastByte (p : string) : option ascii :=
  String.get (len p - 1) p.

(** [cleanPath] *)
Definition cleanPath (p : string) : string :=
  if decide (p = EmptyString) then "/"
  else
    let p := if decide (String.get 0 p <> Some "/"%char) then "/" +:+ p else p in
    let np := path_Clean p in
    if decide (lastByte p = Some "/"%char /\ np <> "/") then np +:+ "/" else np.

(** [matchInArray] *)
Fixpoint matchInArray (arr : list string) (value : string) : bool :=
  match arr with
  | [] => false
  | v :: arr' => if decide (v = value) then true else matchInArray arr' value
  end.

End Model.

(** ** Dispatch *)

(** A response in the making: the header map and the status written. *)
Record ResponseWriter : Type := {
  rw_header : gmap string string;
  rw_status : option nat;
  rw_body : list string;
}.

Definition Header_Set (w : ResponseWriter) (key value : string) : ResponseWriter :=
  {| rw_header := <[key := value]> (rw_header w); rw_status := rw_status w;
     rw_body := rw_body w |}.

Definition WriteHeader (w : ResponseWriter) (code : nat) : ResponseWriter :=
  {| rw_header := rw_header w; rw_status := Some code; rw_body := rw_body w |}.

Definition Write (w : ResponseWriter) (chunk : string) : ResponseWriter :=
  {| rw_header := rw_header w; rw_status := rw_status w;
     rw_body := rw_body w ++ [chunk] |}.

(** What the router is handed from outside this file: how a handler serves
    a request, the [http.HandlerFunc] adapter, and [Route.Match]. *)
Class Collaborators `{RegexpLib} `{GoStd} `{HTTPTypes} : Type := {
  Handler_ServeHTTP : Handler -> ResponseWriter -> Request -> ResponseWriter;
  http_HandlerFunc : (ResponseWriter -> Request -> ResponseWriter) -> Handler;
  (** [Route.Match(req, match)]: the result and the match as it leaves it *)
  Route_Match : Route -> Request -> RouteMatch -> bool * RouteMatch;
}.

Section Dispatch.
Context `{Collaborators}.

(** The loop [for i := len(r.middlewares) - 1; i >= 0; i--] of
    [Router.Match]: the middlewares are visited from the last registered
    to the first, each wrapping the handler built so far. *)
Definition buildMiddlewareChain (mws : list middleware) (h : http_Handler) : http_Handler :=
  foldl (fun h mw => Middleware mw h) h (rev mws).

(** The chain as the specification words it: the last-registered
    middleware outermost. *)
Definition chainLastOutermost (mws : list middleware) (h : http_Handler) : http_Handler :=
  foldl (fun h mw => Middleware mw h) h mws.

(** The loop over [r.routes] of [Router.Match]: [Some] when a route
    matched (the function returns true there), [None] with the match as
    the routes left it otherwise. *)
Fixpoint Router_Match_routes (r : Router) (rs : list Route) (req : Request)
    (m : RouteMatch) : RouteMatch + RouteMatch :=
  match rs with
  | [] => inr m
  | route :: rs' =>
      let '(ok, m) := Route_Match route req m in
      if ok then
        if decide (MatchErr m = None)
        then inl (set_Handler m (buildMiddlewareChain (middlewares r) (match_Handler m)))
        else inl m
      else Router_Match_routes r rs' req m
  end.

(** [Router.Match] *)
Definition Router_Match (r : Router) (req : Request) (m : RouteMatch) : bool * RouteMatch :=
  match Router_Match_routes r (routes r) req m with
  | inl m => (true, m)
  | inr m =>
      if decide (MatchErr m = Some ErrMethodMismatch) then
        if decide (MethodNotAllowedHandler r <> None)
        then (true, set_Handler m (MethodNotAllowedHandler r))
        else (false, m)
      else if decide (NotFoundHandler r <> None)
      then (true, set_MatchErr (set_Handler m (NotFoundHandler r)) (Some ErrNotFound))
      else (false, set_MatchErr m (Some ErrNotFound))
  end.

(** [methodNotAllowed] *)
Definition methodNotAllowed (w : ResponseWriter) (r : Request) : ResponseWriter :=
  WriteHeader w StatusMethodNotAllowed.

Definition methodNotAllowedHandler : Handler := http_HandlerFunc methodNotAllowed.

(** What [ServeHTTP] has decided when it reaches [handler.ServeHTTP(w, req)],
    or the redirect it answers with before any routing. *)
Inductive served : Type :=
| ServedRedirect (location : string)
| ServedBy (h : Handler) (req : Request).

Definition ServeHTTP_resolve (r : Router) (req : Request) : served :=
  let cleaned :=
    if negb (skipClean (router_conf r)) then
      let path := Path (req_URL req) in
      let path := if useEncodedPath (router_conf r) then URL_EscapedPath (req_URL req) else path in
      let p := cleanPath path in
      if decide (p <> path) then Some (replaceURLPath (req_URL req) p) else None
    else None in
  match cleaned with
  | Some location => ServedRedirect location
  | None =>
      let '(ok, m) := Router_Match r req emptyMatch in
      let '(handler, req) :=
        if ok then
          let handler := match_Handler m in
          if decide (handler <> None) then
            let req :=
              if omitRouteFromContext (router_conf r)
              then requestWithVars req (match_Vars m)
              else requestWithRouteAndVars req (match_Route m) (match_Vars m) in
            let req :=
              if negb (omitRouterFromContext (router_conf r))
              then requestWithRouter req r else req in
            (handler, req)
          else (handler, req)
        else (None, req) in
      let handler :=
        if decide (handler = None /\ MatchErr m = Some ErrMethodMismatch)
        then Some methodNotAllowedHandler else handler in
      match handler with
      | None => ServedBy http_NotFoundHandler req
      | Some h => ServedBy h req
      end
  end.

(** [Router.ServeHTTP] *)
Definition ServeHTTP (r : Router) (w : ResponseWriter) (req : Request) : ResponseWriter :=
  match ServeHTTP_resolve r req with
  | ServedRedirect location =>
      WriteHeader (Header_Set w "Location" location) StatusMovedPermanently
  | ServedBy h req => Handler_ServeHTTP h w req
  end.

End Dispatch.

(** ** A reference regexp engine

    An executable instance of [RegexpLib] for the fragment of Go's regexp
    syntax that route templates produce: literals, [\]-escaped punctuation,
    [.], bracket classes with ranges and negation, [^] and [$], greedy [*],
    [+] and [?], alternation, and groups [(...)], [(?:...)], [(?P<name>...)].
    Matching is leftmost with the first alternative preferred, as Go's
    (non-POSIX) engine does.  Expressions outside the fragment are rejected
    with an error. *)

Module RefRegexp.

Inductive re : Type :=
| REmpty
| RChar (c : ascii)
| RAny
| RClass (neg : bool) (ranges : list (ascii * ascii))
| RBegin
| REnd
| RCat (a b : re)
| RAlt (a b : re)
| RStar (a : re)
| ROpt (a : re)
| RGroup (idx : nat) (a : re).

Record compiled : Type := {
  source : string;
  ast : re;
  ngroups : nat;
}.

Definition isPunct (c : ascii) : bool :=
  let n := nat_of_ascii c in
  (n <? 128) && negb (((97 <=? n) && (n <=? 122)) || ((65 <=? n) && (n <=? 90))
                      || ((48 <=? n) && (n <=? 57)) || (n <? 33) || (n =? 127)).

(** The items of a bracket class, up to and including the closing bracket. *)
Fixpoint parseClassItems (s : string) (first : bool)
  : option (list (ascii * ascii) * string) :=
  match s with
  | EmptyString => None
  | String c s1 =>
      if bool_decide (c = "]"%char) && negb first then Some ([], s1)
      else if containsByte "\[" c then None
      else
        match s1 with
        | String "-" (String d s2) =>
            if bool_decide (d = "]"%char) then
              '(items, rest) ← parseClassItems s1 false; Some ((c, c) :: items, rest)
            else if containsByte "\[" d then None
            else if nat_of_ascii d <? nat_of_ascii c then None
            else '(items, rest) ← parseClassItems s2 false; Some ((c, d) :: items, rest)
        | _ => '(items, rest) ← parseClassItems s1 false; Some ((c, c) :: items, rest)
        end
  end.

Fixpoint skipGroupName (s : string) : option string :=
  match s with
  | EmptyString => None
  | String c s' => if bool_decide (c = ">"%char) then Some s' else skipGroupName s'
  end.

Definition expectClose (s : string) : option string :=
  match s with
  | String ")" s' => Some s'
  | _ => None
  end.

(** A repetition operator may not follow another one in the fragment. *)
Definition noRepetitionAhead (s : string) : bool :=
  match s with
  | String c _ => negb (containsByte "*+?{" c)
  | EmptyString => true
  end.

(** Recursive descent; [g] is the number of capturing groups opened so far. *)
Fixpoint parseAlt (fuel : nat) (s : string) (g : nat) : option (re * string * nat) :=
  match fuel with
  | O => None
  | S f =>
      '(a, s, g) ← parseCat f s g;
      match s with
      | String "|" s' => '(b, s, g) ← parseAlt f s' g; Some (RAlt a b, s, g)
      | _ => Some (a, s, g)
      end
  end
with parseCat (fuel : nat) (s : string) (g : nat) : option (re * string * nat) :=
  match fuel with
  | O => None
  | S f =>
      match s with
      | EmptyString | String "|" _ | String ")" _ => Some (REmpty, s, g)
      | _ =>
          '(a, s, g) ← parseRep f s g;
          '(b, s, g) ← parseCat f s g;
          Some (RCat a b, s, g)
      end
  end
with parseRep (fuel : nat) (s : string) (g : nat) : option (re * string * nat) :=
  match fuel with
  | O => None
  | S f =>
      '(a, s, g) ← parseAtom f s g;
      match s with
      | String "*" s' => if noRepetitionAhead s' then Some (RStar a, s', g) else None
      | String "+" s' => if noRepetitionAhead s' then Some (RCat a (RStar a), s', g) else None
      | String "?" s' => if noRepetitionAhead s' then Some (ROpt a, s', g) else None
      | String "{" _ => None
      | _ => Some (a, s, g)
      end
  end
with parseAtom (fuel : nat) (s : string) (g : nat) : option (re * string * nat) :=
  match fuel with
  | O => None
  | S f =>
      match s with
      | EmptyString => None
      | String "(" (String "?" (String ":" s')) =>
          '(a, s, g) ← parseAlt f s' g;
          s ← expectClose s; Some (a, s, g)
      | String "(" (String "?" (String "P" (String "<" s'))) =>
          s' ← skipGroupName s';
          '(a, s, g') ← parseAlt f s' (S g);
          s ← expectClose s; Some (RGroup (S g) a, s, g')
      | String "(" (String "?" _) => None
      | String "(" s' =>
          '(a, s, g') ← parseAlt f s' (S g);
          s ← expectClose s; Some (RGroup (S g) a, s, g')
      | String "[" (String "^" s') =>
          '(items, s) ← parseClassItems s' true; Some (RClass true items, s, g)
      | String "[" s' =>
          '(items, s) ← parseClassItems s' true; Some (RClass false items, s, g)
      | String "\" (String c s') =>
          if isPunct c then Some (RChar c, s', g) else None
      | String "." s' => Some (RAny, s', g)
      | String "^" s' => Some (RBegin, s', g)
      | String "$" s' => Some (REnd, s', g)
      | String c s' =>
          if containsByte "*+?{}\" c then None else Some (RChar c, s', g)
      end
  end.

Definition Compile (src : string) : compiled + string :=
  match parseAlt (4 * len src + 8) src 0 with
  | Some (a, EmptyString, g) => inl {| source := src; ast := a; ngroups := g |}
  | _ => inr ("error parsing regexp: " +:+ src)
  end.

Definition inRanges (ranges : list (ascii * ascii)) (c : ascii) : bool :=
  existsb (fun '(lo, hi) =>
             (nat_of_ascii lo <=? nat_of_ascii c) && (nat_of_ascii c <=? nat_of_ascii hi))
          ranges.

(** Capture spans, newest first. *)
Definition captures : Type := list (nat * (nat * nat)).

(** Backtracking matcher in continuation-passing style: [rest] is the
    unread input and [pos] its offset. *)
Fixpoint run (r : re) (rest : string) (pos : nat) (cs : captures)
    (k : string -> nat -> captures -> option (nat * captures)) {struct r}
  : option (nat * captures) :=
  match r with
  | REmpty => k rest pos cs
  | RChar c =>
      match rest with
      | String d rest' => if bool_decide (c = d) then k rest' (S pos) cs else None
      | EmptyString => None
      end
  | RAny =>
      match rest with
      | String d rest' => if bool_decide (d = "010"%char) then None else k rest' (S pos) cs
      | EmptyString => None
      end
  | RClass neg ranges =>
      match rest with
      | String d rest' =>
          if xorb neg (inRanges ranges d) then k rest' (S pos) cs else None
      | EmptyString => None
      end
  | RBegin => if bool_decide (pos = 0) then k rest pos cs else None
  | REnd => if bool_decide (rest = EmptyString) then k rest pos cs else None
  | RCat a b => run a rest pos cs (fun rest' pos' cs' => run b rest' pos' cs' k)
  | RAlt a b =>
      match run a rest pos cs k with
      | Some res => Some res
      | None => run b rest pos cs k
      end
  | RStar a =>
      (fix star (fuel : nat) (rest : string) (pos : nat) (cs : captures) {struct fuel}
         : option (nat * captures) :=
         match fuel with
         | O => k rest pos cs
         | S fuel' =>
             match run a rest pos cs
                     (fun rest' pos' cs' =>
                        if bool_decide (pos' = pos) then None
                        else star fuel' rest' pos' cs') with
             | Some res => Some res
             | None => k rest pos cs
             end
         end) (S (len rest)) rest pos cs
  | ROpt a =>
      match run a rest pos cs k with
      | Some res => Some res
      | None => k rest pos cs
      end
  | RGroup idx a =>
      run a rest pos cs (fun rest' pos' cs' => k rest' pos' ((idx, (pos, pos')) :: cs'))
  end.

(** The leftmost match: its start, end and captures. *)
Fixpoint search (r : re) (rest : string) (pos : nat) : option (nat * nat * captures) :=
  match run r rest pos [] (fun _ pos' cs => Some (pos', cs)) with
  | Some (e, cs) => Some (pos, e, cs)
  | None =>
      match rest with
      | EmptyString => None
      | String _ rest' => search r rest' (S pos)
      end
  end.

Fixpoint lookupCapture (cs : captures) (idx : nat) : option (nat * nat) :=
  match cs with
  | [] => None
  | (i, span) :: cs' => if bool_decide (i = idx) then Some span else lookupCapture cs' idx
  end.

Definition Match (c : compiled) (s : string) : bool :=
  bool_decide (is_Some (search (ast c) s 0)).

Definition SubmatchIndex (c : compiled) (s : string) : list Z :=
  match search (ast c) s 0 with
  | None => []
  | Some (b, e, cs) =>
      Z.of_nat b :: Z.of_nat e ::
        concat (map (fun idx =>
                       match lookupCapture cs idx with
                       | Some (gb, ge) => [Z.of_nat gb; Z.of_nat ge]
                       | None => [(-1)%Z; (-1)%Z]
                       end) (seq 1 (ngroups c)))
  end.

Definition lib : RegexpLib := {|
  Regexp := compiled;
  RegexpCompileFunc := Compile;
  MatchString := Match;
  NumSubexp := ngroups;
  FindStringSubmatchIndex := SubmatchIndex;
  Regexp_String := source;
|}.

End RefRegexp.

(** ** Reference instances of the collaborators

    Executable stand-ins used to run the router on concrete requests. *)

Module Reference.

#[local] Existing Instance RefRegexp.lib.

(** [fmt.Sprintf] for formats made of literal text, [%s] and [%%], the only
    directives a reverse template holds unless the template itself
    contains a percent sign; flags, widths and other verbs are outside
    this fragment. *)
Fixpoint Sprintf_s (format : string) (args : list string) : string :=
  match format with
  | EmptyString =>
      match args with
      | [] => EmptyString
      | _ => "%!(EXTRA " +:+ String.concat ", " (map (fun a => "string=" +:+ a) args) +:+ ")"
      end
  | String "%" (String "s" rest) =>
      match args with
      | a :: args' => a +:+ Sprintf_s rest args'
      | [] => "%!s(MISSING)" +:+ Sprintf_s rest []
      end
  | String "%" (String "%" rest) => String "%" (Sprintf_s rest args)
  | String c rest => String c (Sprintf_s rest args)
  end.

Definition isAlnum (c : ascii) : bool :=
  let n := nat_of_ascii c in
  ((97 <=? n) && (n <=? 122)) || ((65 <=? n) && (n <=? 90)) || ((48 <=? n) && (n <=? 57)).

(** [escape(s, mode)] by the set of bytes the mode leaves alone. *)
Fixpoint escapeKeeping (keep : ascii -> bool) (s : string) : string :=
  match s with
  | EmptyString => EmptyString
  | String c rest =>
      if keep c then String c (escapeKeeping keep rest)
      else let n := nat_of_ascii c in
           String "%" (String (upperhex (n / 16))
                         (String (upperhex (n mod 16)) (escapeKeeping keep rest)))
  end.

Definition keepInPath (c : ascii) : bool :=
  isAlnum c || containsByte "-_.~$&+,/:;=@" c.

Definition keepInHost (c : ascii) : bool :=
  isAlnum c || containsByte "-_.~!$&'()*+,;=:[]<>" c || bool_decide (c = "034"%char).

(** [validEncoded(s, encodePath)] *)
Definition validEncodedPath (s : string) : bool :=
  allBytes (fun c => containsByte "!$&'()*+,;=:@[]%" c || keepInPath c) s.

(** [URL.EscapedPath] *)
Definition EscapedPath (u : URL) : string :=
  let fromPath :=
    if decide (Path u = "*") then "*" else escapeKeeping keepInPath (Path u) in
  if negb (bool_decide (RawPath u = EmptyString)) && validEncodedPath (RawPath u) then
    match unescape false (RawPath u) with
    | Some p => if decide (p = Path u) then RawPath u else fromPath
    | None => fromPath
    end
  else fromPath.

(** [URL.String] over the fields of [URL] (no opaque part, user
    information or fragment). *)
Definition URLString (u : URL) : string :=
  let nonEmpty (s : string) := negb (bool_decide (s = EmptyString)) in
  let buf := if nonEmpty (Scheme u) then Scheme u +:+ ":" else EmptyString in
  let buf :=
    if nonEmpty (Scheme u) || nonEmpty (URL_Host u) then
      let buf := if nonEmpty (URL_Host u) || nonEmpty (Path u) then buf +:+ "//" else buf in
      if nonEmpty (URL_Host u) then buf +:+ escapeKeeping keepInHost (URL_Host u) else buf
    else buf in
  let path := EscapedPath u in
  let buf :=
    if nonEmpty path && negb (bool_decide (String.get 0 path = Some "/"%char))
       && nonEmpty (URL_Host u)
    then buf +:+ "/" else buf in
  let buf :=
    if bool_decide (buf = EmptyString) then
      let '(segment, _, _) := Cut path "/" in
      if Contains segment ":" then "./" else buf
    else buf in
  let buf := buf +:+ path in
  if nonEmpty (RawQuery u) then buf +:+ "?" +:+ RawQuery u else buf.

(** [path.Clean] by path elements: empty and [.] elements are dropped, a
    [..] element removes the element before it, or is kept at the front
    of a relative path; [dotdot] counts the elements that may not be
    removed. *)
Fixpoint cleanElements (rooted : bool) (elems : list string) (out : list string)
    (dotdot : nat) : list string :=
  match elems with
  | [] => out
  | e :: elems' =>
      if decide (e = EmptyString \/ e = ".") then cleanElements rooted elems' out dotdot
      else if decide (e = "..") then
        if decide (dotdot < length out)
        then cleanElements rooted elems' (removelast out) dotdot
        else if rooted then cleanElements rooted elems' out dotdot
        else cleanElements rooted elems' (out ++ [e]) (S (length out))
      else cleanElements rooted elems' (out ++ [e]) dotdot
  end.

Definition Clean (path : string) : string :=
  if decide (path = EmptyString) then "."
  else
    let rooted := bool_decide (String.get 0 path = Some "/"%char) in
    let out := cleanElements rooted (splitOn (fun c => bool_decide (c = "/"%char)) path) [] 0 in
    let res := (if rooted then "/" else EmptyString) +:+ String.concat "/" out in
    if decide (res = EmptyString) then "." else res.

Definition std : GoStd := {|
  Sprintf := Sprintf_s;
  URL_String := URLString;
  URL_EscapedPath := EscapedPath;
  path_Clean := Clean;
|}.

#[local] Existing Instance std.

(** What a reference handler sees of a request: method, URL and host. *)
Definition requestLine : Type := string * URL * string.

Definition handlerFn : Type := ResponseWriter -> requestLine -> ResponseWriter.

(** Reference matchers: a compiled template (host, path, prefix or query
    by its type) or a set of methods. *)
Inductive refMatcher : Type :=
| MatchTemplate (r : routeRegexp)
| MatchMethods (methods : list string).

Definition types : HTTPTypes := {|
  Handler := handlerFn;
  matcher := refMatcher;
  http_RedirectHandler url code := fun w _ => WriteHeader (Header_Set w "Location" url) code;
  http_NotFoundHandler := fun w _ => Write (WriteHeader w 404) "404 page not found";
|}.

#[local] Existing Instance types.

Definition lineOf (req : Request) : requestLine := (Method req, req_URL req, Host req).

Definition requestOf (l : requestLine) : Request :=
  {| Method := l.1.1; req_URL := l.1.2; Host := l.2; req_ctx := [] |}.

Definition refMatcher_Match (mt : refMatcher) (req : Request) (m : RouteMatch) : bool :=
  match mt with
  | MatchTemplate r => routeRegexp_Match r req m
  | MatchMethods methods => matchInArray methods (Method req)
  end.

Definition isMethodMatcher (mt : refMatcher) : bool :=
  match mt with
  | MatchMethods _ => true
  | MatchTemplate _ => false
  end.

(** Modelled from the spec: [Route.Match] is declared in a file that is not
    among the sources.  A route matches only if every attached matcher
    matches; a failure is a method mismatch when the other matchers passed
    and only a method matcher failed, and is recorded as the match error;
    on full success the route and its registered handler are recorded and
    [setMatch] stores the variables and the strict-slash redirect (an
    abort of [setMatch] counts as no match). *)
Definition Route_Match_spec (route : Route) (req : Request) (m : RouteMatch)
  : bool * RouteMatch :=
  let ms := matchers (route_conf route) in
  let others := filter (fun mt => isMethodMatcher mt = false) ms in
  let methods := filter (fun mt => isMethodMatcher mt = true) ms in
  if negb (forallb (fun mt => refMatcher_Match mt req m) others) then (false, m)
  else if negb (forallb (fun mt => refMatcher_Match mt req m) methods)
  then (false, set_MatchErr m (Some ErrMethodMismatch))
  else
    let m := {| match_Route := Some route; match_Handler := handler route;
                match_Vars := match_Vars m; MatchErr := None |} in
    match setMatch (conf_regexp (route_conf route)) req m route with
    | Return m' => (true, m')
    | _ => (false, m)
    end.

Definition collaborators : Collaborators := {|
  Handler_ServeHTTP h w req := h w (lineOf req);
  http_HandlerFunc f := fun w l => f w (requestOf l);
  Route_Match := Route_Match_spec;
|}.

#[local] Existing Instance collaborators.

(** *** Sample data *)

Definition noOptions : routeRegexpOptions :=
  {| opt_strictSlash := false; opt_useEncodedPath := false;
     opt_strictQueryParamSep := false |}.

Definition strictSlashOptions : routeRegexpOptions :=
  {| opt_strictSlash := true; opt_useEncodedPath := false;
     opt_strictQueryParamSep := false |}.

(** [newRouteRegexp] with the reference engine *)
Definition compile (tpl : string) (typ : regexpType) (options : routeRegexpOptions)
  : outcome routeRegexp :=
  newRouteRegexp tpl typ options.

(** [r.url(values)] with the reference engine and [Sprintf_s] *)
Definition build (r : routeRegexp) (values : gmap string string) : outcome string :=
  url r values.

(** [r.regexp.MatchString(s)] *)
Definition fullMatch (r : routeRegexp) (s : string) : bool :=
  MatchString (regexp r) s.

(** [r.varsR[k].MatchString(s)]; false when there is no such validator *)
Definition validates (r : routeRegexp) (k : nat) (s : string) : bool :=
  match varsR r !! k with
  | Some re => MatchString re s
  | None => false
  end.

(** The variables [setMatch] stores for one compiled template matched
    against [input], starting from a fresh match. *)
Definition extract (r : routeRegexp) (input : string) : outcome (option (gmap string string)) :=
  m ← storeVars r input emptyMatch; Return (match_Vars m).

(** [vars[name]] of a possibly nil map, with the [ok] flag as an option *)
Definition lookupVar (vars : outcome (option (gmap string string))) (name : string)
  : option string :=
  match vars with
  | Return (Some m) => m !! name
  | _ => None
  end.

(** [r.Match(req, &match)] on a fresh match *)
Definition matches (r : routeRegexp) (req : Request) : bool :=
  routeRegexp_Match r req emptyMatch.

(** [replaceURLPath(req.URL, p)] *)
Definition withPath (req : Request) (p : string) : string :=
  replaceURLPath (req_URL req) p.

(** An application handler that writes its name. *)
Definition appHandler (name : string) : handlerFn := fun w _ => Write w name.

Definition conf (useEncoded strict : bool) (group : routeRegexpGroup)
    (ms : list refMatcher) : routeConf :=
  {| useEncodedPath := useEncoded; strictSlash := strict; skipClean := false;
     omitRouteFromContext := false; omitRouterFromContext := false;
     strictQueryParamSep := false; conf_regexp := group; matchers := ms;
     buildScheme := EmptyString |}.

(** The group of a route whose only template is a path template. *)
Definition pathGroup (re : routeRegexp) : routeRegexpGroup :=
  {| rg_host := None; rg_path := Some re; rg_queries := [] |}.

(** A route with a path template, optional methods and a handler, as
    [NewRoute().Path(tpl).Methods(...).Handler(h)] leaves it. *)
Definition pathRoute (strict : bool) (re : routeRegexp) (methods : list string)
    (h : handlerFn) : Route :=
  {| handler := Some h;
     route_conf :=
       conf false strict (pathGroup re)
            (MatchTemplate re :: match methods with [] => [] | _ => [MatchMethods methods] end) |}.

(** The match record as [Route.Match] hands it to [setMatch]. *)
Definition matchOf (route : Route) : RouteMatch :=
  {| match_Route := Some route; match_Handler := handler route;
     match_Vars := None; MatchErr := None |}.

Definition setMatchOn (route : Route) (req : Request) : outcome RouteMatch :=
  setMatch (conf_regexp (route_conf route)) req (matchOf route) route.

Definition redirectTo (location : string) : http_Handler :=
  Some (http_RedirectHandler location StatusMovedPermanently).

(** A middleware that writes its name and then calls the handler it wraps. *)
Definition logging (name : string) : middleware :=
  {| Middleware next :=
       Some (fun w l =>
               match next with
               | Some h => h (Write w name) l
               | None => Write w name
               end) |}.

Definition router (mws : list middleware) (rs : list Route)
    (notFound methodNotAllowed : http_Handler) : Router :=
  {| NotFoundHandler := notFound; MethodNotAllowedHandler := methodNotAllowed;
     routes := rs; namedRoutes := ∅; middlewares := mws;
     router_conf := conf false false
                      {| rg_host := None; rg_path := None; rg_queries := [] |} [] |}.

Definition blank : ResponseWriter :=
  {| rw_header := ∅; rw_status := None; rw_body := [] |}.

(** What a handler writes, in order, when it serves [req]. *)
Definition served_body (h : http_Handler) (req : Request) : list string :=
  match h with
  | Some f => rw_body (f blank (lineOf req))
  | None => []
  end.

(** [r.Match(req, &match)] with a fresh match *)
Definition dispatch (r : Router) (req : Request) : bool * RouteMatch :=
  Router_Match r req emptyMatch.

(** [r.Match(req, &match)] with a match that already records a method
    mismatch, as a router used as a subrouter receives it after an earlier
    route of its parent failed on the method. *)
Definition dispatchAfterMismatch (r : Router) (req : Request) : bool * RouteMatch :=
  Router_Match r req (set_MatchErr emptyMatch (Some ErrMethodMismatch)).

(** [ServeHTTP] up to the call of the handler *)
Definition resolve (r : Router) (req : Request) : served :=
  ServeHTTP_resolve r req.

(** [Vars(req)] *)
Definition varsOf (req : Request) : option (gmap string string) := Vars req.

(** The routes used below: [/x] for GET only, and [/x] for any method. *)
Definition getOnly (re : routeRegexp) : Route :=
  pathRoute false re ["GET"] (appHandler "app").

Definition anyMethod (re : routeRegexp) : Route :=
  pathRoute false re [] (appHandler "app").

(** A request for [path] (and raw query [query]) on [host]. *)
Definition request (method host path query : string) : Request :=
  {| Method := method;
     req_URL := {| Scheme := EmptyString; URL_Host := EmptyString; Path := path;
                   RawPath := EmptyString; RawQuery := query |};
     Host := host;
     req_ctx := [] |}.

End Reference.

(** * Further functions of the package *)

(** ** Helpers of [mux.go] *)

(** Errors of the registration helpers. *)
Inductive helperError : Type :=
| ErrDuplicatedRouteVariable (v : string)
| ErrOddParameters (pairs : list string)
| ErrPairRegexp (err : string).

(** [uniqueVars]: [None] is the nil error. *)
Fixpoint uniqueVars_inner (v1 : string) (s2 : list string) : option helperError :=
  match s2 with
  | [] => None
  | v2 :: s2' =>
      if decide (v1 = v2) then Some (ErrDuplicatedRouteVariable v2)
      else uniqueVars_inner v1 s2'
  end.

Fixpoint uniqueVars (s1 s2 : list string) : option helperError :=
  match s1 with
  | [] => None
  | v1 :: s1' =>
      match uniqueVars_inner v1 s2 with
      | Some e => Some e
      | None => uniqueVars s1' s2
      end
  end.

(** [checkPairs] *)
Definition checkPairs (pairs : list string) : nat * option helperError :=
  let length := length pairs in
  if decide (length mod 2 <> 0) then (length, Some (ErrOddParameters pairs))
  else (length, None).

(** The loop [for i := 0; i < length; i += 2] of [mapFromPairsToString]
    over a slice of even length. *)
Fixpoint pairsToString_loop (pairs : list string) (m : gmap string string)
  : gmap string string :=
  match pairs with
  | k :: v :: pairs' => pairsToString_loop pairs' (<[k := v]> m)
  | _ => m
  end.

(** [mapFromPairsToString] *)
Definition mapFromPairsToString (pairs : list string) : helperError + gmap string string :=
  match checkPairs pairs with
  | (_, Some err) => inl err
  | (_, None) => inr (pairsToString_loop pairs ∅)
  end.

Section PairsToRegex.
Context `{RegexpLib}.

Fixpoint pairsToRegex_loop (pairs : list string) (m : gmap string Regexp)
  : helperError + gmap string Regexp :=
  match pairs with
  | k :: v :: pairs' =>
      match RegexpCompileFunc v with
      | inr err => inl (ErrPairRegexp err)
      | inl regex => pairsToRegex_loop pairs' (<[k := regex]> m)
      end
  | _ => inr m
  end.

(** [mapFromPairsToRegex] *)
Definition mapFromPairsToRegex (pairs : list string) : helperError + gmap string Regexp :=
  match checkPairs pairs with
  | (_, Some err) => inl err
  | (_, None) => pairsToRegex_loop pairs ∅
  end.

End PairsToRegex.

(** [http.CanonicalHeaderKey], which the map matchers call on request. *)
Class HeaderLib : Type := {
  http_CanonicalHeaderKey : string -> string;
}.

Section MapMatchers.
Context `{RegexpLib} `{HeaderLib}.

(** [matchMapWithString].  Go ranges over [toCheck] in no fixed order; the
    result, a conjunction over its entries, does not depend on it.  In
    [toMatch] an absent key and a key bound to a nil slice both read as
    nil, so a nil slice is an absent key here. *)
Definition matchMapWithString (toCheck : gmap string string)
    (toMatch : gmap string (list string)) (canonicalKey : bool) : bool :=
  forallb (fun '(k, v) =>
             let k := if canonicalKey then http_CanonicalHeaderKey k else k in
             match toMatch !! k with
             | None => false
             | Some values =>
                 if decide (v <> EmptyString)
                 then existsb (fun value => bool_decide (v = value)) values
                 else true
             end)
          (map_to_list toCheck).

(** [matchMapWithRegex]; a nil regexp in [toCheck] is [None]. *)
Definition matchMapWithRegex (toCheck : gmap string (option Regexp))
    (toMatch : gmap string (list string)) (canonicalKey : bool) : bool :=
  forallb (fun '(k, v) =>
             let k := if canonicalKey then http_CanonicalHeaderKey k else k in
             match toMatch !! k with
             | None => false
             | Some values =>
                 match v with
                 | Some re => existsb (fun value => MatchString re value) values
                 | None => true
                 end
             end)
          (map_to_list toCheck).

End MapMatchers.

Section ContextAccess.
Context `{RegexpLib} `{GoStd} `{HTTPTypes}.

(** [CurrentRouter] *)
Definition CurrentRouter (r : Request) : option Router :=
  match Value (req_ctx r) routerKey with
  | Some (CtxRouter router) => Some router
  | _ => None
  end.

(** What [setMatch] keeps of a match: the route, the match error, and
    every variable already bound (its value may change). *)
Definition matchKept (m m' : RouteMatch) : Prop :=
  match_Route m' = match_Route m /\ MatchErr m' = MatchErr m
  /\ forall name, is_Some (default ∅ (match_Vars m) !! name)
                  -> is_Some (default ∅ (match_Vars m') !! name).

(** The [path] variable of [ServeHTTP]: what it hands to [cleanPath]. *)
Definition servedPath (r : Router) (req : Request) : string :=
  if useEncodedPath (router_conf r) then URL_EscapedPath (req_URL req)
  else Path (req_URL req).

(** [ServeHTTP] gets past its clean-path check: cleaning is switched off,
    or the path is already clean. *)
Definition noCleanRedirect (r : Router) (req : Request) : Prop :=
  skipClean (router_conf r) = true \/ cleanPath (servedPath r req) = servedPath r req.

End ContextAccess.

(** ** Reading the result of [braceIndices] *)

(** Neither ['{'] nor ['}']. *)
Definition noBrace (c : ascii) : bool :=
  negb (bool_decide (c = "{"%char)) && negb (bool_decide (c = "}"%char)).

(** The index list [braceIndices] builds, as pairs [(start, end)]. *)
Definition flatPairs (ps : list (nat * nat)) : list nat := ps ≫= (fun p => [p.1; p.2]).

(** A pair of offsets into [s] that delimits a tag: ['{'] at the start,
    ['}'] just before the end. *)
Definition bracePair (s : string) (p : nat * nat) : Prop :=
  p.1 + 2 <= p.2 /\ p.2 <= len s
  /\ String.get p.1 s = Some "{"%char /\ String.get (p.2 - 1) s = Some "}"%char.

(** Pairs in increasing order without overlap, all ending by [bound]. *)
Definition orderedPairs (bound : nat) (ps : list (nat * nat)) : Prop :=
  (forall k p q, ps !! k = Some p -> ps !! S k = Some q -> p.2 <= q.1)
  /\ (forall p, last ps = Some p -> p.2 <= bound).


(** A reference instance of [HeaderLib]: [http.CanonicalHeaderKey] leaves a
    key with a byte that is no header-field byte unchanged, and otherwise
    upper-cases its first letter and every letter after a ['-'] and
    lower-cases the other letters. *)
Module ReferenceHeader.

Definition validHeaderFieldByte (c : ascii) : bool :=
  Reference.isAlnum c || containsByte "!#$%&'*+-.^_`|~" c.

Definition toUpper (c : ascii) : ascii :=
  let n := nat_of_ascii c in
  if (97 <=? n) && (n <=? 122) then ascii_of_nat (n - 32) else c.

Definition toLower (c : ascii) : ascii :=
  let n := nat_of_ascii c in
  if (65 <=? n) && (n <=? 90) then ascii_of_nat (n + 32) else c.

Fixpoint canonicalize (upper : bool) (s : string) : string :=
  match s with
  | EmptyString => EmptyString
  | String c rest =>
      let c := if upper then toUpper c else toLower c in
      String c (canonicalize (bool_decide (c = "-"%char)) rest)
  end.

Definition CanonicalHeaderKey (s : string) : string :=
  if allBytes validHeaderFieldByte s then canonicalize true s else s.

Definition lib : HeaderLib := {| http_CanonicalHeaderKey := CanonicalHeaderKey |}.

(** [matchMapWithString] and [matchMapWithRegex] with this instance and
    the reference regexp engine *)
Definition matchStrings (toCheck : gmap string string)
    (toMatch : gmap string (list string)) (canonicalKey : bool) : bool :=
  @matchMapWithString lib toCheck toMatch canonicalKey.

Definition matchRegexps (toCheck : gmap string (option RefRegexp.compiled))
    (toMatch : gmap string (list string)) (canonicalKey : bool) : bool :=
  @matchMapWithRegex RefRegexp.lib lib toCheck toMatch canonicalKey.

End ReferenceHeader.


(** * Properties *)

(** Picks the compiled template of a goal [exists r, c = Return r /\ _] by
    evaluating [c]. *)
Ltac exists_compiled :=
  match goal with
  | |- exists r, ?c = Return r /\ _ =>
      let v := eval vm_compute in c in
      match v with
      | Return ?r => exists r; split; [reflexivity|]
      end
  end.

(** ** Strings *)

Lemma len_sliceFrom (s : string) (n : nat) : len (sliceFrom s n) = len s - n.
Proof.
  revert s. induction n as [|n IH]; intros s; simpl.
  - unfold len. lia.
  - destruct s as [|c s]; simpl; [reflexivity|]. apply IH.
Qed.

Lemma len_zero (s : string) : len s = 0 <-> s = EmptyString.
Proof. destruct s; simpl; split; intros; congruence. Qed.

Lemma Index_single (c : ascii) (s : string) :
  Index s (String c EmptyString) = IndexAny s (String c EmptyString).
Proof.
  induction s as [|d s IH]; simpl; [reflexivity|].
  destruct (decide (c = d)) as [->|Hne].
  - destruct s; reflexivity.
  - rewrite IH. reflexivity.
Qed.

(** [IndexAny] finds the end of the first piece of [splitOn]. *)
Lemma splitOn_IndexAny (chars s : string) :
  (IndexAny s chars = (-1)%Z /\ splitOn (containsByte chars) s = [s]) \/
  (exists i : nat,
      IndexAny s chars = Z.of_nat i /\ i < len s /\
      splitOn (containsByte chars) s
      = sliceTo s i :: splitOn (containsByte chars) (sliceFrom s (S i))).
Proof.
  induction s as [|c s IH]; simpl.
  - left. split; reflexivity.
  - destruct (containsByte chars c) eqn:Hc.
    + right. exists 0. split; [reflexivity|]. split; [unfold len; simpl; lia|reflexivity].
    + destruct IH as [[Hi Hs]|(i & Hi & Hlt & Hs)].
      * left. rewrite Hi, Hs. split; reflexivity.
      * right. exists (S i). rewrite Hi, Hs.
        assert ((Z.of_nat i <? 0)%Z = false) as -> by (apply Z.ltb_ge; lia).
        split; [lia|]. split; [unfold len in *; simpl; lia|reflexivity].
Qed.

Lemma isSeparator_containsByte (strict : bool) (c : ascii) :
  isSeparator strict c = containsByte (if strict then "&" else "&;") c.
Proof.
  unfold isSeparator. destruct strict; simpl;
    repeat (case_bool_decide || case_decide); simpl; congruence.
Qed.

Lemma splitOn_ext (f g : ascii -> bool) (s : string) :
  (forall c, f c = g c) -> splitOn f s = splitOn g s.
Proof.
  intros Hfg. induction s as [|c s IH]; simpl; [reflexivity|].
  rewrite Hfg, IH. reflexivity.
Qed.

Lemma segments_IndexAny (strict : bool) (s : string) :
  let chars := if strict then "&" else "&;" in
  (IndexAny s chars = (-1)%Z /\ segments strict s = [s]) \/
  (exists i : nat,
      IndexAny s chars = Z.of_nat i /\ i < len s /\
      segments strict s = sliceTo s i :: segments strict (sliceFrom s (S i))).
Proof.
  intros chars. unfold segments.
  assert (Hext : forall t, splitOn (isSeparator strict) t = splitOn (containsByte chars) t).
  { intros t. apply splitOn_ext. intros c. apply isSeparator_containsByte. }
  destruct (splitOn_IndexAny chars s) as [[Hi Hs]|(i & Hi & Hlt & Hs)].
  - left. rewrite Hext. split; assumption.
  - right. exists i. rewrite !Hext. split; [assumption|]. split; assumption.
Qed.

(** [strings.Cut] on ["="] is the split on the first ['=']. *)
Lemma Cut_eq_splitFirstEq (seg : string) :
  exists found, Cut seg "=" = (fst (splitFirstEq seg), snd (splitFirstEq seg), found).
Proof.
  unfold Cut. rewrite Index_single.
  induction seg as [|c seg IH]; simpl.
  - exists false. reflexivity.
  - destruct (decide ("="%char = c)) as [<-|Hne].
    + rewrite decide_True by reflexivity. simpl. exists true. reflexivity.
    + rewrite decide_False by congruence.
      destruct (splitFirstEq seg) as [k v] eqn:Hkv. simpl in *.
      destruct IH as [found IH].
      destruct (IndexAny seg "=" <? 0)%Z eqn:Hneg.
      * simpl. apply Z.ltb_lt in Hneg.
        assert ((0 <=? IndexAny seg "=")%Z = false) as Hf by (apply Z.leb_gt; lia).
        rewrite Hf in IH. inversion IH; subst. exists false. reflexivity.
      * apply Z.ltb_ge in Hneg.
        assert ((0 <=? IndexAny seg "=")%Z = true) as Ht by (apply Z.leb_le; lia).
        rewrite Ht in IH.
        assert ((0 <=? IndexAny seg "=" + 1)%Z = true) as -> by (apply Z.leb_le; lia).
        inversion IH; subst. exists true.
        replace (Z.to_nat (IndexAny seg "=" + 1)) with (S (Z.to_nat (IndexAny seg "="))) by lia.
        simpl. reflexivity.
Qed.

Lemma unescape_len (plus : bool) (s t : string) :
  unescape plus s = Some t -> len t <= len s.
Proof.
  remember (len s) as n eqn:Hn. revert s t Hn.
  induction n as [n IH] using lt_wf_ind. intros s t Hn Hu.
  destruct s as [|c s]; simpl in Hu.
  - inversion Hu. unfold len. simpl. lia.
  - unfold len in Hn. simpl in Hn.
    repeat match type of Hu with
           | context [match ?x with _ => _ end] => destruct x eqn:?; simplify_eq/=
           end;
      apply fmap_Some in Hu as (t' & Hu & ->);
      match type of Hu with
      | unescape _ ?s' = Some _ =>
          match goal with
          | |- _ <= ?N =>
              assert (Hlt : len s' < N) by (unfold len; simpl; lia);
              pose proof (IH _ Hlt s' t' eq_refl Hu)
          end
      end;
      subst; unfold len in *; simpl in *; lia.
Qed.

(** ** Query-key lookup *)

Lemma firstValue_empty_tail (key : string) (segs : list string) :
  firstValue key (segs ++ [EmptyString]) = firstValue key segs.
Proof.
  induction segs as [|seg segs IH]; simpl; [reflexivity|].
  rewrite IH. reflexivity.
Qed.

(** The first lines of the loop body cut off the first segment. *)
Lemma nextSegment_segments (q key : string) (strict : bool) :
  exists fk q',
    nextSegment strict q = (fk, q')
    /\ (q <> EmptyString -> len q' < len q)
    /\ firstValue key (segments strict q) = firstValue key (fk :: segments strict q').
Proof.
  unfold nextSegment.
  destruct (segments_IndexAny strict q) as [[Hi Hs]|(i & Hi & Hlt & Hs)].
  - exists q, EmptyString. split; [|split].
    + destruct strict; simpl in Hi.
      * unfold Cut. rewrite Index_single, Hi. reflexivity.
      * cbv zeta. rewrite Hi. reflexivity.
    + intros Hq. destruct q; [congruence|]. unfold len. simpl. lia.
    + rewrite Hs. apply (firstValue_empty_tail key [q]).
  - exists (sliceTo q i), (sliceFrom q (S i)). split; [|split].
    + destruct strict; simpl in Hi.
      * unfold Cut. rewrite Index_single, Hi.
        assert ((0 <=? Z.of_nat i)%Z = true) as -> by (apply Z.leb_le; lia).
        rewrite Nat2Z.id. replace (i + len "&") with (S i) by (unfold len; simpl; lia).
        reflexivity.
      * cbv zeta. rewrite Hi.
        assert ((0 <=? Z.of_nat i)%Z = true) as -> by (apply Z.leb_le; lia).
        rewrite Nat2Z.id. replace (i + 1) with (S i) by lia. reflexivity.
    + intros _. rewrite len_sliceFrom. lia.
    + rewrite Hs. reflexivity.
Qed.

(** [len rawQuery] iterations are enough, and the loop computes the lookup
    the specification describes. *)
Lemma findFirstQueryKey_loop_fuel (fuel : nat) (q key : string) (strict : bool) :
  len q <= fuel ->
  findFirstQueryKey_loop fuel q key strict
  = Some (lookupResult (firstValue key (segments strict q))).
Proof.
  revert q. induction fuel as [|f IH]; intros q Hle.
  - assert (q = EmptyString) as -> by (apply len_zero; lia). reflexivity.
  - cbn [findFirstQueryKey_loop].
    destruct (decide (len q = 0)) as [Hz|Hnz].
    { apply len_zero in Hz. subst. reflexivity. }
    destruct (nextSegment_segments q key strict) as (fk & q' & -> & Hlt & ->).
    assert (Hq' : len q' <= f).
    { assert (q <> EmptyString) as Hq by (intros ->; apply Hnz; reflexivity).
      specialize (Hlt Hq). lia. }
    cbn [firstValue].
    destruct (decide (len fk = 0)) as [Hfk|Hfk].
    { rewrite IH by exact Hq'. apply len_zero in Hfk. subst fk.
      rewrite decide_True by reflexivity. reflexivity. }
    rewrite decide_False by (rewrite <- len_zero; exact Hfk).
    destruct (Cut_eq_splitFirstEq fk) as [found ->].
    unfold decodePair. destruct (splitFirstEq fk) as [k v]. cbn [fst snd].
    destruct (decide (len k < len key)) as [Hshort|Hlong].
    { rewrite IH by exact Hq'.
      destruct (QueryUnescape k) as [k'|] eqn:Hk; simpl; [|reflexivity].
      destruct (QueryUnescape v); simpl; [|reflexivity].
      rewrite decide_False; [reflexivity|].
      intros ->. apply unescape_len in Hk. lia. }
    destruct (QueryUnescape k) as [k'|] eqn:Hk; simpl; [|apply IH; exact Hq'].
    destruct (decide (k' <> key)) as [Hne|Heq].
    { rewrite IH by exact Hq'.
      destruct (QueryUnescape v); simpl; [rewrite decide_False by exact Hne|]; reflexivity. }
    destruct (QueryUnescape v) as [v'|]; simpl; [|apply IH; exact Hq'].
    rewrite decide_True by (destruct (decide (k' = key)); [assumption|contradiction]).
    reflexivity.
Qed.

Lemma findFirstQueryKey_spec (q key : string) (strict : bool) :
  findFirstQueryKey q key strict = lookupResult (findKey_spec q key strict).
Proof.
  unfold findFirstQueryKey, findKey_spec.
  rewrite findFirstQueryKey_loop_fuel by lia. reflexivity.
Qed.

Lemma firstValue_Some (key v : string) (segs : list string) :
  firstValue key segs = Some v ->
  exists seg, seg ∈ segs /\ seg <> EmptyString /\ decodePair seg = Some (key, v).
Proof.
  induction segs as [|seg segs IH]; simpl; [discriminate|].
  intros Hv.
  assert (Hrest : firstValue key segs = Some v ->
                  exists seg0, seg0 ∈ seg :: segs /\ seg0 <> EmptyString
                               /\ decodePair seg0 = Some (key, v)).
  { intros Hr. destruct (IH Hr) as (seg0 & Hin & Hne & Hd).
    exists seg0. split; [right; exact Hin|]. split; assumption. }
  destruct (decide (seg = EmptyString)) as [|Hne]; [auto|].
  destruct (decodePair seg) as [[k v']|] eqn:Hd; [|auto].
  destruct (decide (k = key)) as [->|]; [|auto].
  inversion Hv; subst. exists seg. split; [left|]. split; assumption.
Qed.

Lemma splitOn_app_sep (isSep : ascii -> bool) (seg rest : string) (sep : ascii) :
  allBytes (fun c => negb (isSep c)) seg = true ->
  isSep sep = true ->
  splitOn isSep (seg +:+ String sep rest) = seg :: splitOn isSep rest.
Proof.
  intros Hall Hsep. induction seg as [|c seg IH]; simpl in *.
  - rewrite Hsep. reflexivity.
  - apply andb_true_iff in Hall as [Hc Hall].
    apply negb_true_iff in Hc. rewrite Hc, (IH Hall). reflexivity.
Qed.

Lemma splitOn_no_sep (isSep : ascii -> bool) (seg : string) :
  allBytes (fun c => negb (isSep c)) seg = true ->
  splitOn isSep seg = [seg].
Proof.
  intros Hall. induction seg as [|c seg IH]; simpl in *; [reflexivity|].
  apply andb_true_iff in Hall as [Hc Hall].
  apply negb_true_iff in Hc. rewrite Hc, (IH Hall). reflexivity.
Qed.

Lemma firstValue_skip (key seg : string) (segs : list string) :
  decodePair seg = None -> firstValue key (seg :: segs) = firstValue key segs.
Proof.
  intros Hd. simpl. rewrite Hd. destruct (decide (seg = EmptyString)); reflexivity.
Qed.

Lemma decodePair_None (seg : string) :
  QueryUnescape (fst (splitFirstEq seg)) = None \/
  QueryUnescape (snd (splitFirstEq seg)) = None ->
  decodePair seg = None.
Proof.
  unfold decodePair. destruct (splitFirstEq seg) as [k v]. simpl.
  intros [->| ->]; simpl; [reflexivity|].
  destruct (QueryUnescape k); reflexivity.
Qed.

(** C5: query-key lookup is the left-to-right scan over the segments of the
    raw query (split on ['&'] alone in strict mode, on ['&'] or [';']
    otherwise), skipping empty segments, splitting each on its first ['='],
    percent-decoding key and value and returning the value of the first
    segment whose decoded key is the target key, else not present; with
    the three lookups the specification lists. *)
Theorem findFirstQueryKey_refines_spec :
  (forall (rawQuery key : string) (strict : bool),
      findFirstQueryKey rawQuery key strict
      = lookupResult (findKey_spec rawQuery key strict))
  /\ findFirstQueryKey "a=1&a=2&a=banana" "a" false = ("1", true)
  /\ findFirstQueryKey "a=1;b=2" "b" false = ("2", true)
  /\ findFirstQueryKey "a=1;b=2" "b" true = (EmptyString, false).
Proof.
  split; [exact findFirstQueryKey_spec|].
  repeat split; vm_compute; reflexivity.
Qed.

Lemma splitOn_nonempty (isSep : ascii -> bool) (s : string) : splitOn isSep s <> [].
Proof.
  destruct s as [|c s]; simpl; [discriminate|].
  destruct (isSep c); [discriminate|]. destruct (splitOn isSep s); discriminate.
Qed.

(** A separator after any prefix cuts the segment list in two. *)
Lemma splitOn_app_any (isSep : ascii -> bool) (pre rest : string) (sep : ascii) :
  isSep sep = true ->
  splitOn isSep (pre +:+ String sep rest) = splitOn isSep pre ++ splitOn isSep rest.
Proof.
  intros Hsep. induction pre as [|c pre IH].
  - change (EmptyString +:+ String sep rest) with (String sep rest).
    simpl. rewrite Hsep. reflexivity.
  - change (String c pre +:+ String sep rest) with (String c (pre +:+ String sep rest)).
    simpl. rewrite IH.
    destruct (isSep c); [reflexivity|].
    pose proof (splitOn_nonempty isSep pre) as Hne.
    destruct (splitOn isSep pre) as [|seg segs]; [congruence|reflexivity].
Qed.

Lemma firstValue_app (key : string) (segs1 segs2 : list string) :
  firstValue key (segs1 ++ segs2)
  = match firstValue key segs1 with
    | Some v => Some v
    | None => firstValue key segs2
    end.
Proof.
  induction segs1 as [|seg segs1 IH]; [reflexivity|].
  simpl. destruct (decide (seg = EmptyString)); [exact IH|].
  destruct (decodePair seg) as [[k v]|]; [|exact IH].
  destruct (decide (k = key)); [reflexivity|exact IH].
Qed.

(** A segment at position [i] that decodes to the target key is the one
    found when no segment before it does. *)
Lemma firstValue_at (key v : string) :
  forall (segs : list string) (i : nat) (seg : string),
    segs !! i = Some seg ->
    seg <> EmptyString ->
    decodePair seg = Some (key, v) ->
    (forall j s, j < i -> segs !! j = Some s ->
                 s = EmptyString \/ decodePair s = None
                 \/ exists k w, decodePair s = Some (k, w) /\ k <> key) ->
    firstValue key segs = Some v.
Proof.
  induction segs as [|s0 segs IH]; intros i seg Hi Hne Hd Hprev; [discriminate|].
  destruct i as [|i]; simpl in Hi.
  - inversion Hi; subst s0. simpl. rewrite decide_False by exact Hne.
    rewrite Hd, decide_True by reflexivity. reflexivity.
  - assert (Hrest : firstValue key segs = Some v).
    { apply (IH i seg Hi Hne Hd). intros j s Hj Hs. apply (Hprev (S j) s); [lia|exact Hs]. }
    simpl. destruct (Hprev 0 s0) as [He|[Hnone|(k & w & Hkw & Hk)]]; [lia|reflexivity| | |].
    + rewrite decide_True by exact He. exact Hrest.
    + rewrite Hnone. destruct (decide (s0 = EmptyString)); exact Hrest.
    + rewrite Hkw, (decide_False (P := k = key)) by exact Hk.
      destruct (decide (s0 = EmptyString)); exact Hrest.
Qed.

Lemma decodePair_parts (seg k v : string) :
  decodePair seg = Some (k, v)
  <-> QueryUnescape (fst (splitFirstEq seg)) = Some k
      /\ QueryUnescape (snd (splitFirstEq seg)) = Some v.
Proof.
  unfold decodePair. destruct (splitFirstEq seg) as [k0 v0]. simpl.
  destruct (QueryUnescape k0) as [k'|]; simpl.
  - destruct (QueryUnescape v0) as [v'|]; simpl; split.
    + intros Hd. inversion Hd; subst. split; reflexivity.
    + intros [Hk Hv]. congruence.
    + discriminate.
    + intros [_ Hv]. discriminate.
  - split; [discriminate|intros [Hk _]; discriminate].
Qed.

(** C9: a segment whose key or whose value does not percent-decode is
    skipped wherever it stands in the raw query, and the scan goes on with
    the later segments: it is never the segment a lookup returns; the lookup
    in a query with such a segment at the start, in the middle or at the end
    is the lookup in the query without it; and a segment that decodes to the
    target key is found whenever every segment before it is empty, does not
    decode, or decodes to another key. *)
Theorem findFirstQueryKey_skips_undecodable (key : string) (strict : bool) :
  (forall (rawQuery v : string),
      findFirstQueryKey rawQuery key strict = (v, true) ->
      exists seg, seg ∈ segments strict rawQuery /\ seg <> EmptyString /\
                  QueryUnescape (fst (splitFirstEq seg)) = Some key /\
                  QueryUnescape (snd (splitFirstEq seg)) = Some v)
  /\ (forall (seg : string) (sep : ascii) (rest : string),
         allBytes (fun c => negb (isSeparator strict c)) seg = true ->
         isSeparator strict sep = true ->
         QueryUnescape (fst (splitFirstEq seg)) = None \/
         QueryUnescape (snd (splitFirstEq seg)) = None ->
         findFirstQueryKey (seg +:+ String sep rest) key strict
         = findFirstQueryKey rest key strict
         /\ findFirstQueryKey seg key strict = (EmptyString, false))
  /\ (forall (pre seg : string) (sep1 sep2 : ascii) (rest : string),
         allBytes (fun c => negb (isSeparator strict c)) seg = true ->
         isSeparator strict sep1 = true ->
         isSeparator strict sep2 = true ->
         QueryUnescape (fst (splitFirstEq seg)) = None \/
         QueryUnescape (snd (splitFirstEq seg)) = None ->
         findFirstQueryKey (pre +:+ String sep1 (seg +:+ String sep2 rest)) key strict
         = findFirstQueryKey (pre +:+ String sep1 rest) key strict
         /\ findFirstQueryKey (pre +:+ String sep1 seg) key strict
            = findFirstQueryKey pre key strict)
  /\ (forall (rawQuery : string) (i : nat) (seg v : string),
         segments strict rawQuery !! i = Some seg ->
         seg <> EmptyString ->
         QueryUnescape (fst (splitFirstEq seg)) = Some key ->
         QueryUnescape (snd (splitFirstEq seg)) = Some v ->
         (forall j s, j < i -> segments strict rawQuery !! j = Some s ->
                      s = EmptyString
                      \/ QueryUnescape (fst (splitFirstEq s)) = None
                      \/ QueryUnescape (snd (splitFirstEq s)) = None
                      \/ QueryUnescape (fst (splitFirstEq s)) <> Some key) ->
         findFirstQueryKey rawQuery key strict = (v, true)).
Proof.
  split; [|split; [|split]].
  - intros q v Hv. rewrite findFirstQueryKey_spec in Hv. unfold findKey_spec in Hv.
    destruct (firstValue key (segments strict q)) as [v'|] eqn:Hf; simpl in Hv;
      [|discriminate].
    inversion Hv; subst v'.
    destruct (firstValue_Some _ _ _ Hf) as (seg & Hin & Hne & Hd).
    exists seg. split; [exact Hin|]. split; [exact Hne|].
    unfold decodePair in Hd. destruct (splitFirstEq seg) as [k w]. simpl in *.
    destruct (QueryUnescape k) as [k'|]; simpl in Hd; [|discriminate].
    destruct (QueryUnescape w) as [w'|]; simpl in Hd; [|discriminate].
    inversion Hd; subst. split; reflexivity.
  - intros seg sep rest Hall Hsep Hbad.
    apply decodePair_None in Hbad.
    rewrite !findFirstQueryKey_spec. unfold findKey_spec, segments.
    rewrite (splitOn_app_sep _ _ _ _ Hall Hsep), (splitOn_no_sep _ _ Hall).
    rewrite !firstValue_skip by exact Hbad. split; reflexivity.
  - intros pre seg sep1 sep2 rest Hall Hsep1 Hsep2 Hbad.
    apply decodePair_None in Hbad.
    rewrite !findFirstQueryKey_spec. unfold findKey_spec, segments.
    rewrite !(splitOn_app_any _ pre _ sep1 Hsep1).
    rewrite (splitOn_app_sep _ _ _ _ Hall Hsep2), (splitOn_no_sep _ _ Hall).
    rewrite !firstValue_app, !firstValue_skip by exact Hbad.
    split; [reflexivity|].
    simpl. destruct (firstValue key (splitOn (isSeparator strict) pre)); reflexivity.
  - intros q i seg v Hi Hne Hk Hv Hprev.
    rewrite findFirstQueryKey_spec. unfold findKey_spec.
    rewrite (firstValue_at key v (segments strict q) i seg Hi Hne); [reflexivity| |].
    + apply decodePair_parts. split; assumption.
    + intros j s Hj Hs.
      destruct (Hprev j s Hj Hs) as [He|[Hn|[Hn|Hother]]].
      * left. exact He.
      * right. left. apply decodePair_None. left. exact Hn.
      * right. left. apply decodePair_None. right. exact Hn.
      * right. destruct (decodePair s) as [[k w]|] eqn:Hd; [|left; reflexivity].
        right. exists k, w. split; [reflexivity|].
        apply decodePair_parts in Hd as [Hdk _]. congruence.
Qed.

Lemma findFirstQueryKey_skips_undecodable_witness :
  findFirstQueryKey "a=%2&a=5" "a" false = findFirstQueryKey "a=5" "a" false
  /\ findFirstQueryKey "a=5" "a" false = ("5", true)
  /\ (exists seg, seg ∈ segments false "a=%2&a=5" /\ seg <> EmptyString /\
                  QueryUnescape (fst (splitFirstEq seg)) = Some "a" /\
                  QueryUnescape (snd (splitFirstEq seg)) = Some "5")
  /\ findFirstQueryKey "b=1&a=%2&a=5" "a" false = findFirstQueryKey "b=1&a=5" "a" false
  /\ findFirstQueryKey "b=1&a=5&a=%zz" "a" true = findFirstQueryKey "b=1&a=5" "a" true
  /\ findFirstQueryKey "b=1&a=%2&%zz=3;a=5" "a" false = ("5", true).
Proof.
  split; [|split; [|split; [|split; [|split]]]].
  - apply (proj1 (proj2 (findFirstQueryKey_skips_undecodable "a" false))
             "a=%2" "&"%char "a=5").
    + reflexivity.
    + reflexivity.
    + right. reflexivity.
  - reflexivity.
  - apply (proj1 (findFirstQueryKey_skips_undecodable "a" false) "a=%2&a=5" "5").
    reflexivity.
  - apply (proj1 (proj2 (proj2 (findFirstQueryKey_skips_undecodable "a" false)))
             "b=1" "a=%2" "&"%char "&"%char "a=5").
    + reflexivity.
    + reflexivity.
    + reflexivity.
    + right. reflexivity.
  - apply (proj1 (proj2 (proj2 (findFirstQueryKey_skips_undecodable "a" true)))
             "b=1&a=5" "a=%zz" "&"%char "&"%char "").
    + reflexivity.
    + reflexivity.
    + reflexivity.
    + right. reflexivity.
  - apply (proj2 (proj2 (proj2 (findFirstQueryKey_skips_undecodable "a" false)))
             "b=1&a=%2&%zz=3;a=5" 3 "a=5" "5").
    + reflexivity.
    + discriminate.
    + reflexivity.
    + reflexivity.
    + intros j s Hj Hs.
      destruct j as [|[|[|j]]]; [| | |lia]; simpl in Hs; inversion Hs; subst s.
      * right. right. right. vm_compute. discriminate.
      * right. right. left. reflexivity.
      * right. left. reflexivity.
Defined.

(** ** Template compiler *)

Section TemplateCompilerFacts.
Context `{RegexpLib}.

Lemma parseVars_lengths (tpl dp : string) (n : nat) :
  forall (idxs : list nat) (g : nat) (st st' : parseState),
    length idxs <= n ->
    parseVars tpl dp idxs g st = Return st' ->
    length (ps_varsN st') = length (ps_varsN st) + length idxs / 2
    /\ length (ps_varsR st') = length (ps_varsR st) + length idxs / 2.
Proof.
  induction n as [n IH] using lt_wf_ind. intros idxs g st st' Hn Hp.
  destruct idxs as [|lo [|hi idxs]]; simpl in Hp.
  - inversion Hp; subst. simpl. lia.
  - inversion Hp; subst. simpl. lia.
  - repeat match type of Hp with
           | context [match ?x with _ => _ end] => destruct x eqn:?; try discriminate
           end.
    simpl in Hn.
    assert (Hlt : length idxs < n) by lia.
    destruct (IH _ Hlt idxs _ _ _ (le_n _) Hp) as [HN HR].
    cbn [ps_varsN ps_varsR] in HN, HR.
    rewrite HN, HR, !length_app.
    change (length (lo :: hi :: idxs)) with (1 * 2 + length idxs).
    rewrite Nat.div_add_l by lia. cbn [length]. lia.
Qed.

Lemma newRouteRegexp_Return (tpl : string) (typ : regexpType)
    (opts : routeRegexpOptions) (r : routeRegexp) :
  newRouteRegexp tpl typ opts = Return r ->
  exists bp,
    buildPattern tpl typ opts = Return bp
    /\ RegexpCompileFunc (bp_patternStr bp) = inl (regexp r)
    /\ NumSubexp (regexp r) = bp_nvars bp
    /\ varsN r = ps_varsN (bp_state bp)
    /\ varsR r = ps_varsR (bp_state bp)
    /\ options r = bp_options bp
    /\ template r = tpl
    /\ regexpType_of r = typ
    /\ wildcardHostPort r
       = (if decide (typ = regexpTypeHost)
          then negb (Contains (bp_patternStr bp) ":") else false).
Proof.
  unfold newRouteRegexp. intros Hr.
  destruct (buildPattern tpl typ opts) as [bp|e|p] eqn:Hbp; simpl in Hr;
    try discriminate.
  destruct (RegexpCompileFunc (bp_patternStr bp)) as [reg|err] eqn:Hc;
    [|discriminate].
  destruct (decide (NumSubexp reg <> bp_nvars bp)) as [|Heq]; [discriminate|].
  inversion Hr; subst r; simpl. exists bp.
  repeat (split; [first [reflexivity | assumption
                        | destruct (decide (NumSubexp reg = bp_nvars bp)); tauto]|]).
  destruct (decide (typ = regexpTypeHost)); [|reflexivity].
  destruct (Contains (bp_patternStr bp) ":"); reflexivity.
Qed.

Lemma buildPattern_nvars (tpl : string) (typ : regexpType)
    (opts : routeRegexpOptions) (bp : builtPattern) :
  buildPattern tpl typ opts = Return bp ->
  bp_nvars bp = length (ps_varsN (bp_state bp))
  /\ bp_nvars bp = length (ps_varsR (bp_state bp)).
Proof.
  unfold buildPattern. intros Hb.
  destruct (braceIndices tpl) as [e|idxs]; [discriminate|].
  destruct (opt_strictSlash _ && _); unfold mbind, outcome_bind in Hb;
    (match type of Hb with
     | context [parseVars ?t ?d ?i ?g ?s] =>
         destruct (parseVars t d i g s) as [st|e|p] eqn:Hp; try discriminate
     end);
    apply (parseVars_lengths _ _ _ _ _ _ _ (le_n _)) in Hp;
    repeat (match type of Hb with
            | context [match ?x with _ => _ end] =>
                destruct x eqn:?; try discriminate
            end);
    inversion Hb; subst bp; simpl in *; lia.
Qed.

Lemma newRouteRegexp_groups (tpl : string) (typ : regexpType)
    (opts : routeRegexpOptions) (r : routeRegexp) :
  newRouteRegexp tpl typ opts = Return r ->
  NumSubexp (regexp r) = length (varsN r) /\ length (varsR r) = length (varsN r).
Proof.
  intros Hr.
  destruct (newRouteRegexp_Return _ _ _ _ Hr)
    as (bp & Hbp & _ & Hn & HN & HR & _).
  destruct (buildPattern_nvars _ _ _ _ Hbp) as [H1 H2].
  rewrite Hn, HN, HR. lia.
Qed.

End TemplateCompilerFacts.

(** C8: when the full pattern compiles but its number of capturing groups
    differs from the number of declared variables, [newRouteRegexp] aborts
    (it panics, it does not return an error); hence every compiled pattern
    it returns has as many capturing groups as declared variables. *)
Theorem newRouteRegexp_capture_group_mismatch_aborts :
  (forall (L : RegexpLib) (tpl : string) (typ : regexpType) (opts : routeRegexpOptions),
      (forall (bp : builtPattern) (reg : Regexp),
          buildPattern tpl typ opts = Return bp ->
          RegexpCompileFunc (bp_patternStr bp) = inl reg ->
          NumSubexp reg <> length (ps_varsN (bp_state bp)) ->
          newRouteRegexp tpl typ opts = Abort (PanicCaptureGroups tpl))
      /\ (forall r : routeRegexp,
             newRouteRegexp tpl typ opts = Return r ->
             NumSubexp (regexp r) = length (varsN r)))
  /\ Reference.compile "/{id:(a|b)}" regexpTypePath Reference.noOptions
     = Abort (PanicCaptureGroups "/{id:(a|b)}").
Proof.
  split; [|reflexivity].
  intros L tpl typ opts. split.
  - intros bp reg Hbp Hc Hn.
    destruct (buildPattern_nvars _ _ _ _ Hbp) as [HN _]. rewrite <- HN in Hn.
    unfold newRouteRegexp. rewrite Hbp. simpl. rewrite Hc.
    rewrite decide_True by exact Hn. reflexivity.
  - intros r Hr. apply (newRouteRegexp_groups _ _ _ _ Hr).
Qed.

Lemma newRouteRegexp_capture_group_mismatch_aborts_witness :
  Reference.compile "/{id:(a|b)}" regexpTypePath Reference.noOptions
  = Abort (PanicCaptureGroups "/{id:(a|b)}")
  /\ exists r, Reference.compile "/{a}-{b}" regexpTypePath Reference.noOptions = Return r
               /\ @NumSubexp RefRegexp.lib (regexp r) = 2.
Proof.
  split.
  - eapply (proj1 (proj1 newRouteRegexp_capture_group_mismatch_aborts RefRegexp.lib
                     "/{id:(a|b)}" regexpTypePath Reference.noOptions)).
    + reflexivity.
    + reflexivity.
    + vm_compute. discriminate.
  - eexists. split; [reflexivity|].
    apply (proj2 (proj1 newRouteRegexp_capture_group_mismatch_aborts RefRegexp.lib
                    "/{a}-{b}" regexpTypePath Reference.noOptions)).
    reflexivity.
Defined.

(** ** Host matching *)

Lemma append_cons (c : ascii) (s t : string) : String c s +:+ t = String c (s +:+ t).
Proof. reflexivity. Qed.

Lemma IndexAny_none_app (chars h rest : string) (c : ascii) :
  (IndexAny h chars < 0)%Z ->
  containsByte chars c = true ->
  IndexAny (h +:+ String c rest) chars = Z.of_nat (len h).
Proof.
  intros Hnone Hc. induction h as [|d h IH].
  - change (EmptyString +:+ String c rest) with (String c rest). simpl. rewrite Hc. reflexivity.
  - rewrite append_cons. simpl in *.
    destruct (containsByte chars d); [lia|].
    destruct (IndexAny h chars <? 0)%Z eqn:Hneg.
    + apply Z.ltb_lt in Hneg. rewrite (IH Hneg).
      assert ((Z.of_nat (len h) <? 0)%Z = false) as -> by (apply Z.ltb_ge; lia).
      unfold len. simpl. lia.
    + apply Z.ltb_ge in Hneg. lia.
Qed.

Lemma IndexAny_range (s chars : string) :
  IndexAny s chars = (-1)%Z \/ (0 <= IndexAny s chars)%Z.
Proof.
  induction s as [|c s IH]; simpl; [left; reflexivity|].
  destruct (containsByte chars c); [right; lia|].
  destruct (IndexAny s chars <? 0)%Z eqn:Hneg; [left; reflexivity|].
  apply Z.ltb_ge in Hneg. right. lia.
Qed.

Lemma sliceTo_app (h rest : string) : sliceTo (h +:+ rest) (len h) = h.
Proof.
  induction h as [|d h IH]; [reflexivity|].
  rewrite append_cons. unfold len in *. simpl. rewrite IH. reflexivity.
Qed.

Section HostMatching.
Context `{RegexpLib} `{GoStd} `{HTTPTypes}.

Lemma hostToMatch_strips_port (r : routeRegexp) (h port : string) :
  wildcardHostPort r = true ->
  Contains h ":" = false ->
  hostToMatch r (h +:+ ":" +:+ port) = h /\ hostToMatch r h = h.
Proof.
  intros Hw Hh. unfold hostToMatch. rewrite Hw.
  unfold Contains in Hh. apply Z.leb_gt in Hh.
  rewrite !Index_single in *. split.
  - change (":" +:+ port) with (String ":" port).
    rewrite (IndexAny_none_app ":" h port ":"%char Hh eq_refl).
    rewrite decide_True by lia. rewrite Nat2Z.id. apply sliceTo_app.
  - destruct (decide (IndexAny h ":" <> (-1)%Z)) as [Hne|_]; [|reflexivity].
    destruct (IndexAny_range h ":"); lia.
Qed.

End HostMatching.

(** C7: a compiled host template has [wildcardHostPort] set exactly when
    the text of its full pattern contains no [':']; with the flag set a
    request host is matched with everything from its first [':'] (the port)
    taken off; so host template [example.com] matches request host
    [example.com:8080]. *)
Theorem host_wildcard_port :
  (forall (L : RegexpLib) (tpl : string) (opts : routeRegexpOptions) (r : routeRegexp),
      newRouteRegexp tpl regexpTypeHost opts = Return r ->
      exists bp : builtPattern,
        buildPattern tpl regexpTypeHost opts = Return bp
        /\ RegexpCompileFunc (bp_patternStr bp) = inl (regexp r)
        /\ (wildcardHostPort r = true <-> Contains (bp_patternStr bp) ":" = false))
  /\ (forall (L : RegexpLib) (G : GoStd) (T : HTTPTypes) (r : routeRegexp)
             (req : Request) (m : RouteMatch) (h port : string),
         regexpType_of r = regexpTypeHost ->
         wildcardHostPort r = true ->
         Contains h ":" = false ->
         getHost req = h +:+ ":" +:+ port ->
         routeRegexp_Match r req m = MatchString (regexp r) h)
  /\ (exists r, Reference.compile "example.com" regexpTypeHost Reference.noOptions = Return r
                /\ wildcardHostPort r = true
                /\ Reference.matches r (Reference.request "GET" "example.com:8080" "/" "")
                   = true).
Proof.
  split; [|split].
  - intros L tpl opts r Hr.
    destruct (newRouteRegexp_Return _ _ _ _ Hr) as (bp & Hbp & Hc & _ & _ & _ & _ & _ & _ & Hw).
    exists bp. split; [exact Hbp|]. split; [exact Hc|].
    rewrite Hw, decide_True by reflexivity.
    destruct (Contains (bp_patternStr bp) ":"); simpl; split; congruence.
  - intros L G T r req m h port Ht Hw Hh Hhost.
    unfold routeRegexp_Match. rewrite decide_True by exact Ht.
    rewrite Hhost. f_equal. apply (hostToMatch_strips_port r h port Hw Hh).
  - eexists. split; [reflexivity|]. split; reflexivity.
Qed.

Lemma host_wildcard_port_witness :
  exists r, Reference.compile "example.com" regexpTypeHost Reference.noOptions = Return r
            /\ (exists bp,
                   @buildPattern RefRegexp.lib "example.com" regexpTypeHost Reference.noOptions
                   = Return bp
                   /\ @RegexpCompileFunc RefRegexp.lib (bp_patternStr bp) = inl (regexp r)
                   /\ (wildcardHostPort r = true <-> Contains (bp_patternStr bp) ":" = false))
            /\ Reference.matches r (Reference.request "GET" "example.com:8080" "/" "")
               = @MatchString RefRegexp.lib (regexp r) "example.com".
Proof.
  eexists. split; [reflexivity|]. split.
  - apply (proj1 host_wildcard_port RefRegexp.lib "example.com" Reference.noOptions).
    reflexivity.
  - apply (proj1 (proj2 host_wildcard_port) RefRegexp.lib Reference.std Reference.types
             _ (Reference.request "GET" "example.com:8080" "/" "") emptyMatch
             "example.com" "8080"); reflexivity.
Defined.

(** ** URL building *)

Section URLBuilder.
Context `{RegexpLib} `{GoStd}.

Lemma url_check_first_failure (r : routeRegexp) (values : gmap string string) :
  forall (names : list string) (k0 k : nat) (name : string) (re : Regexp),
    names !! k = Some name ->
    varsR r !! (k0 + k) = Some re ->
    MatchString re (mapIndex values name) = false ->
    (forall j name' re', j < k -> names !! j = Some name' ->
                         varsR r !! (k0 + j) = Some re' ->
                         MatchString re' (mapIndex values name') = true) ->
    url_check r k0 names values
    = Fail (ErrVariableMismatch (mapIndex values name) (Regexp_String re)).
Proof.
  induction names as [|n names IH]; intros k0 k name re Hn Hre Hbad Hprev;
    [discriminate|].
  destruct k as [|k]; simpl in *.
  - inversion Hn; subst n. rewrite Nat.add_0_r in Hre. rewrite Hre, Hbad. reflexivity.
  - destruct (varsR r !! k0) as [re0|] eqn:Hre0.
    + rewrite (Hprev 0 n re0) by (first [lia | reflexivity | rewrite Nat.add_0_r; exact Hre0]).
      simpl. apply (IH (S k0) k name re Hn).
      * replace (S k0 + k) with (k0 + S k) by lia. exact Hre.
      * exact Hbad.
      * intros j name' re' Hj Hn' Hre'. apply (Hprev (S j) name' re'); [lia|exact Hn'|].
        replace (k0 + S j) with (S k0 + j) by lia. exact Hre'.
    + apply lookup_ge_None in Hre0. apply lookup_lt_Some in Hre. lia.
Qed.

Lemma url_check_all_valid (r : routeRegexp) (values : gmap string string) :
  forall (names : list string) (k0 : nat),
    k0 + length names <= length (varsR r) ->
    (forall j name re, names !! j = Some name -> varsR r !! (k0 + j) = Some re ->
                       MatchString re (mapIndex values name) = true) ->
    url_check r k0 names values = Return tt.
Proof.
  induction names as [|n names IH]; intros k0 Hlen Hall; [reflexivity|].
  simpl in *. destruct (varsR r !! k0) as [re0|] eqn:Hre0.
  - rewrite (Hall 0 n re0) by (first [reflexivity | rewrite Nat.add_0_r; exact Hre0]).
    simpl. apply IH; [lia|].
    intros j name re Hn Hre. apply (Hall (S j) name re); [exact Hn|].
    replace (k0 + S j) with (S k0 + j) by lia. exact Hre.
  - apply lookup_ge_None in Hre0. lia.
Qed.

Lemma url_values_Return (r : routeRegexp) (values : gmap string string) :
  forall names : list string,
    (forall name, name ∈ names -> is_Some (values !! name)) ->
    url_values r names values
    = Return (map (fun name =>
                     if decide (regexpType_of r = regexpTypeQuery)
                     then QueryEscape (mapIndex values name)
                     else mapIndex values name) names).
Proof.
  induction names as [|n names IH]; intros Hall; [reflexivity|].
  simpl. destruct (Hall n) as [v Hv]; [left|].
  unfold mapIndex at 1 2. rewrite Hv. simpl.
  rewrite IH by (intros name Hin; apply Hall; right; exact Hin).
  reflexivity.
Qed.

(** The three ways [url] ends once every variable has a value. *)
Lemma url_outcome :
  forall (r : routeRegexp) (values : gmap string string)
         (urlValues : list string),
    url_values r (varsN r) values = Return urlValues ->
    length (varsR r) = length (varsN r) ->
    let rv := Sprintf (reverse r) urlValues in
    (MatchString (regexp r) rv = true -> url r values = Return rv)
    /\ (MatchString (regexp r) rv = false ->
        (forall (k : nat) (name : string) (re : Regexp),
            varsN r !! k = Some name ->
            varsR r !! k = Some re ->
            MatchString re (mapIndex values name) = false ->
            (forall j name' re', j < k -> varsN r !! j = Some name' ->
                                 varsR r !! j = Some re' ->
                                 MatchString re' (mapIndex values name') = true) ->
            url r values
            = Fail (ErrVariableMismatch (mapIndex values name) (Regexp_String re)))
        /\ ((forall (k : nat) (name : string) (re : Regexp),
                varsN r !! k = Some name -> varsR r !! k = Some re ->
                MatchString re (mapIndex values name) = true) ->
            url r values = Return rv)).
Proof.
  intros r values urlValues Hvals Hlen rv. unfold url. rewrite Hvals. simpl.
  fold rv. split.
  - intros ->. reflexivity.
  - intros ->. simpl. split.
    + intros k name re Hn Hre Hbad Hprev.
      rewrite (url_check_first_failure r values (varsN r) 0 k name re Hn Hre Hbad Hprev).
      reflexivity.
    + intros Hall. rewrite (url_check_all_valid r values (varsN r) 0); [reflexivity|lia|].
      intros j name re Hn Hre. apply (Hall j name re Hn Hre).
Qed.

End URLBuilder.

(** C3 (as the code has it): after substitution the built string is checked
    against the full pattern; if it does not match, the values are checked
    one by one, in declaration order, against their own validators, and the
    first value that fails is reported with the validator's pattern as a
    variable-mismatch error; if every value passes its validator the built
    string is returned without error, whether or not it matches the full
    pattern. *)
Theorem url_verifies_built_string :
  forall (L : RegexpLib) (G : GoStd) (r : routeRegexp) (values : gmap string string)
         (urlValues : list string),
    url_values r (varsN r) values = Return urlValues ->
    length (varsR r) = length (varsN r) ->
    let rv := Sprintf (reverse r) urlValues in
    (MatchString (regexp r) rv = true -> url r values = Return rv)
    /\ (MatchString (regexp r) rv = false ->
        (forall (k : nat) (name : string) (re : Regexp),
            varsN r !! k = Some name ->
            varsR r !! k = Some re ->
            MatchString re (mapIndex values name) = false ->
            (forall j name' re', j < k -> varsN r !! j = Some name' ->
                                 varsR r !! j = Some re' ->
                                 MatchString re' (mapIndex values name') = true) ->
            url r values
            = Fail (ErrVariableMismatch (mapIndex values name) (Regexp_String re)))
        /\ ((forall (k : nat) (name : string) (re : Regexp),
                varsN r !! k = Some name -> varsR r !! k = Some re ->
                MatchString re (mapIndex values name) = true) ->
            url r values = Return rv)).
Proof.
  intros L G r values urlValues Hvals Hlen. apply (url_outcome r values urlValues Hvals Hlen).
Qed.

Lemma url_verifies_built_string_witness :
  (exists r, Reference.compile "/{a:[0-9]+}" regexpTypePath Reference.noOptions = Return r
             /\ Reference.build r {["a" := "42"]} = Return "/42"
             /\ Reference.build r {["a" := "x7"]}
                = Fail (ErrVariableMismatch "x7" "^[0-9]+$"))
  /\ (exists r, Reference.compile "q={v:[a-z ]+}" regexpTypeQuery Reference.noOptions = Return r
                /\ Reference.build r {["v" := "a b"]} = Return "q=a+b").
Proof.
  split.
  - exists_compiled. split.
    + match goal with
      | |- Reference.build ?r ?v = _ =>
          apply (proj1 (url_verifies_built_string RefRegexp.lib Reference.std r v
                          ["42"] eq_refl eq_refl))
      end.
      reflexivity.
    + match goal with
      | |- Reference.build ?r ?v = _ =>
          let o := eval vm_compute in (varsR r !! 0) in
          match o with
          | Some ?re =>
              apply (proj1 (proj2 (url_verifies_built_string RefRegexp.lib Reference.std r v
                                     ["x7"] eq_refl eq_refl) eq_refl) 0 "a" re)
          end
      end.
      * reflexivity.
      * reflexivity.
      * reflexivity.
      * intros j name' re' Hj. lia.
  - exists_compiled.
    match goal with
    | |- Reference.build ?r ?v = _ =>
        apply (proj2 (proj2 (url_verifies_built_string RefRegexp.lib Reference.std r v
                               ["a+b"] eq_refl eq_refl) eq_refl))
    end.
    intros [|[|k]] name re Hn Hre; try discriminate.
    inversion Hn; subst name. inversion Hre; subst re. reflexivity.
Defined.

(** C3, as stated, fails: values that each pass their own validator are
    returned substituted, without error, although the built string does not
    match the full pattern. *)
Lemma url_returns_unverified_string :
  (exists r, Reference.compile "q={v:[a-z ]+}" regexpTypeQuery Reference.noOptions = Return r
             /\ Reference.validates r 0 "a b" = true
             /\ Reference.build r {["v" := "a b"]} = Return "q=a+b"
             /\ Reference.fullMatch r "q=a+b" = false)
  /\ (exists r, Reference.compile "/{a:x|xy}" regexpTypePath Reference.noOptions = Return r
                /\ Reference.validates r 0 "xz" = true
                /\ Reference.build r {["a" := "xz"]} = Return "/xz"
                /\ Reference.fullMatch r "/xz" = false).
Proof.
  split; exists_compiled; repeat split; reflexivity.
Qed.

(** ** Extraction of variables *)

Section Extraction.
Context `{RegexpLib}.

Lemma extractVars_loop_spans (input : string) (matches : list Z)
    (values : gmap string string) :
  forall (names : list string) (i : nat) (output : option (gmap string string)),
    spansHold input matches i names values ->
    exists out,
      extractVars_loop input matches i names output = Return out
      /\ (forall name, name ∈ names -> default ∅ out !! name = Some (mapIndex values name))
      /\ (forall name, name ∉ names -> default ∅ out !! name = default ∅ output !! name)
      /\ (names <> [] -> is_Some out).
Proof.
  induction names as [|n names IH]; intros i output Hspans.
  - exists output. split; [reflexivity|]. split; [|split].
    + intros name Hin. inversion Hin.
    + reflexivity.
    + congruence.
  - destruct (Hspans 0 n eq_refl) as (lo & hi & Hlo & Hhi & Hs).
    rewrite Nat.add_0_r in Hlo, Hhi.
    cbn [extractVars_loop]. rewrite Hlo, Hhi, Hs.
    destruct (IH (S i) (Some (<[n := mapIndex values n]> (default ∅ output))))
      as (out & Hout & Hin & Hnotin & Hsome).
    { intros j name Hj. destruct (Hspans (S j) name Hj) as (lo' & hi' & H1 & H2 & H3).
      exists lo', hi'. replace (S i + j) with (i + S j) by lia. auto. }
    exists out. split; [|split; [|split]].
    + destruct output; exact Hout.
    + intros name Hname. destruct (decide (name ∈ names)) as [Hn|Hn]; [auto|].
      apply elem_of_cons in Hname as [->|]; [|contradiction].
      rewrite (Hnotin _ Hn). simpl. apply lookup_insert_eq.
    + intros name Hname. apply not_elem_of_cons in Hname as [Hne Hn].
      rewrite (Hnotin _ Hn). simpl. apply lookup_insert_ne. congruence.
    + intros _. destruct names; [|apply Hsome; congruence].
      simpl in Hout. inversion Hout. eauto.
Qed.
End Extraction.

(** C4 (as the code has it): for a variable map that gives every declared
    variable a value its validator accepts, building succeeds without
    error and yields the reverse template with the values substituted; and
    when the capture groups of the full pattern, matched against the built
    string, span exactly the values, extraction yields the declared
    variables with their original values and nothing else. *)
Theorem url_then_extract_on_captured_values :
  forall (L : RegexpLib) (G : GoStd) (r : routeRegexp) (values : gmap string string),
    (forall name, name ∈ varsN r -> is_Some (values !! name)) ->
    length (varsR r) = length (varsN r) ->
    (forall (k : nat) (name : string) (re : Regexp),
        varsN r !! k = Some name -> varsR r !! k = Some re ->
        MatchString re (mapIndex values name) = true) ->
    let rv := Sprintf (reverse r) (urlValuesOf r values) in
    let matches := FindStringSubmatchIndex (regexp r) rv in
    url r values = Return rv
    /\ (spansHold rv matches 0 (varsN r) values ->
        exists out,
          extractVars rv matches (varsN r) None = Return out
          /\ forall name,
               default ∅ out !! name
               = if decide (name ∈ varsN r) then values !! name else None).
Proof.
  intros L G r values Hpresent Hlen Hvalid rv matches. split.
  - pose proof (url_values_Return r values (varsN r) Hpresent) as Hvals.
    destruct (MatchString (regexp r) rv) eqn:Hm.
    + apply (proj1 (url_outcome r values _ Hvals Hlen) Hm).
    + apply (proj2 (proj2 (url_outcome r values _ Hvals Hlen) Hm) Hvalid).
  - intros Hspans.
    destruct (extractVars_loop_spans rv matches values (varsN r) 0 None Hspans)
      as (out & Hout & Hin & Hnotin & _).
    exists out. split; [exact Hout|].
    intros name. destruct (decide (name ∈ varsN r)) as [Hn|Hn].
    + rewrite (Hin _ Hn). destruct (Hpresent _ Hn) as [v Hv].
      unfold mapIndex. rewrite Hv. reflexivity.
    + rewrite (Hnotin _ Hn). reflexivity.
Qed.
Lemma url_then_extract_on_captured_values_witness :
  exists r, Reference.compile "/{a}-{b}" regexpTypePath Reference.noOptions = Return r
            /\ Reference.build r {["a" := "x-y"; "b" := "z"]} = Return "/x-y-z"
            /\ exists out,
                 @extractVars "/x-y-z" (@FindStringSubmatchIndex RefRegexp.lib (regexp r) "/x-y-z")
                   (varsN r) None = Return out
                 /\ default ∅ out !! "a" = Some "x-y"
                 /\ default ∅ out !! "b" = Some "z"
                 /\ default ∅ out !! "c" = None.
Proof.
  exists_compiled.
  match goal with
  | |- Reference.build ?r ?v = _ /\ _ =>
      pose proof (url_then_extract_on_captured_values RefRegexp.lib Reference.std r v) as Hthm
  end.
  destruct Hthm as [Hurl Hextract].
  - intros name Hin. apply elem_of_cons in Hin as [->|Hin]; [eexists; reflexivity|].
    apply elem_of_cons in Hin as [->|Hin]; [eexists; reflexivity|]. inversion Hin.
  - reflexivity.
  - intros [|[|k]] name re Hn Hre; try discriminate.
    + inversion Hn; subst name. inversion Hre; subst re. reflexivity.
    + inversion Hn; subst name. inversion Hre; subst re. reflexivity.
  - split; [exact Hurl|].
    destruct Hextract as (out & Hout & Hlookup).
    + intros [|[|j]] name Hn; try discriminate.
      * inversion Hn; subst name. exists 1%Z, 4%Z. repeat split; reflexivity.
      * inversion Hn; subst name. exists 5%Z, 6%Z. repeat split; reflexivity.
    + exists out. split; [exact Hout|].
      split; [|split].
      * rewrite (Hlookup "a"). reflexivity.
      * rewrite (Hlookup "b"). reflexivity.
      * rewrite (Hlookup "c"). reflexivity.
Defined.

(** C4, as stated, fails: both values pass their validators and the built
    string matches the full pattern, yet matching re-extracts other values
    than the ones the string was built from. *)
Lemma url_round_trip_fails :
  exists r, Reference.compile "/{a}-{b}" regexpTypePath Reference.noOptions = Return r
            /\ Reference.validates r 0 "x" = true
            /\ Reference.validates r 1 "y-z" = true
            /\ Reference.build r {["a" := "x"; "b" := "y-z"]} = Return "/x-y-z"
            /\ Reference.fullMatch r "/x-y-z" = true
            /\ Reference.lookupVar (Reference.extract r "/x-y-z") "a" = Some "x-y"
            /\ Reference.lookupVar (Reference.extract r "/x-y-z") "b" = Some "z".
Proof.
  exists_compiled. repeat split; reflexivity.
Qed.

(** ** Strict slash *)

Section SetMatch.
Context `{RegexpLib} `{GoStd} `{HTTPTypes}.

Lemma extractVars_loop_total (input : string) (matches : list Z) :
  forall (names : list string) (i : nat) (output : option (gmap string string)),
    (forall j, j < length names ->
               exists lo hi v,
                 matches !! (2 * (i + j) + 2) = Some lo
                 /\ matches !! (2 * (i + j) + 3) = Some hi
                 /\ sliceChecked input lo hi = Some v) ->
    exists out, extractVars_loop input matches i names output = Return out.
Proof.
  induction names as [|n names IH]; intros i output Hok; [eexists; reflexivity|].
  destruct (Hok 0) as (lo & hi & v & Hlo & Hhi & Hv); [simpl; lia|].
  rewrite Nat.add_0_r in Hlo, Hhi.
  cbn [extractVars_loop]. rewrite Hlo, Hhi, Hv.
  apply IH. intros j Hj. destruct (Hok (S j)) as (lo' & hi' & v' & H'); [simpl; lia|].
  exists lo', hi', v'. replace (S i + j) with (i + S j) by lia. exact H'.
Qed.

Lemma storeVars_Return (re : routeRegexp) (input : string) (m m' : RouteMatch) :
  storeVars re input m = Return m' ->
  match_Handler m' = match_Handler m /\ match_Route m' = match_Route m
  /\ MatchErr m' = MatchErr m.
Proof.
  unfold storeVars. intros Hs.
  destruct (decide (0 < length (varsN re))); [|inversion Hs; subst; auto].
  destruct (decide (0 < length _)); [|inversion Hs; subst; auto].
  destruct (extractVars _ _ _ _) as [vars|e|p]; simpl in Hs; inversion Hs; subst; auto.
Qed.

Lemma storeVars_total (re : routeRegexp) (input : string) (m : RouteMatch) :
  extractable re input -> exists m', storeVars re input m = Return m'.
Proof.
  unfold extractable, storeVars. intros Hex.
  destruct (decide (0 < length (varsN re))); [|eexists; reflexivity].
  destruct (decide (0 < length _)) as [Hm|]; [|eexists; reflexivity].
  destruct (extractVars_loop_total input (FindStringSubmatchIndex (regexp re) input)
              (varsN re) 0 (match_Vars m)) as [out Hout].
  { intros j Hj. apply (Hex Hm j Hj). }
  unfold extractVars. rewrite Hout. simpl. eexists; reflexivity.
Qed.

Lemma setMatch_queries_Return (req : Request) :
  forall (queries : list routeRegexp) (m m' : RouteMatch),
    setMatch_queries queries req m = Return m' ->
    match_Handler m' = match_Handler m.
Proof.
  induction queries as [|q queries IH]; intros m m' Hs; simpl in Hs.
  - inversion Hs; subst; reflexivity.
  - destruct (storeVars q (getURLQuery q req) m) as [m1|e|p] eqn:Hq1; simpl in Hs;
      try discriminate.
    apply storeVars_Return in Hq1 as [Hq1 _]. rewrite <- Hq1. apply (IH _ _ Hs).
Qed.

Lemma setMatch_queries_total (req : Request) :
  forall (queries : list routeRegexp) (m : RouteMatch),
    (forall q, q ∈ queries -> extractable q (getURLQuery q req)) ->
    exists m', setMatch_queries queries req m = Return m'.
Proof.
  induction queries as [|q queries IH]; intros m Hex; [eexists; reflexivity|].
  simpl. destruct (storeVars_total q (getURLQuery q req) m) as [m1 ->].
  { apply Hex. left. }
  simpl. apply IH. intros q' Hq'. apply Hex. right. exact Hq'.
Qed.

Lemma setMatch_handler (v : routeRegexpGroup) (req : Request) (m : RouteMatch) (r : Route) :
  (forall h, rg_host v = Some h -> extractable h (hostToMatch h (getHost req))) ->
  (forall vpath, rg_path v = Some vpath -> extractable vpath (requestPath r req)) ->
  (forall q, q ∈ rg_queries v -> extractable q (getURLQuery q req)) ->
  (HasSuffix (requestPath r req) "/" = true -> Path (req_URL req) <> EmptyString) ->
  exists m', setMatch v req m r = Return m'
             /\ match_Handler m' = handlerAfter v req m r.
Proof.
  intros Hhost Hpath Hq Hne. unfold setMatch, handlerAfter.
  assert (Hfirst : exists m1, match rg_host v with
                          | Some h => storeVars h (hostToMatch h (getHost req)) m
                          | None => Return m
                          end = Return m1 /\ match_Handler m1 = match_Handler m).
  { destruct (rg_host v) as [h|]; [|eauto].
    destruct (storeVars_total h (hostToMatch h (getHost req)) m) as [m1 Hm1]; [auto|].
    exists m1. split; [exact Hm1|]. apply (storeVars_Return _ _ _ _ Hm1). }
  destruct Hfirst as (m1 & -> & Hh1). simpl.
  assert (Hfinish : forall m2, match_Handler m2 = match_Handler m ->
            exists m', setMatch_queries (rg_queries v) req m2 = Return m'
                       /\ match_Handler m' = match_Handler m).
  { intros m2 Hm2. destruct (setMatch_queries_total req (rg_queries v) m2 Hq) as [m3 Hm3].
    exists m3. split; [exact Hm3|].
    rewrite (setMatch_queries_Return _ _ _ _ Hm3). exact Hm2. }
  assert (Hredirect : forall m2 u,
            exists m', setMatch_queries (rg_queries v) req (set_Handler m2 (Some u)) = Return m'
                       /\ match_Handler m' = Some u).
  { intros m2 u.
    destruct (setMatch_queries_total req (rg_queries v) (set_Handler m2 (Some u)) Hq)
      as [m3 Hm3].
    exists m3. split; [exact Hm3|].
    rewrite (setMatch_queries_Return _ _ _ _ Hm3). reflexivity. }
  destruct (rg_path v) as [vpath|]; [|apply Hfinish; exact Hh1].
  destruct (storeVars_total vpath (requestPath r req) m1) as [m2 Hm2]; [auto|].
  rewrite Hm2. simpl. apply storeVars_Return in Hm2 as [Hh2 _].
  destruct (opt_strictSlash (options vpath)); simpl;
    [|apply Hfinish; congruence].
  destruct (HasSuffix (requestPath r req) "/") eqn:Hp1;
    destruct (HasSuffix (template vpath) "/") eqn:Hp2; simpl;
    repeat (case_decide; try congruence; simpl);
    try (apply Hfinish; congruence);
    try apply Hredirect.
  exfalso. apply Hne; [reflexivity|]. apply len_zero. assumption.
Qed.
End SetMatch.
Section StrictSlashOption.
Context `{RegexpLib}.

Lemma buildPattern_strictSlash (tpl : string) (typ : regexpType)
    (opts : routeRegexpOptions) (bp : builtPattern) :
  buildPattern tpl typ opts = Return bp ->
  typ <> regexpTypePath ->
  opt_strictSlash (bp_options bp) = false.
Proof.
  unfold buildPattern. intros Hb Htyp.
  destruct (braceIndices tpl) as [e|idxs]; [discriminate|].
  rewrite (decide_True (P := typ <> regexpTypePath)) in Hb by exact Htyp.
  cbn [opt_strictSlash andb] in Hb.
  unfold mbind, outcome_bind in Hb.
  repeat (match type of Hb with
          | context [match ?x with _ => _ end] =>
              destruct x eqn:?; try discriminate
          end);
    inversion Hb; subst bp; reflexivity.
Qed.
End StrictSlashOption.

(** C6: once a route matches, [setMatch] replaces the handler of the match
    by a permanent redirect to the path with its trailing slash added or
    removed when the route's path template has [strictSlash] set and the
    request path (the escaped path if the route uses encoded paths, the
    decoded one otherwise) and the template differ in ending with a slash;
    in every other case the handler it was given, the registered one, stays.
    Only path templates keep [strictSlash].  With strictSlash, template
    [/path/] and request [/path] redirect to [/path/], template [/path] and
    request [/path/] redirect to [/path], and a request that ends as the
    template does keeps the registered handler; template [/path] without
    strictSlash does not match a request for [/path/]. *)
Theorem setMatch_strict_slash_redirect :
  (forall (L : RegexpLib) (G : GoStd) (T : HTTPTypes) (v : routeRegexpGroup)
          (req : Request) (m : RouteMatch) (r : Route),
      let path := if useEncodedPath (route_conf r)
                  then URL_EscapedPath (req_URL req) else Path (req_URL req) in
      (forall h, rg_host v = Some h -> extractable h (hostToMatch h (getHost req))) ->
      (forall vpath, rg_path v = Some vpath -> extractable vpath path) ->
      (forall q, q ∈ rg_queries v -> extractable q (getURLQuery q req)) ->
      (HasSuffix path "/" = true -> Path (req_URL req) <> EmptyString) ->
      exists m',
        setMatch v req m r = Return m'
        /\ (rg_path v = None -> match_Handler m' = match_Handler m)
        /\ (forall vpath, rg_path v = Some vpath ->
              let p1 := HasSuffix path "/" in
              let p2 := HasSuffix (template vpath) "/" in
              let p := Path (req_URL req) in
              (opt_strictSlash (options vpath) = true -> p1 <> p2 ->
               match_Handler m'
               = Some (http_RedirectHandler
                         (URL_String
                            {| Scheme := Scheme (req_URL req);
                               URL_Host := URL_Host (req_URL req);
                               Path := if p1 then sliceTo p (len p - 1) else p +:+ "/";
                               RawPath := RawPath (req_URL req);
                               RawQuery := RawQuery (req_URL req) |})
                         StatusMovedPermanently))
              /\ (opt_strictSlash (options vpath) = false \/ p1 = p2 ->
                  match_Handler m' = match_Handler m)))
  /\ (forall (L : RegexpLib) (tpl : string) (typ : regexpType) (opts : routeRegexpOptions)
             (r : routeRegexp),
         typ <> regexpTypePath ->
         newRouteRegexp tpl typ opts = Return r ->
         opt_strictSlash (options r) = false)
  /\ (exists re,
         Reference.compile "/path/" regexpTypePath Reference.strictSlashOptions = Return re
         /\ let route := Reference.pathRoute true re [] (Reference.appHandler "app") in
            let req := Reference.request "GET" "example.com" "/path" "" in
            let same := Reference.request "GET" "example.com" "/path/" "" in
            Reference.matches re req = true
            /\ Reference.withPath req "/path/" = "/path/"
            /\ Reference.setMatchOn route req
               = Return (set_Handler (Reference.matchOf route) (Reference.redirectTo "/path/"))
            /\ Reference.matches re same = true
            /\ Reference.setMatchOn route same = Return (Reference.matchOf route))
  /\ (exists re,
         Reference.compile "/path" regexpTypePath Reference.strictSlashOptions = Return re
         /\ let route := Reference.pathRoute true re [] (Reference.appHandler "app") in
            let req := Reference.request "GET" "example.com" "/path/" "x=1" in
            let same := Reference.request "GET" "example.com" "/path" "x=1" in
            Reference.matches re req = true
            /\ Reference.setMatchOn route req
               = Return (set_Handler (Reference.matchOf route)
                           (Reference.redirectTo "/path?x=1"))
            /\ Reference.setMatchOn route same = Return (Reference.matchOf route))
  /\ (exists re,
         Reference.compile "/path" regexpTypePath Reference.noOptions = Return re
         /\ forall req, Path (req_URL req) = "/path/" -> Reference.matches re req = false).
Proof.
  split; [|split; [|split; [|split]]].
  - intros L G T v req m r path Hhost Hpath Hq Hne.
    destruct (setMatch_handler v req m r Hhost Hpath Hq Hne) as (m' & Hm' & Hh).
    exists m'. split; [exact Hm'|]. unfold handlerAfter in Hh.
    change (requestPath r req) with path in Hh. split.
    + intros Hnone. rewrite Hnone in Hh. exact Hh.
    + intros vpath Hsome p1 p2 p. rewrite Hsome in Hh. fold p1 p2 in Hh. split.
      * intros Hstrict Hdiff. rewrite Hstrict in Hh.
        destruct p1, p2; simpl in Hh; try congruence; exact Hh.
      * intros [Hstrict|Hsame].
        -- rewrite Hstrict in Hh. exact Hh.
        -- rewrite Hsame in Hh. destruct (opt_strictSlash (options vpath)), p2; exact Hh.
  - intros L tpl typ opts r Htyp Hr.
    destruct (newRouteRegexp_Return _ _ _ _ Hr) as (bp & Hbp & _ & _ & _ & _ & Ho & _).
    rewrite Ho. apply (buildPattern_strictSlash _ _ _ _ Hbp Htyp).
  - exists_compiled. repeat split; reflexivity.
  - exists_compiled. repeat split; reflexivity.
  - exists_compiled. intros req Hp.
    unfold Reference.matches, routeRegexp_Match. simpl. rewrite Hp. reflexivity.
Qed.

Lemma setMatch_strict_slash_redirect_witness :
  (exists re,
      Reference.compile "/path/" regexpTypePath Reference.strictSlashOptions = Return re
      /\ exists m',
           Reference.setMatchOn (Reference.pathRoute true re [] (Reference.appHandler "app"))
             (Reference.request "GET" "example.com" "/path" "") = Return m'
           /\ match_Handler m' = Reference.redirectTo "/path/")
  /\ (exists re,
         Reference.compile "/path" regexpTypePath Reference.strictSlashOptions = Return re
         /\ exists m',
              Reference.setMatchOn (Reference.pathRoute true re [] (Reference.appHandler "app"))
                (Reference.request "GET" "example.com" "/path/" "x=1") = Return m'
              /\ match_Handler m' = Reference.redirectTo "/path?x=1")
  /\ (exists re,
         Reference.compile "/path/" regexpTypePath Reference.strictSlashOptions = Return re
         /\ exists m',
              Reference.setMatchOn (Reference.pathRoute true re [] (Reference.appHandler "app"))
                (Reference.request "GET" "example.com" "/path/" "") = Return m'
              /\ match_Handler m' = Some (Reference.appHandler "app"))
  /\ (exists re,
         Reference.compile "/path/" regexpTypePrefix Reference.strictSlashOptions = Return re
         /\ opt_strictSlash (options re) = false).
Proof.
  split; [|split; [|split]].
  - exists_compiled.
    match goal with
    | |- exists m', Reference.setMatchOn ?route ?req = _ /\ _ =>
        destruct (proj1 setMatch_strict_slash_redirect RefRegexp.lib Reference.std
                    Reference.types (conf_regexp (route_conf route)) req
                    (Reference.matchOf route) route)
          as (m' & Hm' & _ & Hsome)
    end.
    + intros h Hh. discriminate Hh.
    + intros vpath Hv. inversion Hv; subst vpath. intros _ i Hi. simpl in Hi. lia.
    + intros q Hq. inversion Hq.
    + intros Hs. discriminate Hs.
    + exists m'. split; [exact Hm'|].
      apply (proj1 (Hsome _ eq_refl)); [reflexivity|]. intros Heq. discriminate Heq.
  - exists_compiled.
    match goal with
    | |- exists m', Reference.setMatchOn ?route ?req = _ /\ _ =>
        destruct (proj1 setMatch_strict_slash_redirect RefRegexp.lib Reference.std
                    Reference.types (conf_regexp (route_conf route)) req
                    (Reference.matchOf route) route)
          as (m' & Hm' & _ & Hsome)
    end.
    + intros h Hh. discriminate Hh.
    + intros vpath Hv. inversion Hv; subst vpath. intros _ i Hi. simpl in Hi. lia.
    + intros q Hq. inversion Hq.
    + intros _. discriminate.
    + exists m'. split; [exact Hm'|].
      apply (proj1 (Hsome _ eq_refl)); [reflexivity|]. intros Heq. discriminate Heq.
  - exists_compiled.
    match goal with
    | |- exists m', Reference.setMatchOn ?route ?req = _ /\ _ =>
        destruct (proj1 setMatch_strict_slash_redirect RefRegexp.lib Reference.std
                    Reference.types (conf_regexp (route_conf route)) req
                    (Reference.matchOf route) route)
          as (m' & Hm' & _ & Hsome)
    end.
    + intros h Hh. discriminate Hh.
    + intros vpath Hv. inversion Hv; subst vpath. intros _ i Hi. simpl in Hi. lia.
    + intros q Hq. inversion Hq.
    + intros _. discriminate.
    + exists m'. split; [exact Hm'|].
      apply (proj2 (Hsome _ eq_refl)). right. reflexivity.
  - exists_compiled.
    match goal with
    | |- opt_strictSlash (options ?r) = false =>
        apply (proj1 (proj2 setMatch_strict_slash_redirect) RefRegexp.lib "/path/"
                 regexpTypePrefix Reference.strictSlashOptions r)
    end.
    + discriminate.
    + reflexivity.
Defined.

(** ** Dispatch *)

Section DispatchFacts.
Context `{Collaborators}.

Lemma buildMiddlewareChain_foldr (mws : list middleware) (h : http_Handler) :
  buildMiddlewareChain mws h = foldr (fun mw h => Middleware mw h) h mws.
Proof.
  unfold buildMiddlewareChain. induction mws as [|mw mws IH]; [reflexivity|].
  simpl. rewrite foldl_app. simpl. rewrite IH. reflexivity.
Qed.

Lemma Router_Match_routes_inl (r : Router) (req : Request) :
  forall (rs : list Route) (m m' : RouteMatch),
    Router_Match_routes r rs req m = inl m' ->
    exists route m0 m1,
      route ∈ rs /\ Route_Match route req m0 = (true, m1)
      /\ (MatchErr m1 = None ->
          m' = set_Handler m1 (foldr (fun mw h => Middleware mw h)
                                     (match_Handler m1) (middlewares r)))
      /\ (MatchErr m1 <> None -> m' = m1).
Proof.
  induction rs as [|route rs IH]; intros m m' Hr; simpl in Hr; [discriminate|].
  destruct (Route_Match route req m) as [ok m1] eqn:Hroute.
  destruct ok.
  - exists route, m, m1. split; [left|]. split; [exact Hroute|].
    destruct (decide (MatchErr m1 = None)) as [Hnone|Hsome];
      inversion Hr; subst m'; split; try congruence.
    intros _. rewrite buildMiddlewareChain_foldr. reflexivity.
  - destruct (IH _ _ Hr) as (route' & m0 & m2 & Hin & Hrest).
    exists route', m0, m2. split; [right; exact Hin|exact Hrest].
Qed.

(** What [Router.Match] does once no route has matched. *)
Lemma Router_Match_no_route (r : Router) (req : Request) (m m1 : RouteMatch) :
  Router_Match_routes r (routes r) req m = inr m1 ->
  (MatchErr m1 = Some ErrMethodMismatch ->
   (forall h, MethodNotAllowedHandler r = Some h ->
              Router_Match r req m = (true, set_Handler m1 (Some h)))
   /\ (MethodNotAllowedHandler r = None -> Router_Match r req m = (false, m1)))
  /\ (MatchErr m1 <> Some ErrMethodMismatch ->
      (forall h, NotFoundHandler r = Some h ->
                 Router_Match r req m
                 = (true, set_MatchErr (set_Handler m1 (Some h)) (Some ErrNotFound)))
      /\ (NotFoundHandler r = None ->
          Router_Match r req m = (false, set_MatchErr m1 (Some ErrNotFound)))).
Proof.
  intros Hr. unfold Router_Match. rewrite Hr. split.
  - intros Hmm. rewrite decide_True by exact Hmm. split.
    + intros h Hh. rewrite Hh, decide_True by congruence. reflexivity.
    + intros Hh. rewrite Hh, decide_False by congruence. reflexivity.
  - intros Hmm. rewrite decide_False by exact Hmm. split.
    + intros h Hh. rewrite Hh, decide_True by congruence. reflexivity.
    + intros Hh. rewrite Hh, decide_False by congruence. reflexivity.
Qed.

End DispatchFacts.
(** C1 (as the code has it): when a route matches and leaves no match error,
    [Router.Match] wraps the handler of the match in the middlewares, walking
    them from the last registered to the first, so that the first-registered
    middleware is outermost; a match that carries an error is returned as it
    is, and a handler selected when no route matched (method-not-allowed or
    not-found handler) is used as configured, not wrapped. *)
Theorem Router_Match_middleware_chain :
  forall (L : RegexpLib) (G : GoStd) (T : HTTPTypes) (C : Collaborators)
         (r : Router) (req : Request) (m : RouteMatch),
    (forall m',
        Router_Match_routes r (routes r) req m = inl m' ->
        Router_Match r req m = (true, m')
        /\ exists route m0 m1,
             route ∈ routes r /\ Route_Match route req m0 = (true, m1)
             /\ (MatchErr m1 = None ->
                 m' = set_Handler m1 (foldr (fun mw h => Middleware mw h)
                                            (match_Handler m1) (middlewares r)))
             /\ (MatchErr m1 <> None -> m' = m1))
    /\ (forall m1 m',
           Router_Match_routes r (routes r) req m = inr m1 ->
           Router_Match r req m = (true, m') ->
           (MatchErr m1 = Some ErrMethodMismatch
            /\ match_Handler m' = MethodNotAllowedHandler r)
           \/ (MatchErr m1 <> Some ErrMethodMismatch
               /\ match_Handler m' = NotFoundHandler r)).
Proof.
  intros L G T C r req m. split.
  - intros m' Hr. split.
    + unfold Router_Match. rewrite Hr. reflexivity.
    + apply (Router_Match_routes_inl r req _ _ _ Hr).
  - intros m1 m' Hr Hm.
    destruct (Router_Match_no_route r req m m1 Hr) as [Hmm Hnf].
    destruct (decide (MatchErr m1 = Some ErrMethodMismatch)) as [He|He].
    + left. split; [exact He|]. destruct (Hmm He) as [Hsome Hnone].
      destruct (MethodNotAllowedHandler r) as [h|].
      * rewrite (Hsome h eq_refl) in Hm. inversion Hm; subst m'. reflexivity.
      * rewrite (Hnone eq_refl) in Hm. discriminate Hm.
    + right. split; [exact He|]. destruct (Hnf He) as [Hsome Hnone].
      destruct (NotFoundHandler r) as [h|].
      * rewrite (Hsome h eq_refl) in Hm. inversion Hm; subst m'. reflexivity.
      * rewrite (Hnone eq_refl) in Hm. discriminate Hm.
Qed.

Lemma Router_Match_middleware_chain_witness :
  exists re,
    Reference.compile "/x" regexpTypePath Reference.noOptions = Return re
    /\ let mws := [Reference.logging "first"; Reference.logging "second"] in
       let req := Reference.request "GET" "example.com" "/x" "" in
       (exists m',
           Reference.dispatch
             (Reference.router mws [Reference.anyMethod re] None None) req = (true, m')
           /\ Reference.served_body (match_Handler m') req = ["first"; "second"; "app"])
       /\ (exists m',
              Reference.dispatch
                (Reference.router mws [] (Some (Reference.appHandler "custom 404")) None) req
              = (true, m')
              /\ match_Handler m' = Some (Reference.appHandler "custom 404")).
Proof.
  exists_compiled. intros mws req. split.
  - match goal with
    | |- exists m', Reference.dispatch ?r req = _ /\ _ =>
        destruct (proj1 (Router_Match_middleware_chain RefRegexp.lib Reference.std
                           Reference.types Reference.collaborators r req emptyMatch)
                    _ eq_refl)
          as (Hm & route & m0 & m1 & Hin & Hroute & Hwrap & _)
    end.
    eexists. split; [exact Hm|]. reflexivity.
  - match goal with
    | |- exists m', Reference.dispatch ?r req = _ /\ _ =>
        pose proof (proj2 (Router_Match_middleware_chain RefRegexp.lib Reference.std
                             Reference.types Reference.collaborators r req emptyMatch)
                      _ _ eq_refl eq_refl) as Hsel
    end.
    eexists. split; [reflexivity|].
    destruct Hsel as [[Hmm _]|[_ Hnf]]; [discriminate Hmm|exact Hnf].
Defined.

(** C1, as stated, fails: the first-registered middleware runs first (it is
    the outermost), not the last-registered one; and a not-found handler
    selected when no route matches is not wrapped at all. *)
Lemma middleware_first_registered_outermost :
  exists re,
    Reference.compile "/x" regexpTypePath Reference.noOptions = Return re
    /\ let mws := [Reference.logging "first"; Reference.logging "second"] in
       let req := Reference.request "GET" "example.com" "/x" "" in
       let r := Reference.router mws [Reference.anyMethod re] None None in
       let r404 := Reference.router mws [] (Some (Reference.appHandler "custom 404")) None in
       (Reference.dispatch r req).1 = true
       /\ Reference.served_body (match_Handler (Reference.dispatch r req).2) req
          = ["first"; "second"; "app"]
       /\ Reference.served_body
            (chainLastOutermost mws (Some (Reference.appHandler "app"))) req
          = ["second"; "first"; "app"]
       /\ (Reference.dispatch r404 req).1 = true
       /\ Reference.served_body (match_Handler (Reference.dispatch r404 req).2) req
          = ["custom 404"].
Proof.
  exists_compiled. repeat split; reflexivity.
Qed.
(** C2 (as the code has it): when no route matches, a recorded method
    mismatch selects the method-not-allowed handler if one is configured and
    keeps the failure kind MethodMismatch; with a method mismatch recorded
    and no method-not-allowed handler, no handler is selected and the
    failure kind stays MethodMismatch, whatever not-found handler there
    is; without a recorded method mismatch the not-found handler, if
    configured, is used and NotFound recorded; otherwise NotFound is
    recorded with no handler selected.  A request whose path matches a route
    but whose method does not, with both handlers configured, resolves to
    the method-not-allowed handler. *)
Theorem Router_Match_failure_handlers :
  (forall (L : RegexpLib) (G : GoStd) (T : HTTPTypes) (C : Collaborators)
          (r : Router) (req : Request) (m m1 : RouteMatch),
      Router_Match_routes r (routes r) req m = inr m1 ->
      (MatchErr m1 = Some ErrMethodMismatch ->
       (forall h, MethodNotAllowedHandler r = Some h ->
                  exists m', Router_Match r req m = (true, m')
                             /\ match_Handler m' = Some h
                             /\ MatchErr m' = Some ErrMethodMismatch)
       /\ (MethodNotAllowedHandler r = None ->
           exists m', Router_Match r req m = (false, m')
                      /\ match_Handler m' = match_Handler m1
                      /\ MatchErr m' = Some ErrMethodMismatch))
      /\ (MatchErr m1 <> Some ErrMethodMismatch ->
          (forall h, NotFoundHandler r = Some h ->
                     exists m', Router_Match r req m = (true, m')
                                /\ match_Handler m' = Some h
                                /\ MatchErr m' = Some ErrNotFound)
          /\ (NotFoundHandler r = None ->
              exists m', Router_Match r req m = (false, m')
                         /\ match_Handler m' = match_Handler m1
                         /\ MatchErr m' = Some ErrNotFound)))
  /\ (exists re,
         Reference.compile "/x" regexpTypePath Reference.noOptions = Return re
         /\ let r := Reference.router [] [Reference.getOnly re]
                       (Some (Reference.appHandler "custom 404"))
                       (Some (Reference.appHandler "custom 405")) in
            let req := Reference.request "POST" "example.com" "/x" "" in
            exists m', Reference.dispatch r req = (true, m')
                       /\ match_Handler m' = Some (Reference.appHandler "custom 405")
                       /\ MatchErr m' = Some ErrMethodMismatch).
Proof.
  split.
  - intros L G T C r req m m1 Hr.
    destruct (Router_Match_no_route r req m m1 Hr) as [Hmm Hnf]. split.
    + intros He. destruct (Hmm He) as [Hsome Hnone]. split.
      * intros h Hh. eexists. split; [apply (Hsome h Hh)|]. split; [reflexivity|exact He].
      * intros Hh. eexists. split; [apply (Hnone Hh)|]. split; [reflexivity|exact He].
    + intros He. destruct (Hnf He) as [Hsome Hnone]. split.
      * intros h Hh. eexists. split; [apply (Hsome h Hh)|]. split; reflexivity.
      * intros Hh. eexists. split; [apply (Hnone Hh)|]. split; reflexivity.
  - exists_compiled. intros r req. eexists. split; [reflexivity|]. split; reflexivity.
Qed.

Lemma Router_Match_failure_handlers_witness :
  exists re,
    Reference.compile "/x" regexpTypePath Reference.noOptions = Return re
    /\ let post := Reference.request "POST" "example.com" "/x" "" in
       let other := Reference.request "GET" "example.com" "/y" "" in
       let h404 := Reference.appHandler "custom 404" in
       let h405 := Reference.appHandler "custom 405" in
       (exists m', Reference.dispatch
                     (Reference.router [] [Reference.getOnly re] (Some h404) (Some h405)) post
                   = (true, m')
                   /\ match_Handler m' = Some h405 /\ MatchErr m' = Some ErrMethodMismatch)
       /\ (exists m', Reference.dispatch
                        (Reference.router [] [Reference.getOnly re] (Some h404) None) post
                      = (false, m')
                      /\ match_Handler m' = None /\ MatchErr m' = Some ErrMethodMismatch)
       /\ (exists m', Reference.dispatch
                        (Reference.router [] [Reference.getOnly re] (Some h404) (Some h405)) other
                      = (true, m')
                      /\ match_Handler m' = Some h404 /\ MatchErr m' = Some ErrNotFound)
       /\ (exists m', Reference.dispatch
                        (Reference.router [] [Reference.getOnly re] None (Some h405)) other
                      = (false, m')
                      /\ match_Handler m' = None /\ MatchErr m' = Some ErrNotFound).
Proof.
  exists_compiled. intros post other h404 h405.
  pose proof (proj1 Router_Match_failure_handlers RefRegexp.lib Reference.std
                Reference.types Reference.collaborators) as Hthm.
  split; [|split; [|split]];
    match goal with
    | |- exists m', Reference.dispatch ?r ?req = _ /\ _ =>
        pose proof (Hthm r req emptyMatch _ eq_refl) as [Hmm Hnf]
    end.
  - apply (proj1 (Hmm eq_refl) h405 eq_refl).
  - apply (proj2 (Hmm eq_refl) eq_refl).
  - refine (proj1 (Hnf _) h404 eq_refl). discriminate.
  - refine (proj2 (Hnf _) eq_refl). discriminate.
Defined.

(** C2, as stated, fails: with a method mismatch recorded, no
    method-not-allowed handler and a not-found handler configured, the
    not-found handler is not used and the failure kind is not NotFound. *)
Lemma method_mismatch_ignores_not_found_handler :
  exists re,
    Reference.compile "/x" regexpTypePath Reference.noOptions = Return re
    /\ let r := Reference.router [] [Reference.getOnly re]
                  (Some (Reference.appHandler "custom 404")) None in
       let req := Reference.request "POST" "example.com" "/x" "" in
       let r0 := Reference.router [] [] (Some (Reference.appHandler "custom 404")) None in
       NotFoundHandler r = Some (Reference.appHandler "custom 404")
       /\ (Reference.dispatch r req).1 = false
       /\ match_Handler (Reference.dispatch r req).2 = None
       /\ MatchErr (Reference.dispatch r req).2 = Some ErrMethodMismatch
       /\ Reference.dispatchAfterMismatch r0 req
          = (false, set_MatchErr emptyMatch (Some ErrMethodMismatch)).
Proof.
  exists_compiled. repeat split; reflexivity.
Qed.
(** ** Request context *)

Section ContextFacts.
Context `{RegexpLib} `{GoStd} `{HTTPTypes}.

Lemma requestWithVars_empty (req : Request) (vars : option (gmap string string)) :
  lenVars vars = 0 -> requestWithVars req vars = req.
Proof. intros Hz. unfold requestWithVars. rewrite decide_True by exact Hz. reflexivity. Qed.

Lemma Vars_requestWithVars (req : Request) (vars : option (gmap string string)) :
  Vars (requestWithVars req vars) = if decide (lenVars vars = 0) then Vars req else vars.
Proof. unfold requestWithVars. destruct (decide (lenVars vars = 0)); reflexivity. Qed.

Lemma Vars_requestWithRouteAndVars (req : Request) (route : option Route)
    (vars : option (gmap string string)) :
  Vars (requestWithRouteAndVars req route vars)
  = if decide (lenVars vars = 0) then Vars req else vars.
Proof.
  unfold requestWithRouteAndVars.
  destruct (decide (lenVars vars = 0)) as [Hz|Hnz].
  - rewrite decide_False by lia. reflexivity.
  - rewrite decide_True by lia. reflexivity.
Qed.

Lemma Vars_requestWithRouter (req : Request) (router : Router) :
  Vars (requestWithRouter req router) = Vars req.
Proof. reflexivity. Qed.

Lemma lenVars_pos (vars : option (gmap string string)) :
  0 < lenVars vars -> vars <> None.
Proof. destruct vars; simpl; [congruence|lia]. Qed.

End ContextFacts.

(** C10 (as the code has it): attaching an empty or nil variable map leaves
    the request as it is, so a request that arrived without variables in its
    context still yields nil from [Vars], not an empty map; on such a request
    [Vars] is non-nil exactly when at least one variable was attached; and
    the request [ServeHTTP] hands to the handler of a matched route, when the
    request arrived without variables, carries the variables of the match
    exactly when there is at least one. *)
Theorem Vars_nil_without_variables :
  (forall (L : RegexpLib) (G : GoStd) (T : HTTPTypes) (req : Request)
          (vars : option (gmap string string)) (route : option Route),
      (lenVars vars = 0 ->
       requestWithVars req vars = req
       /\ Vars (requestWithRouteAndVars req route vars) = Vars req)
      /\ (0 < lenVars vars ->
          Vars (requestWithVars req vars) = vars
          /\ Vars (requestWithRouteAndVars req route vars) = vars)
      /\ (Vars req = None ->
          Vars (requestWithVars req (Some ∅)) = None
          /\ Vars (requestWithVars req None) = None
          /\ (Vars (requestWithVars req vars) <> None <-> 0 < lenVars vars)
          /\ (Vars (requestWithRouteAndVars req route vars) <> None <-> 0 < lenVars vars)))
  /\ (forall (L : RegexpLib) (G : GoStd) (T : HTTPTypes) (C : Collaborators)
             (r : Router) (req req' : Request) (h : Handler) (m : RouteMatch),
         Vars req = None ->
         Router_Match r req emptyMatch = (true, m) ->
         match_Handler m = Some h ->
         ServeHTTP_resolve r req = ServedBy h req' ->
         (Vars req' <> None <-> 0 < lenVars (match_Vars m))
         /\ (0 < lenVars (match_Vars m) -> Vars req' = match_Vars m)).
Proof.
  split.
  - intros L G T req vars route. split; [|split].
    + intros Hz. split; [apply requestWithVars_empty; exact Hz|].
      rewrite Vars_requestWithRouteAndVars, decide_True by exact Hz. reflexivity.
    + intros Hpos. rewrite Vars_requestWithVars, Vars_requestWithRouteAndVars.
      rewrite !decide_False by lia. split; reflexivity.
    + intros Hfresh. rewrite !Vars_requestWithVars, Vars_requestWithRouteAndVars.
      split; [exact Hfresh|]. split; [exact Hfresh|].
      destruct (decide (lenVars vars = 0)) as [Hz|Hnz].
      * rewrite Hfresh. split; (split; [congruence|lia]).
      * assert (Hpos : 0 < lenVars vars) by lia.
        split; (split; [intros _; exact Hpos|intros _; apply lenVars_pos; exact Hpos]).
  - intros L G T C r req req' h m Hfresh Hmatch Hh Hres.
    unfold ServeHTTP_resolve in Hres.
    destruct (negb (skipClean (router_conf r))) eqn:Hclean.
    + destruct (decide (cleanPath _ <> _)); [discriminate|].
      rewrite Hmatch, Hh in Hres. simpl in Hres.
      assert (Hreq : Vars req' = if decide (lenVars (match_Vars m) = 0) then Vars req
                                 else match_Vars m).
      { inversion Hres; subst req'.
        destruct (omitRouteFromContext (router_conf r)),
                 (negb (omitRouterFromContext (router_conf r)));
          rewrite ?Vars_requestWithRouter, ?Vars_requestWithVars,
                  ?Vars_requestWithRouteAndVars; reflexivity. }
      rewrite Hreq. destruct (decide (lenVars (match_Vars m) = 0)) as [Hz|Hnz].
      * rewrite Hfresh. split; [split; [congruence|lia]|lia].
      * split; [|reflexivity].
        split; [lia|intros Hpos; apply lenVars_pos; exact Hpos].
    + rewrite Hmatch, Hh in Hres. simpl in Hres.
      assert (Hreq : Vars req' = if decide (lenVars (match_Vars m) = 0) then Vars req
                                 else match_Vars m).
      { inversion Hres; subst req'.
        destruct (omitRouteFromContext (router_conf r)),
                 (negb (omitRouterFromContext (router_conf r)));
          rewrite ?Vars_requestWithRouter, ?Vars_requestWithVars,
                  ?Vars_requestWithRouteAndVars; reflexivity. }
      rewrite Hreq. destruct (decide (lenVars (match_Vars m) = 0)) as [Hz|Hnz].
      * rewrite Hfresh. split; [split; [congruence|lia]|lia].
      * split; [|reflexivity].
        split; [lia|intros Hpos; apply lenVars_pos; exact Hpos].
Qed.
Lemma Vars_nil_without_variables_witness :
  (let req := Reference.request "GET" "example.com" "/x" "" in
   requestWithVars req (Some ∅) = req
   /\ Reference.varsOf (requestWithVars req (Some ∅)) = None
   /\ Reference.varsOf (requestWithVars req (Some {["id" := "7"]})) = Some {["id" := "7"]})
  /\ (exists re,
         Reference.compile "/users/{id}" regexpTypePath Reference.noOptions = Return re
         /\ let r := Reference.router [] [Reference.anyMethod re] None None in
            let req := Reference.request "GET" "example.com" "/users/7" "" in
            exists h req',
              Reference.resolve r req = ServedBy h req'
              /\ Reference.varsOf req' <> None
              /\ default ∅ (Reference.varsOf req') !! "id" = Some "7")
  /\ (exists re,
         Reference.compile "/x" regexpTypePath Reference.noOptions = Return re
         /\ let r := Reference.router [] [Reference.anyMethod re] None None in
            let req := Reference.request "GET" "example.com" "/x" "" in
            exists h req',
              Reference.resolve r req = ServedBy h req'
              /\ Reference.varsOf req' = None).
Proof.
  split; [|split].
  - intros req.
    pose proof (proj1 Vars_nil_without_variables RefRegexp.lib Reference.std Reference.types
                  req) as Hthm.
    split; [|split].
    + apply (proj1 (Hthm (Some ∅) None)). reflexivity.
    + apply (proj2 (proj2 (Hthm (Some ∅) None))). reflexivity.
    + apply (proj1 (proj2 (Hthm (Some {["id" := "7"]}) None))). vm_compute. lia.
  - exists_compiled. intros r req.
    pose proof (proj2 Vars_nil_without_variables RefRegexp.lib Reference.std Reference.types
                  Reference.collaborators r req) as Hthm.
    eexists. eexists. split; [reflexivity|].
    match goal with
    | |- Reference.varsOf ?req' <> None /\ _ =>
        destruct (Hthm req' _ _ eq_refl eq_refl eq_refl eq_refl) as [Hiff Heq]
    end.
    assert (Hpos : 0 < lenVars (match_Vars (Reference.dispatch r req).2))
      by (vm_compute; lia).
    split; [apply Hiff; exact Hpos|].
    unfold Reference.varsOf. rewrite (Heq Hpos). vm_compute. reflexivity.
  - exists_compiled. intros r req.
    pose proof (proj2 Vars_nil_without_variables RefRegexp.lib Reference.std Reference.types
                  Reference.collaborators r req) as Hthm.
    eexists. eexists. split; [reflexivity|].
    match goal with
    | |- Reference.varsOf ?req' = None =>
        destruct (Hthm req' _ _ eq_refl eq_refl eq_refl eq_refl) as [Hiff _]
    end.
    destruct (Reference.varsOf _) eqn:Hv; [|reflexivity].
    exfalso. assert (Hne : Reference.varsOf
      (match Reference.resolve r req with ServedBy _ q => q | _ => req end) <> None).
    { unfold Reference.varsOf in *. simpl in Hv |- *. congruence. }
    apply Hiff in Hne. vm_compute in Hne. lia.
Defined.

(** C10, as stated, fails for a request that already carries variables:
    the request a router hands to the handler of its route [/{section}]
    has that route's variables in its context; when a second router serves
    this request (as it does when it is that handler), its own matched route
    [/docs] extracts no variable, attaching the nil map returns the request
    as it is, and [Vars] on the request handed to the inner handler is the
    outer map, not nil. *)
Lemma Vars_kept_from_outer_router :
  exists outer_re,
    Reference.compile "/{section}" regexpTypePath Reference.noOptions = Return outer_re
    /\ exists inner_re,
         Reference.compile "/docs" regexpTypePath Reference.noOptions = Return inner_re
         /\ let outer := Reference.router [] [Reference.anyMethod outer_re] None None in
            let inner := Reference.router [] [Reference.anyMethod inner_re] None None in
            let req := Reference.request "GET" "example.com" "/docs" "" in
            exists h1 req1 h2 req2,
              Reference.resolve outer req = ServedBy h1 req1
              /\ Reference.resolve inner req1 = ServedBy h2 req2
              /\ (Reference.dispatch inner req1).1 = true
              /\ match_Vars (Reference.dispatch inner req1).2 = None
              /\ requestWithVars req1 (match_Vars (Reference.dispatch inner req1).2) = req1
              /\ Reference.varsOf req1 = Some {["section" := "docs"]}
              /\ Reference.varsOf req2 = Some {["section" := "docs"]}.
Proof.
  exists_compiled. exists_compiled. intros outer inner req.
  match goal with
  | o := Reference.router _ [?ro] _ _, i := Reference.router _ [?ri] _ _ |- _ =>
      match ro with
      | ri => fail 1
      | _ =>
          set (req1 := requestWithRouter
                         (requestWithRouteAndVars req (Some ro)
                            (Some {["section" := "docs"]})) o);
          exists (Reference.appHandler "app" : @Handler Reference.types), req1;
          exists (Reference.appHandler "app" : @Handler Reference.types);
          exists (requestWithRouter (requestWithRouteAndVars req1 (Some ri) None) i)
      end
  end.
  split; [reflexivity|]. split; [reflexivity|]. split; [reflexivity|].
  split; [reflexivity|]. split; [reflexivity|]. split; reflexivity.
Qed.

(** * Further properties *)

(** ** Registration helpers *)

Lemma pairs_ind {A : Type} (P : list A -> Prop) :
  P [] -> (forall x, P [x]) -> (forall x y l, P l -> P (x :: y :: l)) ->
  forall l, P l.
Proof.
  intros Hnil Hone Hstep.
  assert (Hboth : forall l, P l /\ forall x, P (x :: l)).
  { induction l as [|y l [IH1 IH2]]; [split; auto|].
    split; [apply IH2|]. intros x. apply Hstep. exact IH1. }
  intros l. apply Hboth.
Qed.

Lemma uniqueVars_inner_None (v1 : string) (s2 : list string) :
  uniqueVars_inner v1 s2 = None <-> v1 ∉ s2.
Proof.
  induction s2 as [|v2 s2 IH]; simpl.
  - split; [intros _ Hin; inversion Hin|reflexivity].
  - destruct (decide (v1 = v2)) as [->|Hne].
    + split; [discriminate|]. intros Hnot. exfalso. apply Hnot. left.
    + rewrite IH. rewrite not_elem_of_cons. tauto.
Qed.

Lemma uniqueVars_inner_Some (v1 : string) (s2 : list string) (e : helperError) :
  uniqueVars_inner v1 s2 = Some e -> e = ErrDuplicatedRouteVariable v1 /\ v1 ∈ s2.
Proof.
  induction s2 as [|v2 s2 IH]; simpl; [discriminate|].
  destruct (decide (v1 = v2)) as [->|Hne].
  - intros He. inversion He. split; [reflexivity|left].
  - intros He. destruct (IH He) as [-> Hin]. split; [reflexivity|right; exact Hin].
Qed.

(** X1: [uniqueVars] returns no error exactly when the two slices share no
    string; the error it returns names the first string of the first slice
    that also occurs in the second. *)
Theorem uniqueVars_disjoint (s1 s2 : list string) :
  (uniqueVars s1 s2 = None <-> forall v, v ∈ s1 -> v ∉ s2)
  /\ (forall e, uniqueVars s1 s2 = Some e ->
                exists v pre post,
                  e = ErrDuplicatedRouteVariable v /\ s1 = pre ++ v :: post
                  /\ v ∈ s2 /\ forall u, u ∈ pre -> u ∉ s2).
Proof.
  induction s1 as [|v1 s1 [IHn IHs]]; simpl.
  - split; [|discriminate]. split; [intros _ v Hin; inversion Hin|reflexivity].
  - destruct (uniqueVars_inner v1 s2) as [e|] eqn:Hin.
    + apply uniqueVars_inner_Some in Hin as [-> Hin]. split.
      * split; [discriminate|]. intros Hdis. exfalso. apply (Hdis v1); [left|exact Hin].
      * intros e He. inversion He; subst e. exists v1, [], s1.
        split; [reflexivity|]. split; [reflexivity|]. split; [exact Hin|].
        intros u Hu. inversion Hu.
    + apply uniqueVars_inner_None in Hin. split.
      * rewrite IHn. split.
        -- intros Hdis v Hv. apply elem_of_cons in Hv as [->|Hv]; [exact Hin|auto].
        -- intros Hdis v Hv. apply Hdis. right. exact Hv.
      * intros e He. destruct (IHs e He) as (v & pre & post & -> & -> & Hv2 & Hpre).
        exists v, (v1 :: pre), post. split; [reflexivity|]. split; [reflexivity|].
        split; [exact Hv2|].
        intros u Hu. apply elem_of_cons in Hu as [->|Hu]; [exact Hin|auto].
Qed.

Lemma uniqueVars_disjoint_witness :
  uniqueVars ["a"; "b"] ["c"; "d"] = None
  /\ exists v pre post,
       ErrDuplicatedRouteVariable "id" = ErrDuplicatedRouteVariable v
       /\ ["host"; "id"; "x"] = pre ++ v :: post /\ v ∈ ["x"; "id"]
       /\ forall u, u ∈ pre -> u ∉ ["x"; "id"].
Proof.
  split.
  - apply (proj1 (uniqueVars_disjoint ["a"; "b"] ["c"; "d"])).
    intros v Hv Hc. apply list_elem_of_In in Hv, Hc. simpl in Hv, Hc.
    destruct Hv as [<-|[<-|[]]]; destruct Hc as [Hc|[Hc|[]]]; discriminate Hc.
  - apply (proj2 (uniqueVars_disjoint ["host"; "id"; "x"] ["x"; "id"])). reflexivity.
Defined.

Lemma pairsToString_loop_absent (k : string) :
  forall (pairs : list string) (m0 : gmap string string),
    (forall i, pairs !! (2 * i) <> Some k) ->
    pairsToString_loop pairs m0 !! k = m0 !! k.
Proof.
  induction pairs as [|x|x y l IH] using pairs_ind; intros m0 Habs; try reflexivity.
  simpl. rewrite IH.
  - apply lookup_insert_ne. intros ->. apply (Habs 0). reflexivity.
  - intros i Hi. apply (Habs (S i)). replace (2 * S i) with (S (S (2 * i))) by lia. exact Hi.
Qed.

Lemma pairsToString_loop_last (k v : string) :
  forall (pairs : list string) (m0 : gmap string string) (i : nat),
    pairs !! (2 * i) = Some k ->
    pairs !! (2 * i + 1) = Some v ->
    (forall j, i < j -> pairs !! (2 * j) <> Some k) ->
    pairsToString_loop pairs m0 !! k = Some v.
Proof.
  induction pairs as [|x|x y l IH] using pairs_ind; intros m0 i Hk Hv Hlast.
  - discriminate Hk.
  - destruct i; simpl in Hv; [discriminate Hv|].
    replace (2 * S i) with (S (S (2 * i))) in Hk by lia. discriminate Hk.
  - destruct i as [|i].
    + simpl in Hk, Hv. inversion Hk; subst x. inversion Hv; subst y. simpl.
      rewrite pairsToString_loop_absent; [apply lookup_insert_eq|].
      intros j Hj. apply (Hlast (S j)); [lia|].
      replace (2 * S j) with (S (S (2 * j))) by lia. exact Hj.
    + simpl. apply (IH _ i).
      * replace (2 * S i) with (S (S (2 * i))) in Hk by lia. exact Hk.
      * replace (2 * S i + 1) with (S (S (2 * i + 1))) in Hv by lia. exact Hv.
      * intros j Hj Hc. apply (Hlast (S j)); [lia|].
        replace (2 * S j) with (S (S (2 * j))) by lia. exact Hc.
Qed.

(** X2: [mapFromPairsToString] rejects a slice of odd length with an error
    that carries the slice; for an even length it returns the map in which
    every key (the strings at even positions) is bound to the value that
    follows its last occurrence, and nothing else is bound. *)
Theorem mapFromPairsToString_last_wins (pairs : list string) :
  (length pairs mod 2 <> 0 ->
   mapFromPairsToString pairs = inl (ErrOddParameters pairs))
  /\ (length pairs mod 2 = 0 ->
      exists m,
        mapFromPairsToString pairs = inr m
        /\ (forall i k v,
               pairs !! (2 * i) = Some k -> pairs !! (2 * i + 1) = Some v ->
               (forall j, i < j -> pairs !! (2 * j) <> Some k) ->
               m !! k = Some v)
        /\ (forall k, (forall i, pairs !! (2 * i) <> Some k) -> m !! k = None)).
Proof.
  unfold mapFromPairsToString, checkPairs. split.
  - intros Hodd. rewrite decide_True by exact Hodd. reflexivity.
  - intros Heven. rewrite decide_False by (intros Hc; apply Hc; exact Heven).
    eexists. split; [reflexivity|]. split.
    + intros i k v Hk Hv Hlast. apply (pairsToString_loop_last k v pairs ∅ i Hk Hv Hlast).
    + intros k Habs. rewrite (pairsToString_loop_absent k pairs ∅ Habs). apply lookup_empty.
Qed.

Lemma mapFromPairsToString_last_wins_witness :
  mapFromPairsToString ["a"; "1"; "b"] = inl (ErrOddParameters ["a"; "1"; "b"])
  /\ exists m, mapFromPairsToString ["a"; "1"; "b"; "2"; "a"; "3"] = inr m
               /\ m !! "a" = Some "3" /\ m !! "b" = Some "2" /\ m !! "c" = None.
Proof.
  split.
  - apply (proj1 (mapFromPairsToString_last_wins ["a"; "1"; "b"])). vm_compute. discriminate.
  - destruct (proj2 (mapFromPairsToString_last_wins ["a"; "1"; "b"; "2"; "a"; "3"]) eq_refl)
      as (m & Hm & Hlast & Habs).
    exists m. split; [exact Hm|]. split; [|split].
    + apply (Hlast 2 "a" "3"); [reflexivity|reflexivity|].
      intros j Hj Hc. apply lookup_lt_Some in Hc. simpl in Hc. lia.
    + apply (Hlast 1 "b" "2"); [reflexivity|reflexivity|].
      intros [|[|[|j]]] Hj Hc; try lia; [discriminate Hc|].
      apply lookup_lt_Some in Hc. simpl in Hc. lia.
    + apply Habs. intros [|[|[|i]]] Hc; try discriminate Hc.
      apply lookup_lt_Some in Hc. simpl in Hc. lia.
Defined.

Section PairsToRegexFacts.
Context `{RegexpLib}.

Lemma pairsToRegex_loop_error :
  forall (pairs : list string) (m0 : gmap string Regexp) (i : nat) (v err : string),
    pairs !! (2 * i + 1) = Some v ->
    RegexpCompileFunc v = inr err ->
    (forall j v', j < i -> pairs !! (2 * j + 1) = Some v' ->
                  exists re, RegexpCompileFunc v' = inl re) ->
    pairsToRegex_loop pairs m0 = inl (ErrPairRegexp err).
Proof.
  induction pairs as [|x|x y l IH] using pairs_ind; intros m0 i v err Hv Herr Hprev.
  - discriminate Hv.
  - destruct i; discriminate Hv.
  - destruct i as [|i]; simpl.
    + simpl in Hv. inversion Hv; subst y. rewrite Herr. reflexivity.
    + destruct (Hprev 0 y) as [re ->]; [lia|reflexivity|].
      apply (IH _ i v err).
      * replace (2 * S i + 1) with (S (S (2 * i + 1))) in Hv by lia. exact Hv.
      * exact Herr.
      * intros j v' Hj Hv'. apply (Hprev (S j) v'); [lia|].
        replace (2 * S j + 1) with (S (S (2 * j + 1))) by lia. exact Hv'.
Qed.

Lemma pairsToRegex_loop_ok :
  forall (pairs : list string) (m0 : gmap string Regexp),
    (forall i v, pairs !! (2 * i + 1) = Some v -> exists re, RegexpCompileFunc v = inl re) ->
    exists m,
      pairsToRegex_loop pairs m0 = inr m
      /\ (forall i k v re,
             pairs !! (2 * i) = Some k -> pairs !! (2 * i + 1) = Some v ->
             (forall j, i < j -> pairs !! (2 * j) <> Some k) ->
             RegexpCompileFunc v = inl re ->
             m !! k = Some re)
      /\ (forall k, (forall i, pairs !! (2 * i) <> Some k) -> m !! k = m0 !! k).
Proof.
  induction pairs as [|x|x y l IH] using pairs_ind; intros m0 Hall.
  - exists m0. split; [reflexivity|]. split; [|reflexivity].
    intros i k v re Hk. discriminate Hk.
  - exists m0. split; [reflexivity|]. split; [|reflexivity].
    intros i k v re Hk Hv. destruct i; discriminate Hv.
  - destruct (Hall 0 y eq_refl) as [rey Hy]. cbn [pairsToRegex_loop]. rewrite Hy.
    destruct (IH (<[x := rey]> m0)) as (m & Hm & Hlast & Habs).
    { intros i v Hv. apply (Hall (S i) v).
      replace (2 * S i + 1) with (S (S (2 * i + 1))) by lia. exact Hv. }
    exists m. split; [exact Hm|]. split.
    + intros i k v re Hk Hv Hl Hre. destruct i as [|i].
      * assert (x = k) as -> by (simpl in Hk; congruence).
        assert (y = v) as -> by (simpl in Hv; congruence).
        rewrite Habs.
        -- rewrite lookup_insert_eq. congruence.
        -- intros j Hj. apply (Hl (S j)); [lia|].
           replace (2 * S j) with (S (S (2 * j))) by lia. exact Hj.
      * apply (Hlast i k v re).
        -- replace (2 * S i) with (S (S (2 * i))) in Hk by lia. exact Hk.
        -- replace (2 * S i + 1) with (S (S (2 * i + 1))) in Hv by lia. exact Hv.
        -- intros j Hj Hc. apply (Hl (S j)); [lia|].
           replace (2 * S j) with (S (S (2 * j))) by lia. exact Hc.
        -- exact Hre.
    + intros k Hk. rewrite Habs.
      * apply lookup_insert_ne. intros ->. apply (Hk 0). reflexivity.
      * intros i Hi. apply (Hk (S i)).
        replace (2 * S i) with (S (S (2 * i))) by lia. exact Hi.
Qed.

End PairsToRegexFacts.

(** X3: [mapFromPairsToRegex] rejects a slice of odd length before it
    compiles anything; for an even length it returns the error of the first
    value (in slice order) that does not compile, and when every value
    compiles, the map that binds each key to the compiled value that follows
    its last occurrence and binds nothing else. *)
Theorem mapFromPairsToRegex_outcomes :
  forall (L : RegexpLib) (pairs : list string),
    (length pairs mod 2 <> 0 ->
     mapFromPairsToRegex pairs = inl (ErrOddParameters pairs))
    /\ (length pairs mod 2 = 0 ->
        (forall (i : nat) (v err : string),
            pairs !! (2 * i + 1) = Some v ->
            RegexpCompileFunc v = inr err ->
            (forall j v', j < i -> pairs !! (2 * j + 1) = Some v' ->
                          exists re, RegexpCompileFunc v' = inl re) ->
            mapFromPairsToRegex pairs = inl (ErrPairRegexp err))
        /\ ((forall i v, pairs !! (2 * i + 1) = Some v ->
                         exists re, RegexpCompileFunc v = inl re) ->
            exists m,
              mapFromPairsToRegex pairs = inr m
              /\ (forall i k v re,
                     pairs !! (2 * i) = Some k -> pairs !! (2 * i + 1) = Some v ->
                     (forall j, i < j -> pairs !! (2 * j) <> Some k) ->
                     RegexpCompileFunc v = inl re ->
                     m !! k = Some re)
              /\ (forall k, (forall i, pairs !! (2 * i) <> Some k) -> m !! k = None))).
Proof.
  intros L pairs. unfold mapFromPairsToRegex, checkPairs. split.
  - intros Hodd. rewrite decide_True by exact Hodd. reflexivity.
  - intros Heven. rewrite decide_False by (intros Hc; apply Hc; exact Heven). split.
    + intros i v err Hv Herr Hprev.
      apply (pairsToRegex_loop_error pairs ∅ i v err Hv Herr Hprev).
    + intros Hall. destruct (pairsToRegex_loop_ok pairs ∅ Hall) as (m & Hm & Hlast & Habs).
      exists m. split; [exact Hm|]. split; [exact Hlast|].
      intros k Hk. rewrite (Habs k Hk). apply lookup_empty.
Qed.

Lemma mapFromPairsToRegex_outcomes_witness :
  @mapFromPairsToRegex RefRegexp.lib ["a"] = inl (ErrOddParameters ["a"])
  /\ @mapFromPairsToRegex RefRegexp.lib ["a"; "x+"; "b"; "y("; "c"; "z"]
     = inl (ErrPairRegexp "error parsing regexp: y(")
  /\ exists m re,
       @mapFromPairsToRegex RefRegexp.lib ["a"; "y"; "a"; "x+"] = inr m
       /\ m !! "a" = Some re /\ RefRegexp.Match re "xx" = true /\ m !! "b" = None.
Proof.
  split; [|split].
  - apply (proj1 (mapFromPairsToRegex_outcomes RefRegexp.lib ["a"])). vm_compute. discriminate.
  - apply (proj1 (proj2 (mapFromPairsToRegex_outcomes RefRegexp.lib
                           ["a"; "x+"; "b"; "y("; "c"; "z"]) eq_refl) 1 "y(").
    + reflexivity.
    + reflexivity.
    + intros [|j] v' Hj Hv'; [|lia]. inversion Hv'; subst v'. eexists. reflexivity.
  - destruct (proj2 (proj2 (mapFromPairsToRegex_outcomes RefRegexp.lib
                              ["a"; "y"; "a"; "x+"]) eq_refl))
      as (m & Hm & Hlast & Habs).
    + intros [|[|i]] v Hv.
      * inversion Hv; subst v. eexists. reflexivity.
      * inversion Hv; subst v. eexists. reflexivity.
      * apply lookup_lt_Some in Hv. simpl in Hv. lia.
    + let c := eval vm_compute in (RefRegexp.Compile "x+") in
      match c with
      | inl ?re => exists m, re
      end.
      split; [exact Hm|]. split; [|split].
      * apply (Hlast 1 "a" "x+"); [reflexivity|reflexivity| |reflexivity].
        intros j Hj Hc. apply lookup_lt_Some in Hc. simpl in Hc. lia.
      * reflexivity.
      * apply Habs. intros [|[|i]] Hc; try discriminate Hc.
        apply lookup_lt_Some in Hc. simpl in Hc. lia.
Defined.

(** ** Header and query map matchers *)

Section MapMatcherFacts.
Context `{RegexpLib} `{HeaderLib}.

Lemma matchMapWithString_iff (toCheck : gmap string string)
    (toMatch : gmap string (list string)) (canonicalKey : bool) :
  matchMapWithString toCheck toMatch canonicalKey = true <->
  forall k v,
    toCheck !! k = Some v ->
    exists values,
      toMatch !! (if canonicalKey then http_CanonicalHeaderKey k else k) = Some values
      /\ (v = EmptyString \/ v ∈ values).
Proof.
  unfold matchMapWithString. rewrite forallb_forall. split.
  - intros Hall k v Hkv.
    assert (Hin : In (k, v) (map_to_list toCheck)).
    { apply list_elem_of_In, elem_of_map_to_list. exact Hkv. }
    specialize (Hall _ Hin). cbv beta iota zeta in Hall.
    destruct (toMatch !! _) as [values|]; [|discriminate].
    exists values. split; [reflexivity|].
    destruct (decide (v <> EmptyString)) as [Hne|Heq].
    + right. apply existsb_exists in Hall as (value & Hin' & Hv).
      apply bool_decide_eq_true in Hv. subst value. apply list_elem_of_In. exact Hin'.
    + left. destruct (decide (v = EmptyString)); [assumption|contradiction].
  - intros Hall [k v] Hin.
    apply list_elem_of_In, elem_of_map_to_list in Hin.
    destruct (Hall k v Hin) as (values & -> & Hv).
    destruct (decide (v <> EmptyString)) as [Hne|Heq]; [|reflexivity].
    destruct Hv as [->|Hv]; [contradiction|].
    apply existsb_exists. exists v. split; [apply list_elem_of_In; exact Hv|].
    apply bool_decide_eq_true. reflexivity.
Qed.

Lemma matchMapWithRegex_iff (toCheck : gmap string (option Regexp))
    (toMatch : gmap string (list string)) (canonicalKey : bool) :
  matchMapWithRegex toCheck toMatch canonicalKey = true <->
  forall k v,
    toCheck !! k = Some v ->
    exists values,
      toMatch !! (if canonicalKey then http_CanonicalHeaderKey k else k) = Some values
      /\ (forall re, v = Some re ->
                     exists value, value ∈ values /\ MatchString re value = true).
Proof.
  unfold matchMapWithRegex. rewrite forallb_forall. split.
  - intros Hall k v Hkv.
    assert (Hin : In (k, v) (map_to_list toCheck)).
    { apply list_elem_of_In, elem_of_map_to_list. exact Hkv. }
    specialize (Hall _ Hin). cbv beta iota zeta in Hall.
    destruct (toMatch !! _) as [values|]; [|discriminate].
    exists values. split; [reflexivity|].
    intros re ->. apply existsb_exists in Hall as (value & Hin' & Hv).
    exists value. split; [apply list_elem_of_In; exact Hin'|exact Hv].
  - intros Hall [k v] Hin.
    apply list_elem_of_In, elem_of_map_to_list in Hin.
    destruct (Hall k v Hin) as (values & -> & Hv).
    destruct v as [re|]; [|reflexivity].
    destruct (Hv re eq_refl) as (value & Hin' & Hm).
    apply existsb_exists. exists value. split; [apply list_elem_of_In; exact Hin'|exact Hm].
Qed.

End MapMatcherFacts.

(** X4: [matchMapWithString] accepts exactly when every key to check, made
    canonical if asked, is bound in the map to match to a non-nil slice
    that holds the expected value, an empty expected value asking for the
    key alone; so a key bound to no value at all satisfies only an empty
    expectation, and an empty map to check always matches. *)
Theorem matchMapWithString_characterised :
  forall (Hd : HeaderLib) (toCheck : gmap string string)
         (toMatch : gmap string (list string)) (canonicalKey : bool),
    (matchMapWithString toCheck toMatch canonicalKey = true <->
     forall k v,
       toCheck !! k = Some v ->
       exists values,
         toMatch !! (if canonicalKey then http_CanonicalHeaderKey k else k) = Some values
         /\ (v = EmptyString \/ v ∈ values))
    /\ matchMapWithString ∅ toMatch canonicalKey = true.
Proof.
  intros Hd toCheck toMatch canonicalKey. split.
  - apply matchMapWithString_iff.
  - apply matchMapWithString_iff. intros k v Hkv. rewrite lookup_empty in Hkv. discriminate.
Qed.

Lemma matchMapWithString_characterised_witness :
  let toCheck : gmap string string :=
    {["content-type" := "application/json"; "x-requested-with" := EmptyString]} in
  let toMatch : gmap string (list string) :=
    {["Content-Type" := ["text/html"; "application/json"]; "X-Requested-With" := []]} in
  ReferenceHeader.matchStrings toCheck toMatch true = true
  /\ (exists values,
         toMatch !! ReferenceHeader.CanonicalHeaderKey "content-type" = Some values
         /\ ("application/json" = EmptyString \/ "application/json" ∈ values))
  /\ ReferenceHeader.matchStrings toCheck toMatch false = false.
Proof.
  intros toCheck toMatch.
  assert (Hm : ReferenceHeader.matchStrings toCheck toMatch true = true)
    by (vm_compute; reflexivity).
  split; [exact Hm|]. split.
  - apply (proj1 (proj1 (matchMapWithString_characterised ReferenceHeader.lib
                           toCheck toMatch true)) Hm "content-type" "application/json").
    vm_compute. reflexivity.
  - vm_compute. reflexivity.
Defined.

(** X5: [matchMapWithRegex] accepts exactly when every key to check, made
    canonical if asked, is bound in the map to match to a non-nil slice of
    which some value is matched by the key's regexp, a nil regexp asking for
    the key alone. *)
Theorem matchMapWithRegex_characterised :
  forall (L : RegexpLib) (Hd : HeaderLib) (toCheck : gmap string (option Regexp))
         (toMatch : gmap string (list string)) (canonicalKey : bool),
    matchMapWithRegex toCheck toMatch canonicalKey = true <->
    forall k v,
      toCheck !! k = Some v ->
      exists values,
        toMatch !! (if canonicalKey then http_CanonicalHeaderKey k else k) = Some values
        /\ (forall re, v = Some re ->
                       exists value, value ∈ values /\ MatchString re value = true).
Proof.
  intros L Hd toCheck toMatch canonicalKey. apply matchMapWithRegex_iff.
Qed.

Lemma matchMapWithRegex_characterised_witness :
  exists re,
    RefRegexp.Compile "json$" = inl re
    /\ let toCheck : gmap string (option RefRegexp.compiled) :=
         {["Accept" := Some re; "X-Any" := None]} in
       let toMatch : gmap string (list string) :=
         {["Accept" := ["text/html"; "application/json"]; "X-Any" := []]} in
       ReferenceHeader.matchRegexps toCheck toMatch false = true
       /\ exists values,
            toMatch !! "Accept" = Some values
            /\ forall re', Some re = Some re' ->
                           exists value, value ∈ values /\ RefRegexp.Match re' value = true.
Proof.
  let c := eval vm_compute in (RefRegexp.Compile "json$") in
  match c with
  | inl ?re => exists re
  end.
  split; [reflexivity|]. intros toCheck toMatch.
  assert (Hm : ReferenceHeader.matchRegexps toCheck toMatch false = true)
    by (vm_compute; reflexivity).
  split; [exact Hm|].
  apply (proj1 (matchMapWithRegex_characterised RefRegexp.lib ReferenceHeader.lib
                  toCheck toMatch false) Hm "Accept").
  vm_compute. reflexivity.
Defined.

(** ** Query lookup and escaping *)

Lemma splitOn_ext_in (f g : ascii -> bool) (s : string) :
  allBytes (fun c => bool_decide (f c = g c)) s = true ->
  splitOn f s = splitOn g s.
Proof.
  induction s as [|c s IH]; simpl; [reflexivity|].
  intros Hall. apply andb_true_iff in Hall as [Hc Hall].
  apply bool_decide_eq_true in Hc. rewrite Hc, (IH Hall). reflexivity.
Qed.

Lemma allBytes_impl (p q : ascii -> bool) (s : string) :
  (forall c, p c = true -> q c = true) ->
  allBytes p s = true -> allBytes q s = true.
Proof.
  intros Hpq. induction s as [|c s IH]; simpl; [reflexivity|].
  intros Hall. apply andb_true_iff in Hall as [Hc Hall].
  rewrite (Hpq _ Hc), (IH Hall). reflexivity.
Qed.

Lemma allBytes_app (p : ascii -> bool) (s t : string) :
  allBytes p (s +:+ t) = allBytes p s && allBytes p t.
Proof.
  induction s as [|c s IH]; [reflexivity|].
  rewrite append_cons. simpl. rewrite IH. apply andb_assoc.
Qed.

(** X6: on a raw query without a semicolon the lookup does not depend on
    [strictQueryParamSep]. *)
Theorem findFirstQueryKey_strict_irrelevant_without_semicolon
    (rawQuery key : string) :
  allBytes (fun c => negb (bool_decide (c = ";"%char))) rawQuery = true ->
  findFirstQueryKey rawQuery key true = findFirstQueryKey rawQuery key false.
Proof.
  intros Hno. rewrite !findFirstQueryKey_spec. unfold findKey_spec, segments.
  rewrite (splitOn_ext_in (isSeparator true) (isSeparator false)); [reflexivity|].
  revert Hno. apply allBytes_impl. intros c Hc.
  apply negb_true_iff, bool_decide_eq_false in Hc.
  apply bool_decide_eq_true. unfold isSeparator.
  rewrite (bool_decide_eq_false_2 (c = ";"%char)) by exact Hc.
  rewrite orb_false_r. reflexivity.
Qed.

Lemma findFirstQueryKey_strict_irrelevant_without_semicolon_witness :
  findFirstQueryKey "a=1&b=2" "b" true = findFirstQueryKey "a=1&b=2" "b" false.
Proof.
  apply findFirstQueryKey_strict_irrelevant_without_semicolon. reflexivity.
Defined.

(** What [QueryEscape] writes for one byte. *)
Lemma QueryEscape_cons (c : ascii) (s : string) :
  QueryEscape (String c s) = QueryEscape (String c EmptyString) +:+ QueryEscape s.
Proof.
  simpl. destruct (decide (c = " "%char)); [reflexivity|].
  destruct (shouldEscape c); reflexivity.
Qed.

Lemma unescape_escaped_byte (c : ascii) (t : string) :
  unescape true (QueryEscape (String c EmptyString) +:+ t) = String c <$> unescape true t.
Proof.
  destruct c as [[] [] [] [] [] [] [] []]; reflexivity.
Qed.

Lemma QueryUnescape_QueryEscape (s : string) : QueryUnescape (QueryEscape s) = Some s.
Proof.
  unfold QueryUnescape. induction s as [|c s IH]; [reflexivity|].
  rewrite QueryEscape_cons, unescape_escaped_byte, IH. reflexivity.
Qed.

(** An escaped string holds none of the bytes the query scan cuts at. *)
Lemma QueryEscape_no_delimiter (s : string) :
  allBytes (fun c => negb (containsByte "&;=" c)) (QueryEscape s) = true.
Proof.
  induction s as [|c s IH]; [reflexivity|].
  rewrite QueryEscape_cons, allBytes_app, IH, andb_true_r.
  destruct c as [[] [] [] [] [] [] [] []]; reflexivity.
Qed.

Lemma splitFirstEq_app (k v : string) :
  allBytes (fun c => negb (bool_decide (c = "="%char))) k = true ->
  splitFirstEq (k +:+ String "="%char v) = (k, v).
Proof.
  induction k as [|c k IH]; intros Hall; [reflexivity|].
  rewrite append_cons. simpl in *.
  apply andb_true_iff in Hall as [Hc Hall].
  apply negb_true_iff, bool_decide_eq_false in Hc.
  destruct (decide (c = "="%char)); [contradiction|].
  rewrite (IH Hall). reflexivity.
Qed.

Lemma QueryEscape_no_eq (s : string) :
  allBytes (fun c => negb (bool_decide (c = "="%char))) (QueryEscape s) = true.
Proof.
  generalize (QueryEscape_no_delimiter s). apply allBytes_impl.
  intros c. destruct c as [[] [] [] [] [] [] [] []]; vm_compute; congruence.
Qed.

Lemma QueryEscape_no_separator (strict : bool) (s : string) :
  allBytes (fun c => negb (isSeparator strict c)) (QueryEscape s) = true.
Proof.
  generalize (QueryEscape_no_delimiter s). apply allBytes_impl.
  intros c. destruct strict; destruct c as [[] [] [] [] [] [] [] []]; vm_compute; congruence.
Qed.

Lemma append_assoc (s t u : string) : (s +:+ t) +:+ u = s +:+ (t +:+ u).
Proof.
  induction s as [|c s IH]; [reflexivity|].
  rewrite !append_cons, IH. reflexivity.
Qed.

(** The segment written for one key/value pair is
    [QueryEscape k +:+ "=" +:+ QueryEscape v]. *)

Lemma decodePair_escapedPair (k v : string) :
  decodePair (QueryEscape k +:+ String "="%char (QueryEscape v)) = Some (k, v).
Proof.
  unfold decodePair.
  rewrite splitFirstEq_app by apply QueryEscape_no_eq.
  rewrite !QueryUnescape_QueryEscape. reflexivity.
Qed.

Lemma escapedPair_nonempty (k v : string) : (QueryEscape k +:+ String "="%char (QueryEscape v)) <> EmptyString.
Proof.
  destruct (QueryEscape k); discriminate.
Qed.

Lemma escapedPair_no_separator (strict : bool) (k v : string) :
  allBytes (fun c => negb (isSeparator strict c)) (QueryEscape k +:+ String "="%char (QueryEscape v)) = true.
Proof.
  rewrite allBytes_app. simpl.
  rewrite !QueryEscape_no_separator. destruct strict; reflexivity.
Qed.

Lemma firstValue_escapedPair (key k v : string) (segs : list string) :
  firstValue key ((QueryEscape k +:+ String "="%char (QueryEscape v)) :: segs)
  = if decide (k = key) then Some v else firstValue key segs.
Proof.
  simpl. rewrite decodePair_escapedPair.
  destruct (decide ((QueryEscape k +:+ String "="%char (QueryEscape v)) = EmptyString)) as [He|]; [|reflexivity].
  destruct (escapedPair_nonempty _ _ He).
Qed.

(** X7: a value written with [QueryEscape] is read back by the lookup: on a
    raw query that starts with the escaped pair of [k] and [v] (alone, or
    followed by ['&'] and anything), looking up [k] gives [v]; and an escaped
    pair of another key in front is skipped. *)
Theorem findFirstQueryKey_reads_escaped_pair (k v : string) (strict : bool) :
  findFirstQueryKey (QueryEscape k +:+ "=" +:+ QueryEscape v) k strict = (v, true)
  /\ (forall rest,
        findFirstQueryKey (QueryEscape k +:+ "=" +:+ QueryEscape v +:+ "&" +:+ rest) k strict
        = (v, true))
  /\ (forall key rest, k <> key ->
        findFirstQueryKey (QueryEscape k +:+ "=" +:+ QueryEscape v +:+ "&" +:+ rest) key strict
        = findFirstQueryKey rest key strict).
Proof.
  assert (Hsep : isSeparator strict "&"%char = true) by (destruct strict; reflexivity).
  assert (Hlast : QueryEscape k +:+ "=" +:+ QueryEscape v = (QueryEscape k +:+ String "="%char (QueryEscape v))) by reflexivity.
  assert (Hmore : forall rest,
             QueryEscape k +:+ "=" +:+ QueryEscape v +:+ "&" +:+ rest
             = (QueryEscape k +:+ String "="%char (QueryEscape v)) +:+ String "&"%char rest).
  { intros rest. rewrite append_assoc. reflexivity. }
  split; [|split].
  - rewrite Hlast, findFirstQueryKey_spec. unfold findKey_spec, segments.
    rewrite splitOn_no_sep by apply escapedPair_no_separator.
    rewrite firstValue_escapedPair. rewrite decide_True by reflexivity. reflexivity.
  - intros rest. rewrite Hmore, findFirstQueryKey_spec. unfold findKey_spec, segments.
    rewrite splitOn_app_sep by (apply escapedPair_no_separator || exact Hsep).
    rewrite firstValue_escapedPair. rewrite decide_True by reflexivity. reflexivity.
  - intros key rest Hne. rewrite Hmore, !findFirstQueryKey_spec.
    unfold findKey_spec, segments.
    rewrite splitOn_app_sep by (apply escapedPair_no_separator || exact Hsep).
    rewrite firstValue_escapedPair. rewrite decide_False by exact Hne. reflexivity.
Qed.

Lemma findFirstQueryKey_reads_escaped_pair_witness :
  findFirstQueryKey "a+b=x%26y&c=d" "c" false = findFirstQueryKey "c=d" "c" false
  /\ findFirstQueryKey "c=d" "c" false = ("d", true).
Proof.
  split.
  - apply (proj2 (proj2 (findFirstQueryKey_reads_escaped_pair "a b" "x&y" false)) "c" "c=d").
    discriminate.
  - apply (proj1 (findFirstQueryKey_reads_escaped_pair "c" "d" false)).
Defined.

(** ** Dispatch order and failure *)

Section DispatchOrder.
Context `{Collaborators}.

Lemma Router_Match_routes_app (r : Router) (req : Request) (pre post : list Route) :
  forall m,
    Router_Match_routes r (pre ++ post) req m
    = match Router_Match_routes r pre req m with
      | inl m' => inl m'
      | inr m1 => Router_Match_routes r post req m1
      end.
Proof.
  induction pre as [|route pre IH]; intros m; [reflexivity|].
  simpl. destruct (Route_Match route req m) as [ok m1].
  destruct ok; [|apply IH].
  destruct (decide (MatchErr m1 = None)); reflexivity.
Qed.

Lemma Router_Match_routes_inr (r : Router) (req : Request) :
  forall (rs : list Route) (m m1 : RouteMatch),
    Router_Match_routes r rs req m = inr m1 ->
    forall route, route ∈ rs -> exists m0 m0', Route_Match route req m0 = (false, m0').
Proof.
  induction rs as [|route0 rs IH]; intros m m1 Hr route Hin.
  - inversion Hin.
  - simpl in Hr. destruct (Route_Match route0 req m) as [ok m2] eqn:Hroute.
    destruct ok; [destruct (decide (MatchErr m2 = None)); discriminate|].
    apply elem_of_cons in Hin as [->|Hin].
    + exists m, m2. exact Hroute.
    + apply (IH _ _ Hr _ Hin).
Qed.

Lemma Router_Match_false (r : Router) (req : Request) (m m' : RouteMatch) :
  Router_Match r req m = (false, m') ->
  (MatchErr m' = Some ErrMethodMismatch /\ MethodNotAllowedHandler r = None)
  \/ (MatchErr m' = Some ErrNotFound /\ NotFoundHandler r = None).
Proof.
  unfold Router_Match. intros Hm.
  destruct (Router_Match_routes r (routes r) req m) as [m1|m1]; [discriminate|].
  destruct (decide (MatchErr m1 = Some ErrMethodMismatch)) as [He|He].
  - destruct (decide (MethodNotAllowedHandler r <> None)) as [|Hn]; [discriminate|].
    inversion Hm; subst m'. left. split; [exact He|].
    destruct (MethodNotAllowedHandler r); [exfalso; apply Hn; discriminate|reflexivity].
  - destruct (decide (NotFoundHandler r <> None)) as [|Hn]; [discriminate|].
    inversion Hm; subst m'. right. split; [reflexivity|].
    destruct (NotFoundHandler r); [exfalso; apply Hn; discriminate|reflexivity].
Qed.

End DispatchOrder.

(** X8: routes are tried in registration order and the first that matches
    decides: when the routes before [route] all fail, leaving the match as
    [m1], and [route] matches, [Router.Match] returns true with the match
    [route] left (its handler wrapped in the middlewares unless a match error
    is set), whatever routes are registered after it; and every route before
    it did return false. *)
Theorem Router_Match_first_match_wins :
  forall (L : RegexpLib) (G : GoStd) (T : HTTPTypes) (C : Collaborators)
         (r : Router) (req : Request) (pre post : list Route) (route : Route)
         (m m1 m2 : RouteMatch),
    routes r = pre ++ route :: post ->
    Router_Match_routes r pre req m = inr m1 ->
    Route_Match route req m1 = (true, m2) ->
    Router_Match r req m
    = (true, if decide (MatchErr m2 = None)
             then set_Handler m2 (buildMiddlewareChain (middlewares r) (match_Handler m2))
             else m2)
    /\ forall earlier, earlier ∈ pre ->
                       exists m0 m0', Route_Match earlier req m0 = (false, m0').
Proof.
  intros L G T C r req pre post route m m1 m2 Hroutes Hpre Hroute. split.
  - unfold Router_Match. rewrite Hroutes, Router_Match_routes_app, Hpre.
    simpl. rewrite Hroute. destruct (decide (MatchErr m2 = None)); reflexivity.
  - apply (Router_Match_routes_inr r req pre m m1 Hpre).
Qed.

Lemma Router_Match_first_match_wins_witness :
  exists re,
    Reference.compile "/x" regexpTypePath Reference.noOptions = Return re
    /\ let first := Reference.pathRoute false re [] (Reference.appHandler "first") in
       let second := Reference.pathRoute false re [] (Reference.appHandler "second") in
       let r := Reference.router [] [Reference.getOnly re; first; second] None None in
       let req := Reference.request "POST" "example.com" "/x" "" in
       exists m', Reference.dispatch r req = (true, m')
                  /\ Reference.served_body (match_Handler m') req = ["first"].
Proof.
  exists_compiled. intros first second r req.
  eexists. split.
  - apply (proj1 (Router_Match_first_match_wins RefRegexp.lib Reference.std Reference.types
                    Reference.collaborators r req [Reference.getOnly _] [second] first
                    emptyMatch _ _ eq_refl eq_refl eq_refl)).
  - reflexivity.
Defined.

(** X9: [Router.Match] returns false only with the failure recorded and its
    fallback handler missing: either a method mismatch with no
    method-not-allowed handler, or not-found with no not-found handler.  A
    router with both handlers set therefore always returns true. *)
Theorem Router_Match_false_only_without_fallback :
  forall (L : RegexpLib) (G : GoStd) (T : HTTPTypes) (C : Collaborators)
         (r : Router) (req : Request) (m : RouteMatch),
    (forall m', Router_Match r req m = (false, m') ->
                (MatchErr m' = Some ErrMethodMismatch /\ MethodNotAllowedHandler r = None)
                \/ (MatchErr m' = Some ErrNotFound /\ NotFoundHandler r = None))
    /\ (MethodNotAllowedHandler r <> None -> NotFoundHandler r <> None ->
        (Router_Match r req m).1 = true).
Proof.
  intros L G T C r req m. split.
  - intros m'. apply Router_Match_false.
  - intros H405 H404. destruct (Router_Match r req m) as [ok m'] eqn:Hm.
    destruct ok; [reflexivity|].
    destruct (Router_Match_false r req m m' Hm) as [[_ Hn]|[_ Hn]]; contradiction.
Qed.

Lemma Router_Match_false_only_without_fallback_witness :
  let r := Reference.router [] [] (Some (Reference.appHandler "custom 404"))
             (Some (Reference.appHandler "custom 405")) in
  let req := Reference.request "GET" "example.com" "/nowhere" "" in
  (Reference.dispatch r req).1 = true.
Proof.
  intros r req.
  apply (proj2 (Router_Match_false_only_without_fallback RefRegexp.lib Reference.std
                  Reference.types Reference.collaborators r req emptyMatch));
    discriminate.
Defined.

(** ** What [ServeHTTP] serves *)

Section ServeFacts.
Context `{Collaborators}.

Lemma ServeHTTP_resolve_routed (r : Router) (req : Request) :
  noCleanRedirect r req ->
  ServeHTTP_resolve r req
  = let '(ok, m) := Router_Match r req emptyMatch in
    let '(handler, req) :=
      if ok then
        let handler := match_Handler m in
        if decide (handler <> None) then
          let req :=
            if omitRouteFromContext (router_conf r)
            then requestWithVars req (match_Vars m)
            else requestWithRouteAndVars req (match_Route m) (match_Vars m) in
          let req :=
            if negb (omitRouterFromContext (router_conf r))
            then requestWithRouter req r else req in
          (handler, req)
        else (handler, req)
      else (None, req) in
    let handler :=
      if decide (handler = None /\ MatchErr m = Some ErrMethodMismatch)
      then Some methodNotAllowedHandler else handler in
    match handler with
    | None => ServedBy http_NotFoundHandler req
    | Some h => ServedBy h req
    end.
Proof.
  intros Hno. unfold ServeHTTP_resolve.
  destruct Hno as [Hskip|Hsame].
  - rewrite Hskip. reflexivity.
  - unfold servedPath in Hsame.
    destruct (negb (skipClean (router_conf r))); [|reflexivity].
    cbv zeta. rewrite decide_False by (intros Hne; apply Hne; exact Hsame).
    reflexivity.
Qed.

Lemma CurrentRoute_requestWithVars (req : Request) (vars : option (gmap string string)) :
  CurrentRoute (requestWithVars req vars) = CurrentRoute req.
Proof. unfold requestWithVars. destruct (decide (lenVars vars = 0)); reflexivity. Qed.

Lemma CurrentRoute_requestWithRouteAndVars (req : Request) (route : option Route)
    (vars : option (gmap string string)) :
  CurrentRoute (requestWithRouteAndVars req route vars) = route.
Proof.
  unfold requestWithRouteAndVars. destruct (decide (0 < lenVars vars)); reflexivity.
Qed.

Lemma CurrentRouter_requestWithVars (req : Request) (vars : option (gmap string string)) :
  CurrentRouter (requestWithVars req vars) = CurrentRouter req.
Proof. unfold requestWithVars. destruct (decide (lenVars vars = 0)); reflexivity. Qed.

Lemma CurrentRouter_requestWithRouteAndVars (req : Request) (route : option Route)
    (vars : option (gmap string string)) :
  CurrentRouter (requestWithRouteAndVars req route vars) = CurrentRouter req.
Proof.
  unfold requestWithRouteAndVars. destruct (decide (0 < lenVars vars)); reflexivity.
Qed.

Lemma CurrentRoute_requestWithRouter (req : Request) (router : Router) :
  CurrentRoute (requestWithRouter req router) = CurrentRoute req.
Proof. reflexivity. Qed.

Lemma requestLine_requestWithVars (req : Request) (vars : option (gmap string string)) :
  Method (requestWithVars req vars) = Method req
  /\ req_URL (requestWithVars req vars) = req_URL req
  /\ Host (requestWithVars req vars) = Host req.
Proof.
  unfold requestWithVars. destruct (decide (lenVars vars = 0)); repeat split.
Qed.

End ServeFacts.

(** X10: past the clean-path check, when [Router.Match] reports no match, or
    a match without a handler, [ServeHTTP] calls a built-in handler with the
    writer and the request it was given, nothing added to the context: the
    405 handler if the match records a method mismatch, [http.NotFoundHandler]
    otherwise. *)
Theorem ServeHTTP_without_handler_serves_default :
  forall (L : RegexpLib) (G : GoStd) (T : HTTPTypes) (C : Collaborators)
         (r : Router) (w : ResponseWriter) (req : Request) (ok : bool) (m : RouteMatch),
    noCleanRedirect r req ->
    Router_Match r req emptyMatch = (ok, m) ->
    ok = false \/ match_Handler m = None ->
    ServeHTTP r w req
    = Handler_ServeHTTP
        (if decide (MatchErr m = Some ErrMethodMismatch)
         then methodNotAllowedHandler else http_NotFoundHandler) w req.
Proof.
  intros L G T C r w req ok m Hno Hm Hnone.
  unfold ServeHTTP. rewrite (ServeHTTP_resolve_routed r req Hno), Hm.
  assert (Hsel : (if ok
                  then if decide (match_Handler m <> None)
                       then (match_Handler m,
                             if negb (omitRouterFromContext (router_conf r))
                             then requestWithRouter
                                    (if omitRouteFromContext (router_conf r)
                                     then requestWithVars req (match_Vars m)
                                     else requestWithRouteAndVars req (match_Route m)
                                            (match_Vars m)) r
                             else if omitRouteFromContext (router_conf r)
                                  then requestWithVars req (match_Vars m)
                                  else requestWithRouteAndVars req (match_Route m)
                                         (match_Vars m))
                       else (match_Handler m, req)
                  else (None, req)) = (None, req)).
  { destruct ok; [|reflexivity].
    destruct Hnone as [|Hnone]; [discriminate|].
    rewrite decide_False by (intros Hne; apply Hne; exact Hnone).
    rewrite Hnone. reflexivity. }
  cbv zeta. rewrite Hsel.
  destruct (decide (MatchErr m = Some ErrMethodMismatch)) as [He|He].
  - rewrite decide_True by (split; [reflexivity|exact He]). reflexivity.
  - rewrite decide_False by (intros [_ Hc]; contradiction). reflexivity.
Qed.

Lemma ServeHTTP_without_handler_serves_default_witness :
  exists re,
    Reference.compile "/x" regexpTypePath Reference.noOptions = Return re
    /\ let r := Reference.router [] [Reference.getOnly re]
                  (Some (Reference.appHandler "custom 404")) None in
       let req := Reference.request "POST" "example.com" "/x" "" in
       rw_status (@ServeHTTP _ _ _ Reference.collaborators r Reference.blank req) = Some 405.
Proof.
  exists_compiled. intros r req.
  rewrite (ServeHTTP_without_handler_serves_default RefRegexp.lib Reference.std
             Reference.types Reference.collaborators r Reference.blank req false
             (Reference.dispatch r req).2).
  - reflexivity.
  - right. reflexivity.
  - reflexivity.
  - left. reflexivity.
Defined.

(** X11: past the clean-path check, when [Router.Match] finds a handler,
    [ServeHTTP] calls it with a request that has the method, URL and host of
    the one received and whose context gives the matched route to
    [CurrentRoute] and the router to [CurrentRouter], each unless the router
    is set to omit it, in which case the value the request came with is kept. *)
Theorem ServeHTTP_populates_context :
  forall (L : RegexpLib) (G : GoStd) (T : HTTPTypes) (C : Collaborators)
         (r : Router) (req : Request) (m : RouteMatch) (h : Handler),
    noCleanRedirect r req ->
    Router_Match r req emptyMatch = (true, m) ->
    match_Handler m = Some h ->
    exists req',
      ServeHTTP_resolve r req = ServedBy h req'
      /\ Method req' = Method req /\ req_URL req' = req_URL req /\ Host req' = Host req
      /\ CurrentRoute req'
         = (if omitRouteFromContext (router_conf r) then CurrentRoute req else match_Route m)
      /\ CurrentRouter req'
         = (if omitRouterFromContext (router_conf r) then CurrentRouter req else Some r).
Proof.
  intros L G T C r req m h Hno Hm Hh.
  rewrite (ServeHTTP_resolve_routed r req Hno), Hm. cbv zeta.
  rewrite Hh, decide_True by discriminate.
  rewrite decide_False by (intros [Hc _]; discriminate).
  eexists. split; [reflexivity|].
  destruct (omitRouteFromContext (router_conf r)),
           (omitRouterFromContext (router_conf r)); simpl;
    rewrite ?CurrentRoute_requestWithRouter,
            ?CurrentRoute_requestWithVars, ?CurrentRouter_requestWithVars,
            ?CurrentRoute_requestWithRouteAndVars, ?CurrentRouter_requestWithRouteAndVars;
    pose proof (requestLine_requestWithVars req (match_Vars m)) as (HM & HU & HH);
    repeat split; try assumption; try reflexivity.
Qed.

Lemma ServeHTTP_populates_context_witness :
  exists re,
    Reference.compile "/x" regexpTypePath Reference.noOptions = Return re
    /\ let r := Reference.router [] [Reference.anyMethod re] None None in
       let req := Reference.request "GET" "example.com" "/x" "" in
       exists req',
         Reference.resolve r req
         = ServedBy (Reference.appHandler "app" : @Handler Reference.types) req'
         /\ CurrentRoute req' = Some (Reference.anyMethod re)
         /\ CurrentRouter req' = Some r.
Proof.
  exists_compiled. intros r req.
  destruct (ServeHTTP_populates_context RefRegexp.lib Reference.std Reference.types
              Reference.collaborators r req (Reference.dispatch r req).2
              (Reference.appHandler "app" : @Handler Reference.types))
    as (req' & Hres & _ & _ & _ & Hroute & Hrouter).
  - right. reflexivity.
  - reflexivity.
  - reflexivity.
  - exists req'. split; [exact Hres|]. split; [exact Hroute|exact Hrouter].
Defined.

(** ** Path cleaning *)

Lemma lastByte_app_byte (s : string) (c : ascii) :
  String.get (len (s +:+ String c EmptyString) - 1) (s +:+ String c EmptyString) = Some c.
Proof.
  induction s as [|a s IH]; [reflexivity|].
  rewrite append_cons. unfold len in *. cbn [String.length].
  replace (S (String.length (s +:+ String c EmptyString)) - 1)
    with (S (String.length (s +:+ String c EmptyString) - 1)).
  - cbn [String.get]. exact IH.
  - destruct s; simpl; lia.
Qed.

Lemma lastByte_cons (a : ascii) (s : string) :
  s <> EmptyString ->
  String.get (len (String a s) - 1) (String a s) = String.get (len s - 1) s.
Proof.
  intros Hne. destruct s as [|b s]; [congruence|].
  unfold len. cbn [String.length]. rewrite !Nat.sub_succ, !Nat.sub_0_r. reflexivity.
Qed.

Section CleanPathFacts.
Context `{RegexpLib} `{GoStd} `{HTTPTypes}.

Lemma cleanPath_rooted_input (p : string) :
  p <> EmptyString ->
  exists p', lastByte p' = lastByte p
             /\ cleanPath p
                = if decide (lastByte p' = Some "/"%char /\ path_Clean p' <> "/")
                  then path_Clean p' +:+ "/" else path_Clean p'.
Proof.
  intros Hne. unfold cleanPath. rewrite decide_False by exact Hne. cbv zeta.
  destruct (decide (String.get 0 p <> Some "/"%char)).
  - exists ("/" +:+ p). split; [|reflexivity].
    unfold lastByte. change ("/" +:+ p) with (String "/"%char p).
    apply lastByte_cons. exact Hne.
  - exists p. split; reflexivity.
Qed.

End CleanPathFacts.

(** X12: [cleanPath] keeps a trailing slash, whatever [path.Clean] does with
    it: the empty path becomes ["/"], and a path that ends in ['/'] is
    cleaned to one that ends in ['/']. *)
Theorem cleanPath_keeps_trailing_slash :
  forall (L : RegexpLib) (G : GoStd) (T : HTTPTypes) (p : string),
    cleanPath EmptyString = "/"
    /\ (lastByte p = Some "/"%char -> lastByte (cleanPath p) = Some "/"%char).
Proof.
  intros L G T p. split; [reflexivity|].
  intros Hlast.
  assert (Hne : p <> EmptyString) by (intros ->; discriminate Hlast).
  destruct (cleanPath_rooted_input p Hne) as (p' & Hp' & ->).
  rewrite Hp', Hlast.
  destruct (decide (path_Clean p' = "/")) as [Hroot|Hroot].
  - rewrite decide_False by (intros [_ Hc]; contradiction). rewrite Hroot. reflexivity.
  - rewrite decide_True by (split; [reflexivity|exact Hroot]).
    unfold lastByte. apply lastByte_app_byte.
Qed.

Lemma cleanPath_keeps_trailing_slash_witness :
  lastByte (@cleanPath Reference.std "/a/../b//") = Some "/"%char
  /\ @cleanPath Reference.std "/a/../b//" = "/b/".
Proof.
  split.
  - apply (proj2 (cleanPath_keeps_trailing_slash RefRegexp.lib Reference.std Reference.types
                    "/a/../b//")).
    reflexivity.
  - reflexivity.
Defined.

(** X13: [ServeHTTP] answers with the clean-path redirect exactly when
    cleaning is on and [cleanPath] changes the path (the escaped path if the
    router uses encoded paths, the decoded one otherwise); the response is
    then the writer it was given with the [Location] header set to the
    printed request URL, its scheme, host, raw path and query kept and its
    path replaced by the cleaned one, and status 301 written, and no route,
    handler or middleware of the router has any part in it.  With
    [skipClean] set there is never such a redirect. *)
Theorem ServeHTTP_clean_path_redirect :
  forall (L : RegexpLib) (G : GoStd) (T : HTTPTypes) (C : Collaborators)
         (r : Router) (w : ResponseWriter) (req : Request),
    let path := if useEncodedPath (router_conf r)
                then URL_EscapedPath (req_URL req) else Path (req_URL req) in
    let cleaned := {| Scheme := Scheme (req_URL req);
                      URL_Host := URL_Host (req_URL req);
                      Path := cleanPath path;
                      RawPath := RawPath (req_URL req);
                      RawQuery := RawQuery (req_URL req) |} in
    (forall location,
        ServeHTTP_resolve r req = ServedRedirect location
        <-> skipClean (router_conf r) = false
            /\ cleanPath path <> path
            /\ location = URL_String cleaned)
    /\ (skipClean (router_conf r) = false ->
        cleanPath path <> path ->
        ServeHTTP r w req
        = {| rw_header := <["Location" := URL_String cleaned]> (rw_header w);
             rw_status := Some 301;
             rw_body := rw_body w |}).
Proof.
  intros L G T C r w req path cleaned.
  change path with (servedPath r req) in *.
  assert (Hyes : skipClean (router_conf r) = false ->
                 cleanPath (servedPath r req) <> servedPath r req ->
                 ServeHTTP_resolve r req = ServedRedirect (URL_String cleaned)).
  { intros Hskip Hne. unfold ServeHTTP_resolve. rewrite Hskip. cbv zeta.
    fold (servedPath r req). simpl negb. cbv iota.
    rewrite decide_True by exact Hne. reflexivity. }
  split.
  - intros location. split.
    + intros Hres.
      destruct (skipClean (router_conf r)) eqn:Hskip.
      * rewrite (ServeHTTP_resolve_routed r req (or_introl Hskip)) in Hres.
        destruct (Router_Match r req emptyMatch) as [ok m]. cbv zeta in Hres.
        repeat match type of Hres with
               | context [match ?x with _ => _ end] => destruct x
               end; discriminate.
      * destruct (decide (cleanPath (servedPath r req) = servedPath r req)) as [Hsame|Hne].
        -- rewrite (ServeHTTP_resolve_routed r req (or_intror Hsame)) in Hres.
           destruct (Router_Match r req emptyMatch) as [ok m]. cbv zeta in Hres.
           repeat match type of Hres with
                  | context [match ?x with _ => _ end] => destruct x
                  end; discriminate.
        -- rewrite (Hyes eq_refl Hne) in Hres. inversion Hres. auto.
    + intros (Hskip & Hne & ->). apply Hyes; assumption.
  - intros Hskip Hne. unfold ServeHTTP. rewrite (Hyes Hskip Hne). reflexivity.
Qed.

Lemma ServeHTTP_clean_path_redirect_witness :
  (let r := Reference.router [] [] None None in
   let req := Reference.request "GET" "example.com" "/a//b" "" in
   @ServeHTTP _ _ _ Reference.collaborators r Reference.blank req
   = {| rw_header := {["Location" := "/a/b"]}; rw_status := Some 301; rw_body := [] |})
  /\ (let r := Reference.router [] [] None None in
      let req : @Request RefRegexp.lib Reference.types :=
        {| Method := "GET";
           req_URL := {| Scheme := "http"; URL_Host := "example.com:8080";
                         Path := "/a/./b/../c//"; RawPath := EmptyString;
                         RawQuery := "x=1&y=2" |};
           Host := "example.com:8080";
           req_ctx := [] |} in
      @ServeHTTP _ _ _ Reference.collaborators r Reference.blank req
      = {| rw_header := {["Location" := "http://example.com:8080/a/c/?x=1&y=2"]};
           rw_status := Some 301; rw_body := [] |}).
Proof.
  split; intros r req;
    rewrite (proj2 (ServeHTTP_clean_path_redirect RefRegexp.lib Reference.std Reference.types
                      Reference.collaborators r Reference.blank req));
    first [reflexivity | vm_compute; discriminate].
Defined.

(** ** Building URLs: missing and extra values *)

Section URLValuesFacts.
Context `{RegexpLib} `{GoStd}.

Lemma url_values_missing (r : routeRegexp) (values : gmap string string) :
  forall (names : list string) (k : nat) (name : string),
    names !! k = Some name ->
    values !! name = None ->
    (forall j name', j < k -> names !! j = Some name' -> is_Some (values !! name')) ->
    url_values r names values = Fail (ErrMissingRouteVariable name).
Proof.
  induction names as [|n names IH]; intros k name Hk Hnone Hprev; [discriminate|].
  destruct k as [|k]; simpl in *.
  - inversion Hk; subst n. rewrite Hnone. reflexivity.
  - destruct (Hprev 0 n) as [v Hv]; [lia|reflexivity|]. rewrite Hv.
    rewrite (IH k name Hk Hnone); [reflexivity|].
    intros j name' Hj Hn'. apply (Hprev (S j) name'); [lia|exact Hn'].
Qed.

Lemma url_values_agree (r : routeRegexp) (values values' : gmap string string) :
  forall names : list string,
    (forall name, name ∈ names -> values !! name = values' !! name) ->
    url_values r names values = url_values r names values'.
Proof.
  induction names as [|n names IH]; intros Hagree; [reflexivity|].
  simpl. rewrite <- (Hagree n) by left.
  rewrite IH by (intros name Hin; apply Hagree; right; exact Hin). reflexivity.
Qed.

Lemma url_check_agree (r : routeRegexp) (values values' : gmap string string) :
  forall (names : list string) (k : nat),
    (forall name, name ∈ names -> values !! name = values' !! name) ->
    url_check r k names values = url_check r k names values'.
Proof.
  induction names as [|n names IH]; intros k Hagree; [reflexivity|].
  simpl. unfold mapIndex. rewrite <- (Hagree n) by left.
  rewrite IH by (intros name Hin; apply Hagree; right; exact Hin). reflexivity.
Qed.

End URLValuesFacts.

(** X14: [url] reports the first declared variable that has no value, as a
    missing-variable error, before the built string or any value is checked
    against a pattern. *)
Theorem url_missing_variable :
  forall (L : RegexpLib) (G : GoStd) (r : routeRegexp) (values : gmap string string)
         (k : nat) (name : string),
    varsN r !! k = Some name ->
    values !! name = None ->
    (forall j name', j < k -> varsN r !! j = Some name' -> is_Some (values !! name')) ->
    url r values = Fail (ErrMissingRouteVariable name).
Proof.
  intros L G r values k name Hk Hnone Hprev. unfold url.
  rewrite (url_values_missing r values (varsN r) k name Hk Hnone Hprev). reflexivity.
Qed.

Lemma url_missing_variable_witness :
  exists re,
    Reference.compile "/users/{id:[0-9]+}/{tab}" regexpTypePath Reference.noOptions = Return re
    /\ Reference.build re {["id" := "not a number"]} = Fail (ErrMissingRouteVariable "tab").
Proof.
  exists_compiled.
  match goal with
  | |- Reference.build ?r ?v = _ =>
      apply (url_missing_variable RefRegexp.lib Reference.std r v 1 "tab")
  end.
  - reflexivity.
  - reflexivity.
  - intros j name' Hj Hn. assert (j = 0) as -> by lia.
    simpl in Hn. inversion Hn; subst name'. eexists. reflexivity.
Defined.

(** X15: [url] reads only the values of the declared variables: two value
    maps that agree on every declared name give the same result, so entries
    under other names are ignored. *)
Theorem url_ignores_undeclared_values :
  forall (L : RegexpLib) (G : GoStd) (r : routeRegexp) (values values' : gmap string string),
    (forall name, name ∈ varsN r -> values !! name = values' !! name) ->
    url r values = url r values'.
Proof.
  intros L G r values values' Hagree. unfold url.
  rewrite (url_values_agree r values values' (varsN r) Hagree).
  destruct (url_values r (varsN r) values') as [urlValues|e|p]; simpl; try reflexivity.
  rewrite (url_check_agree r values values' (varsN r) 0 Hagree). reflexivity.
Qed.

Lemma url_ignores_undeclared_values_witness :
  exists re,
    Reference.compile "/users/{id:[0-9]+}" regexpTypePath Reference.noOptions = Return re
    /\ Reference.build re {["id" := "42"; "page" := "3"]} = Reference.build re {["id" := "42"]}.
Proof.
  exists_compiled.
  match goal with
  | |- Reference.build ?r ?v = Reference.build ?r ?v' =>
      apply (url_ignores_undeclared_values RefRegexp.lib Reference.std r v v')
  end.
  intros name Hin. apply list_elem_of_singleton in Hin. subst name. reflexivity.
Defined.

(** ** Brace pairs of a template *)

Lemma len_app (s t : string) : len (s +:+ t) = len s + len t.
Proof.
  unfold len. induction s as [|c s IH]; [reflexivity|].
  rewrite append_cons. simpl. rewrite IH. reflexivity.
Qed.

Lemma get_app_here (pre rest : string) (c : ascii) :
  String.get (len pre) (pre +:+ String c rest) = Some c.
Proof.
  induction pre as [|a pre IH]; [reflexivity|].
  rewrite append_cons. exact IH.
Qed.

Lemma app_snoc_byte (pre rest : string) (c : ascii) :
  (pre +:+ String c EmptyString) +:+ rest = pre +:+ String c rest.
Proof. rewrite append_assoc. reflexivity. Qed.

Section BracePairs.
Variable s : string.

Lemma flat_snoc (ps : list (nat * nat)) (lo hi : nat) :
  flatPairs (ps ++ [(lo, hi)]) = flatPairs ps ++ [lo; hi].
Proof. unfold flatPairs. rewrite bind_app. reflexivity. Qed.

Lemma ordered_snoc (bound : nat) (ps : list (nat * nat)) (lo hi : nat) :
  orderedPairs bound ps -> bound <= lo -> lo <= hi ->
  orderedPairs hi (ps ++ [(lo, hi)]).
Proof.
  intros [Hadj Hlast] Hlo Hhi. split.
  - intros k p q Hp Hq.
    destruct (decide (S k < length ps)) as [Hlt|Hge].
    + rewrite lookup_app_l in Hp by lia. rewrite lookup_app_l in Hq by lia.
      apply (Hadj k p q Hp Hq).
    + assert (Hk : S k = length ps).
      { apply lookup_lt_Some in Hq. rewrite length_app in Hq. simpl in Hq. lia. }
      rewrite lookup_app_l in Hp by lia.
      rewrite lookup_app_r in Hq by lia.
      replace (S k - length ps) with 0 in Hq by lia. inversion Hq; subst q. simpl.
      assert (Hl : last ps = Some p).
      { rewrite last_lookup. rewrite <- Hk. simpl. exact Hp. }
      specialize (Hlast p Hl). lia.
  - intros p Hp. rewrite last_snoc in Hp. inversion Hp; subst p. simpl. lia.
Qed.

Lemma ordered_mono (b b' : nat) (ps : list (nat * nat)) :
  orderedPairs b ps -> b <= b' -> orderedPairs b' ps.
Proof.
  intros [Hadj Hlast] Hb. split; [exact Hadj|].
  intros p Hp. specialize (Hlast p Hp). lia.
Qed.

Lemma braceIndices_loop_pairs :
  forall (rest pre : string) (level : Z) (idx : nat) (ps : list (nat * nat))
         (out : list nat),
    s = pre +:+ rest ->
    (0 <= level)%Z ->
    Forall (bracePair s) ps ->
    orderedPairs (if decide (0 < level)%Z then idx else len pre) ps ->
    ((0 < level)%Z -> idx < len pre /\ String.get idx s = Some "{"%char) ->
    braceIndices_loop s rest (len pre) level idx (flatPairs ps) = inr out ->
    exists ps', out = flatPairs ps' /\ Forall (bracePair s) ps' /\ orderedPairs (len s) ps'.
Proof.
  induction rest as [|c rest IH]; intros pre level idx ps out Hs Hlevel Hps Hord Hopen Hrun.
  - simpl in Hrun. destruct (decide (level <> 0%Z)); [discriminate|].
    inversion Hrun; subst out. exists ps. split; [reflexivity|]. split; [exact Hps|].
    rewrite decide_False in Hord by lia.
    eapply ordered_mono; [exact Hord|]. rewrite Hs, len_app. lia.
  - assert (Hs' : s = (pre +:+ String c EmptyString) +:+ rest)
      by (rewrite app_snoc_byte; exact Hs).
    assert (Hlen : len (pre +:+ String c EmptyString) = S (len pre))
      by (rewrite len_app; unfold len; simpl; lia).
    assert (Hget : String.get (len pre) s = Some c) by (rewrite Hs; apply get_app_here).
    cbn [braceIndices_loop] in Hrun. rewrite <- Hlen in Hrun.
    destruct (decide (c = "{"%char)) as [->|Hno].
    + cbv zeta in Hrun.
      refine (IH _ _ _ _ _ Hs' _ Hps _ _ Hrun).
      * lia.
      * rewrite decide_True by lia.
        destruct (decide (level + 1 = 1)%Z) as [H1|H1].
        -- rewrite decide_False in Hord by lia. exact Hord.
        -- rewrite decide_True in Hord by lia. exact Hord.
      * intros _. destruct (decide (level + 1 = 1)%Z) as [H1|H1].
        -- split; [lia|exact Hget].
        -- destruct Hopen as [Hlt Hg]; [lia|]. split; [lia|exact Hg].
    + destruct (decide (c = "}"%char)) as [->|Hnc].
      * cbv zeta in Hrun.
        destruct (decide (level - 1 = 0)%Z) as [H0|H0].
        -- destruct Hopen as [Hlt Hg]; [lia|].
           rewrite decide_True in Hord by lia.
           replace (len pre + 1) with (len (pre +:+ String "}"%char EmptyString)) in Hrun
             by (rewrite Hlen; lia).
           rewrite <- (flat_snoc ps idx) in Hrun.
           refine (IH _ _ _ _ _ Hs' _ _ _ _ Hrun).
           ++ lia.
           ++ apply Forall_app. split; [exact Hps|].
              apply Forall_singleton. unfold bracePair. cbn [fst snd].
              split; [lia|].
              split; [rewrite Hlen, Hs, len_app; unfold len; simpl; lia|].
              split; [exact Hg|].
              rewrite Hlen. replace (S (len pre) - 1) with (len pre) by lia. exact Hget.
           ++ rewrite decide_False by lia.
              apply (ordered_snoc idx); [exact Hord|lia|lia].
           ++ intros Hc. lia.
        -- destruct (decide (level - 1 < 0)%Z); [discriminate|].
           refine (IH _ _ _ _ _ Hs' _ Hps _ _ Hrun).
           ++ lia.
           ++ rewrite decide_True by lia. rewrite decide_True in Hord by lia. exact Hord.
           ++ intros _. destruct Hopen as [Hlt Hg]; [lia|]. split; [lia|exact Hg].
      * refine (IH _ _ _ _ _ Hs' Hlevel Hps _ _ Hrun).
        -- destruct (decide (0 < level)%Z); [exact Hord|].
           eapply ordered_mono; [exact Hord|lia].
        -- intros Hpos. destruct (Hopen Hpos) as [Hlt Hg]. split; [lia|exact Hg].
Qed.

Lemma braceIndices_loop_error :
  forall (rest : string) (i : nat) (level : Z) (idx : nat) (idxs : list nat) (e : error),
    braceIndices_loop s rest i level idx idxs = inl e -> e = ErrUnbalancedBraces s.
Proof.
  induction rest as [|c rest IH]; intros i level idx idxs e Hrun; simpl in Hrun.
  - destruct (decide (level <> 0%Z)); [congruence|discriminate].
  - repeat match type of Hrun with
           | context [decide ?P] => destruct (decide P)
           end; try (apply IH in Hrun; exact Hrun); congruence.
Qed.

Lemma braceIndices_pairs_of (out : list nat) :
  braceIndices s = inr out ->
  exists ps : list (nat * nat),
    out = flatPairs ps /\ Forall (bracePair s) ps /\ orderedPairs (len s) ps.
Proof.
  intros Hrun. unfold braceIndices in Hrun.
  destruct (braceIndices_loop_pairs s EmptyString 0%Z 0 [] out) as (ps & Hout & Hok & Hord).
  - reflexivity.
  - lia.
  - constructor.
  - split; [intros k p q Hp; discriminate|intros p Hp; discriminate].
  - intros Hc. lia.
  - exact Hrun.
  - exists ps. split; [exact Hout|]. split; [exact Hok|exact Hord].
Qed.

End BracePairs.

(** X16: the index list [braceIndices] returns is a sequence of
    [(start, end)] pairs in increasing order without overlap, each within the
    string, with ['{'] at [start] and ['}'] just before [end] (so a tag is at
    least two bytes long); and its only error is the unbalanced-braces error
    carrying the whole string. *)
Theorem braceIndices_pairs :
  forall s : string,
    (forall idxs,
        braceIndices s = inr idxs ->
        exists ps : list (nat * nat),
          idxs = flatPairs ps /\ Forall (bracePair s) ps /\ orderedPairs (len s) ps)
    /\ (forall e, braceIndices s = inl e -> e = ErrUnbalancedBraces s).
Proof.
  intros s. split.
  - intros idxs. apply braceIndices_pairs_of.
  - intros e. apply braceIndices_loop_error.
Qed.

Lemma braceIndices_pairs_witness :
  braceIndices "/{a}/{b:{2}}" = inr [1; 4; 5; 12]
  /\ exists ps : list (nat * nat),
       [1; 4; 5; 12] = flatPairs ps
       /\ Forall (bracePair "/{a}/{b:{2}}") ps
       /\ orderedPairs (len "/{a}/{b:{2}}") ps.
Proof.
  split; [reflexivity|].
  apply (proj1 (braceIndices_pairs "/{a}/{b:{2}}")). reflexivity.
Defined.

(** ** Templates without variables, query templates without a value *)

Lemma braceIndices_loop_noBrace (s : string) :
  forall (rest : string) (i : nat) (level : Z) (idx : nat) (idxs : list nat),
    allBytes noBrace rest = true ->
    braceIndices_loop s rest i level idx idxs
    = if decide (level <> 0%Z) then inl (ErrUnbalancedBraces s) else inr idxs.
Proof.
  induction rest as [|c rest IH]; intros i level idx idxs Hall; [reflexivity|].
  simpl in Hall. apply andb_true_iff in Hall as [Hc Hall].
  unfold noBrace in Hc. apply andb_true_iff in Hc as [Ho Hcl].
  apply negb_true_iff, bool_decide_eq_false in Ho, Hcl.
  cbn [braceIndices_loop]. rewrite !decide_False by assumption.
  apply IH. exact Hall.
Qed.

Lemma braceIndices_noBrace (s : string) :
  allBytes noBrace s = true -> braceIndices s = inr [].
Proof.
  intros Hall. unfold braceIndices. rewrite braceIndices_loop_noBrace by exact Hall.
  reflexivity.
Qed.

Lemma sliceFrom_app (h rest : string) : sliceFrom (h +:+ rest) (len h) = rest.
Proof. induction h as [|c h IH]; [reflexivity|]. rewrite append_cons. simpl. exact IH. Qed.

Lemma sliceTo_sliceFrom (s : string) (n : nat) : sliceTo s n +:+ sliceFrom s n = s.
Proof.
  revert s. induction n as [|n IH]; intros s; [reflexivity|].
  destruct s as [|c s]; [reflexivity|]. simpl. rewrite append_cons, IH. reflexivity.
Qed.

Lemma HasSuffix_restore (s suffix : string) :
  HasSuffix s suffix = true -> sliceTo s (len s - len suffix) +:+ suffix = s.
Proof.
  unfold HasSuffix. destruct (decide (len suffix <= len s)); [|discriminate].
  intros Hs. apply bool_decide_eq_true in Hs.
  rewrite <- Hs at 2. apply sliceTo_sliceFrom.
Qed.

Lemma append_nil_r (s : string) : s +:+ EmptyString = s.
Proof. induction s as [|c s IH]; [reflexivity|]. rewrite append_cons, IH. reflexivity. Qed.

Lemma SplitN2_not_found (s sep : string) :
  Contains s sep = false -> SplitN2 s sep = [s].
Proof.
  unfold Contains, SplitN2, Cut. intros ->. reflexivity.
Qed.

Section LiteralTemplates.
Context `{RegexpLib}.

Lemma buildPattern_noBrace (tpl : string) (typ : regexpType) (opts : routeRegexpOptions) :
  allBytes noBrace tpl = true ->
  typ <> regexpTypeQuery ->
  let strict := opt_strictSlash opts && bool_decide (typ = regexpTypePath) in
  let endSlash := strict && HasSuffix tpl "/" in
  let body := if endSlash then sliceTo tpl (len tpl - 1) else tpl in
  exists bp,
    buildPattern tpl typ opts = Return bp
    /\ bp_patternStr bp
       = (let p := "^" +:+ QuoteMeta body in
          let p := if strict then p +:+ "[/]?" else p in
          if decide (typ <> regexpTypePrefix) then p +:+ "$" else p)
    /\ ps_varsN (bp_state bp) = [] /\ ps_varsR (bp_state bp) = []
    /\ ps_reverse (bp_state bp) = EmptyString
    /\ bp_raw bp = body /\ bp_endSlash bp = endSlash.
Proof.
  intros Hall Hq strict endSlash body. unfold buildPattern.
  rewrite (braceIndices_noBrace tpl Hall).
  assert (Hstrict : opt_strictSlash
                      (if decide (typ <> regexpTypePath)
                       then {| opt_strictSlash := false;
                               opt_useEncodedPath := opt_useEncodedPath opts;
                               opt_strictQueryParamSep := opt_strictQueryParamSep opts |}
                       else opts) = strict).
  { unfold strict. destruct (decide (typ <> regexpTypePath)) as [Hne|He].
    - rewrite bool_decide_eq_false_2 by exact Hne. rewrite andb_false_r. reflexivity.
    - rewrite bool_decide_eq_true_2 by (destruct (decide (typ = regexpTypePath)); tauto).
      rewrite andb_true_r. reflexivity. }
  cbv zeta. rewrite Hstrict. fold endSlash.
  destruct endSlash eqn:Hend; cbn [parseVars mbind outcome_bind ps_end ps_pattern sliceFrom];
    rewrite (decide_False (P := typ = regexpTypeQuery)) by exact Hq;
    cbn [mbind outcome_bind];
    eexists; (split; [reflexivity|]); cbn [bp_patternStr bp_state bp_raw bp_endSlash
                                             ps_varsN ps_varsR ps_reverse];
    repeat split.
Qed.

End LiteralTemplates.

(** X17: a template without braces compiles, if at all, to a record with no
    variables and no validators whose reverse template is the template
    itself (a trailing slash taken off for strict-slash matching is put
    back), and whose pattern is compiled from ["^"], the quoted template
    (without that slash), ["[/]?"] under strict slash, and ["$"] unless it is
    a prefix template. *)
Theorem newRouteRegexp_without_variables :
  forall (L : RegexpLib) (tpl : string) (typ : regexpType) (opts : routeRegexpOptions)
         (r : routeRegexp),
    allBytes noBrace tpl = true ->
    typ <> regexpTypeQuery ->
    newRouteRegexp tpl typ opts = Return r ->
    let strict := opt_strictSlash opts && bool_decide (typ = regexpTypePath) in
    let body := if strict && HasSuffix tpl "/" then sliceTo tpl (len tpl - 1) else tpl in
    varsN r = [] /\ varsR r = [] /\ reverse r = tpl /\ NumSubexp (regexp r) = 0
    /\ RegexpCompileFunc
         ("^" +:+ QuoteMeta body +:+ (if strict then "[/]?" else "")
              +:+ (if decide (typ <> regexpTypePrefix) then "$" else ""))
       = inl (regexp r).
Proof.
  intros L tpl typ opts r Hall Hq Hr strict body.
  destruct (buildPattern_noBrace tpl typ opts Hall Hq)
    as (bp & Hbp & Hpat & HN & HR & Hrev & Hraw & Hend).
  fold strict in Hpat, Hraw, Hend. fold body in Hpat, Hraw.
  pose proof (newRouteRegexp_groups _ _ _ _ Hr) as [Hg _].
  unfold newRouteRegexp in Hr. rewrite Hbp in Hr. cbn [mbind outcome_bind] in Hr.
  destruct (RegexpCompileFunc (bp_patternStr bp)) as [reg|err] eqn:Hc; [|discriminate].
  destruct (decide (NumSubexp reg <> bp_nvars bp)); [discriminate|].
  inversion Hr; subst r. cbn [varsN varsR reverse regexp] in *.
  rewrite HN in Hg. rewrite HN, HR, Hrev, Hraw, Hend.
  split; [reflexivity|]. split; [reflexivity|]. split; [|split; [exact Hg|]].
  - unfold body. destruct (strict && HasSuffix tpl "/") eqn:Hs; [|reflexivity].
    apply andb_true_iff in Hs as [_ Hs].
    apply (HasSuffix_restore tpl "/" Hs).
  - rewrite <- Hc, Hpat. f_equal. cbv zeta.
    destruct strict, (decide (typ <> regexpTypePrefix));
      rewrite ?append_assoc; cbn [append]; rewrite ?append_assoc; try reflexivity.
  cbn [append]. rewrite !append_nil_r. reflexivity.
Qed.

Lemma newRouteRegexp_without_variables_witness :
  exists r,
    Reference.compile "/a.b/" regexpTypePath Reference.strictSlashOptions = Return r
    /\ varsN r = [] /\ reverse r = "/a.b/"
    /\ RefRegexp.Compile "^/a\.b[/]?$" = inl (regexp r).
Proof.
  exists_compiled.
  match goal with
  | |- varsN ?r = _ /\ _ =>
      destruct (newRouteRegexp_without_variables RefRegexp.lib "/a.b/" regexpTypePath
                  Reference.strictSlashOptions r eq_refl ltac:(discriminate) eq_refl)
        as (HN & _ & Hrev & _ & Hc)
  end.
  split; [exact HN|]. split; [exact Hrev|exact Hc].
Defined.

(** X18: a query template without ['='] never compiles to a record: the
    split of the template on ['='] has no second element to read, so once the
    braces and the variables have passed their checks [newRouteRegexp]
    aborts (a Go runtime panic); without braces it always does. *)
Theorem newRouteRegexp_query_without_value_aborts :
  forall (L : RegexpLib) (tpl : string) (opts : routeRegexpOptions),
    Contains tpl "=" = false ->
    (forall r, newRouteRegexp tpl regexpTypeQuery opts <> Return r)
    /\ (allBytes noBrace tpl = true ->
        newRouteRegexp tpl regexpTypeQuery opts = Abort PanicIndexOutOfRange).
Proof.
  intros L tpl opts Hno.
  assert (Hsplit : SplitN2 tpl "=" !! 1 = None)
    by (rewrite (SplitN2_not_found tpl "=" Hno); reflexivity).
  split.
  - intros r Hr. unfold newRouteRegexp, buildPattern in Hr.
    destruct (braceIndices tpl) as [e|idxs]; [discriminate|].
    rewrite (decide_True (P := regexpTypeQuery <> regexpTypePath)) in Hr by discriminate.
    cbn [opt_strictSlash andb] in Hr.
    destruct (parseVars tpl (defaultPatternOf regexpTypeQuery) idxs 0 _) as [st|e|p];
      cbn [mbind outcome_bind] in Hr; try discriminate.
    rewrite (decide_True (P := regexpTypeQuery = regexpTypeQuery)) in Hr by reflexivity.
    rewrite Hsplit in Hr. discriminate.
  - intros Hall. unfold newRouteRegexp, buildPattern.
    rewrite (braceIndices_noBrace tpl Hall).
    rewrite (decide_True (P := regexpTypeQuery <> regexpTypePath)) by discriminate.
    cbn [opt_strictSlash andb parseVars mbind outcome_bind].
    rewrite (decide_True (P := regexpTypeQuery = regexpTypeQuery)) by reflexivity.
    rewrite Hsplit. reflexivity.
Qed.

Lemma newRouteRegexp_query_without_value_aborts_witness :
  Reference.compile "page" regexpTypeQuery Reference.noOptions = Abort PanicIndexOutOfRange.
Proof.
  apply (proj2 (newRouteRegexp_query_without_value_aborts RefRegexp.lib "page"
                  Reference.noOptions eq_refl)).
  reflexivity.
Defined.

(** ** Templates with one variable *)

Lemma slice_middle (pre mid post : string) :
  slice (pre +:+ mid +:+ post) (len pre) (len pre + len mid) = mid.
Proof.
  unfold slice. rewrite sliceFrom_app.
  replace (len pre + len mid - len pre) with (len mid) by lia.
  apply sliceTo_app.
Qed.

Lemma sliceTo_app_more (a b : string) (n : nat) :
  sliceTo (a +:+ b) (len a + n) = a +:+ sliceTo b n.
Proof.
  induction a as [|c a IH]; [reflexivity|].
  rewrite append_cons. unfold len in *. simpl. rewrite IH, append_cons. reflexivity.
Qed.

Lemma HasSuffix_byte_cons (x c : ascii) (s : string) :
  s <> EmptyString ->
  HasSuffix (String x s) (String c EmptyString) = HasSuffix s (String c EmptyString).
Proof.
  intros Hne. destruct s as [|y s]; [congruence|].
  unfold HasSuffix, len. cbn [String.length].
  rewrite !decide_True by lia.
  replace (S (S (String.length s)) - 1) with (S (String.length s)) by lia.
  replace (S (String.length s) - 1) with (String.length s) by lia.
  reflexivity.
Qed.

Lemma HasSuffix_byte_app (a b : string) (c : ascii) :
  b <> EmptyString ->
  HasSuffix (a +:+ b) (String c EmptyString) = HasSuffix b (String c EmptyString).
Proof.
  intros Hne. induction a as [|x a IH]; [reflexivity|].
  rewrite append_cons, HasSuffix_byte_cons; [exact IH|].
  destruct a; [exact Hne|discriminate].
Qed.

Lemma sliceTo_app_drop_last (a b : string) :
  b <> EmptyString ->
  sliceTo (a +:+ b) (len (a +:+ b) - 1) = a +:+ sliceTo b (len b - 1).
Proof.
  intros Hne. rewrite len_app.
  replace (len a + len b - 1) with (len a + (len b - 1)).
  - apply sliceTo_app_more.
  - destruct b; [congruence|]. unfold len. simpl. lia.
Qed.

Lemma braceIndices_loop_skip (s : string) :
  forall (a rest : string) (i : nat) (level : Z) (idx : nat) (idxs : list nat),
    allBytes noBrace a = true ->
    braceIndices_loop s (a +:+ rest) i level idx idxs
    = braceIndices_loop s rest (i + len a) level idx idxs.
Proof.
  induction a as [|c a IH]; intros rest i level idx idxs Hall.
  - simpl. rewrite Nat.add_0_r. reflexivity.
  - simpl in Hall. apply andb_true_iff in Hall as [Hc Hall].
    unfold noBrace in Hc. apply andb_true_iff in Hc as [Ho Hcl].
    apply negb_true_iff, bool_decide_eq_false in Ho, Hcl.
    rewrite append_cons. cbn [braceIndices_loop]. rewrite !decide_False by assumption.
    rewrite IH by exact Hall. f_equal. unfold len. simpl. lia.
Qed.

(** The tag of a variable with body [body]. *)
Lemma braceIndices_single (pre body post : string) :
  allBytes noBrace pre = true ->
  allBytes noBrace body = true ->
  allBytes noBrace post = true ->
  braceIndices (pre +:+ ("{" +:+ body +:+ "}") +:+ post)
  = inr [len pre; len pre + len ("{" +:+ body +:+ "}")].
Proof.
  intros Hpre Hbody Hpost. unfold braceIndices.
  rewrite braceIndices_loop_skip by exact Hpre.
  replace (("{" +:+ body +:+ "}") +:+ post) with (String "{"%char (body +:+ String "}"%char post))
    by (rewrite !append_assoc; reflexivity).
  cbn [braceIndices_loop]. rewrite decide_True by reflexivity. cbv zeta.
  rewrite (decide_True (P := (0 + 1 = 1)%Z)) by reflexivity.
  rewrite braceIndices_loop_skip by exact Hbody.
  cbn [braceIndices_loop]. rewrite decide_False by discriminate.
  rewrite decide_True by reflexivity. cbv zeta.
  rewrite (decide_True (P := (0 + 1 - 1 = 0)%Z)) by reflexivity.
  rewrite braceIndices_loop_noBrace by exact Hpost.
  rewrite decide_False by (intros Hc; apply Hc; reflexivity).
  cbn [app]. do 3 f_equal.
  change ("{" +:+ body +:+ "}") with (String "{"%char (body +:+ String "}"%char EmptyString)).
  unfold len. cbn [String.length]. fold (len body).
  change (String.length (body +:+ String "}"%char EmptyString))
    with (len (body +:+ String "}"%char EmptyString)).
  rewrite len_app. unfold len. simpl. lia.
Qed.

Section SingleVariable.
Context `{RegexpLib}.

(** The name and the pattern the loop of [newRouteRegexp] reads off a tag
    body. *)
Lemma parseVars_single (pre body rest dp : string) (st : parseState) :
  ps_end st = 0 ->
  let tag := "{" +:+ body +:+ "}" in
  let colonIdx := Index body ":" in
  let name := if decide (colonIdx = (-1)%Z) then body
              else slice body 0 (Z.to_nat colonIdx) in
  let patt := if decide (colonIdx = (-1)%Z) then dp
              else sliceFrom body (Z.to_nat colonIdx + 1) in
  parseVars (pre +:+ tag +:+ rest) dp [len pre; len pre + len tag] 0 st
  = if decide (name = EmptyString \/ patt = EmptyString)
    then Fail (ErrMissingNameOrPattern tag)
    else match RegexpCompileFunc ("^" +:+ patt +:+ "$") with
         | inr err => Fail (ErrCompilingRegex tag err)
         | inl re =>
             Return {| ps_pattern :=
                         ps_pattern st
                         +:+ (QuoteMeta pre +:+ "(?P<" +:+ varGroupName 0 +:+ ">"
                                        +:+ patt +:+ ")");
                       ps_reverse := ps_reverse st +:+ (pre +:+ "%s");
                       ps_varsN := ps_varsN st ++ [name];
                       ps_varsR := ps_varsR st ++ [re];
                       ps_end := len pre + len tag |}
         end.
Proof.
  intros Hend tag colonIdx name patt.
  assert (Hraw : slice (pre +:+ tag +:+ rest) (ps_end st) (len pre) = pre).
  { rewrite Hend. unfold slice. cbn [sliceFrom]. rewrite Nat.sub_0_r. apply sliceTo_app. }
  assert (Htag : slice (pre +:+ tag +:+ rest) (len pre) (len pre + len tag) = tag)
    by apply slice_middle.
  assert (Hparam : slice tag 1 (len tag - 1) = body).
  { unfold tag.
    change ("{" +:+ body +:+ "}") with (String "{"%char (body +:+ String "}"%char EmptyString)).
    unfold slice. cbn [sliceFrom]. unfold len. cbn [String.length].
    change (String.length (body +:+ String "}"%char EmptyString))
      with (len (body +:+ String "}"%char EmptyString)).
    rewrite len_app.
    replace (S (len body + len (String "}"%char EmptyString)) - 1 - 1) with (len body)
      by (unfold len; simpl; lia).
    apply sliceTo_app. }
  cbn [parseVars]. cbv zeta. rewrite Hraw, Htag, Hparam.
  fold colonIdx. unfold name, patt.
  destruct (decide (colonIdx = (-1)%Z)); reflexivity.
Qed.

End SingleVariable.

Lemma single_trim (pre body post : string) :
  let tag := "{" +:+ body +:+ "}" in
  HasSuffix (pre +:+ tag +:+ post) "/" = true ->
  post <> EmptyString
  /\ sliceTo (pre +:+ tag +:+ post) (len (pre +:+ tag +:+ post) - 1)
     = pre +:+ tag +:+ sliceTo post (len post - 1).
Proof.
  intros tag Hs.
  assert (Htag : tag = String "{"%char (body +:+ String "}"%char EmptyString)) by reflexivity.
  assert (Hne : post <> EmptyString).
  { intros ->. rewrite append_nil_r in Hs.
    rewrite HasSuffix_byte_app in Hs by (rewrite Htag; discriminate).
    rewrite Htag in Hs.
    rewrite HasSuffix_byte_cons in Hs by (destruct body; discriminate).
    rewrite HasSuffix_byte_app in Hs by discriminate.
    discriminate Hs. }
  split; [exact Hne|].
  rewrite <- !append_assoc. apply sliceTo_app_drop_last. exact Hne.
Qed.

Section SingleVariableCompile.
Context `{RegexpLib}.

(** [newRouteRegexp] on a template with one variable, up to the end of
    its loop: the template the loop runs on ends in [post] or in [post]
    without its final slash. *)
Lemma buildPattern_single_loop (pre body post : string) (typ : regexpType)
    (opts : routeRegexpOptions) :
  allBytes noBrace pre = true ->
  allBytes noBrace body = true ->
  allBytes noBrace post = true ->
  let tag := "{" +:+ body +:+ "}" in
  let tpl := pre +:+ tag +:+ post in
  let strict := opt_strictSlash opts && bool_decide (typ = regexpTypePath) in
  let endSlash := strict && HasSuffix tpl "/" in
  let post' := if endSlash then sliceTo post (len post - 1) else post in
  buildPattern tpl typ opts
  = (st ← parseVars (pre +:+ tag +:+ post') (defaultPatternOf typ)
            [len pre; len pre + len tag] 0
            {| ps_pattern := "^"; ps_reverse := EmptyString;
               ps_varsN := []; ps_varsR := []; ps_end := 0 |};
     let raw := sliceFrom (pre +:+ tag +:+ post') (ps_end st) in
     let pattern := ps_pattern st +:+ QuoteMeta raw in
     let pattern := if strict then pattern +:+ "[/]?" else pattern in
     pattern ←
       (if decide (typ = regexpTypeQuery) then
          match SplitN2 tpl "=" !! 1 with
          | None => Abort PanicIndexOutOfRange
          | Some queryVal =>
              if decide (queryVal = EmptyString)
              then Return (pattern +:+ defaultPatternOf typ) else Return pattern
          end
        else Return pattern);
     let pattern := if decide (typ <> regexpTypePrefix) then pattern +:+ "$" else pattern in
     Return {| bp_patternStr := pattern; bp_state := st; bp_raw := raw;
               bp_endSlash := endSlash;
               bp_options :=
                 (if decide (typ <> regexpTypePath)
                  then {| opt_strictSlash := false;
                          opt_useEncodedPath := opt_useEncodedPath opts;
                          opt_strictQueryParamSep := opt_strictQueryParamSep opts |}
                  else opts);
               bp_nvars := 1 |}).
Proof.
  intros Hpre Hbody Hpost tag tpl strict endSlash post'.
  unfold buildPattern. fold tag. fold tpl.
  unfold tpl at 1, tag at 1. rewrite (braceIndices_single pre body post Hpre Hbody Hpost).
  fold tag. fold tpl.
  assert (Hstrict : opt_strictSlash
                      (if decide (typ <> regexpTypePath)
                       then {| opt_strictSlash := false;
                               opt_useEncodedPath := opt_useEncodedPath opts;
                               opt_strictQueryParamSep := opt_strictQueryParamSep opts |}
                       else opts) = strict).
  { unfold strict. destruct (decide (typ <> regexpTypePath)) as [Hne|He].
    - rewrite bool_decide_eq_false_2 by exact Hne. rewrite andb_false_r. reflexivity.
    - rewrite bool_decide_eq_true_2 by (destruct (decide (typ = regexpTypePath)); tauto).
      rewrite andb_true_r. reflexivity. }
  cbv zeta. rewrite Hstrict. fold endSlash. unfold post'.
  destruct endSlash eqn:Hend.
  - apply andb_true_iff in Hend as [_ Hsuf].
    destruct (single_trim pre body post Hsuf) as [_ Htrim].
    fold tag in Htrim. fold tpl in Htrim. rewrite Htrim. reflexivity.
  - reflexivity.
Qed.

End SingleVariableCompile.

(** X19: for a template with a single variable [{body}] between literal
    text, the name is [body] up to its first [':'] and the pattern what
    follows it (the default pattern of the template type without a [':']);
    if either is empty [newRouteRegexp] returns the missing-name-or-pattern
    error for the tag [{body}]; otherwise, if the anchored pattern of the
    variable does not compile, the compile error for that tag. *)
Theorem newRouteRegexp_single_variable_errors :
  forall (L : RegexpLib) (pre body post : string) (typ : regexpType)
         (opts : routeRegexpOptions),
    allBytes noBrace pre = true ->
    allBytes noBrace body = true ->
    allBytes noBrace post = true ->
    let tag := "{" +:+ body +:+ "}" in
    let tpl := pre +:+ tag +:+ post in
    let colonIdx := Index body ":" in
    let name := if decide (colonIdx = (-1)%Z) then body
                else slice body 0 (Z.to_nat colonIdx) in
    let patt := if decide (colonIdx = (-1)%Z) then defaultPatternOf typ
                else sliceFrom body (Z.to_nat colonIdx + 1) in
    (name = EmptyString \/ patt = EmptyString ->
     newRouteRegexp tpl typ opts = Fail (ErrMissingNameOrPattern tag))
    /\ (name <> EmptyString -> patt <> EmptyString ->
        forall err, RegexpCompileFunc ("^" +:+ patt +:+ "$") = inr err ->
                    newRouteRegexp tpl typ opts = Fail (ErrCompilingRegex tag err)).
Proof.
  intros L pre body post typ opts Hpre Hbody Hpost tag tpl colonIdx name patt.
  unfold newRouteRegexp, tpl, tag.
  rewrite (buildPattern_single_loop pre body post typ opts Hpre Hbody Hpost).
  rewrite parseVars_single by reflexivity.
  fold colonIdx. fold name. fold patt. split.
  - intros Hempty.
    rewrite (decide_True (P := name = EmptyString \/ patt = EmptyString)) by exact Hempty.
    reflexivity.
  - intros Hname Hpatt err Herr.
    rewrite (decide_False (P := name = EmptyString \/ patt = EmptyString)) by tauto.
    rewrite Herr. reflexivity.
Qed.

Lemma newRouteRegexp_single_variable_errors_witness :
  Reference.compile "/{}" regexpTypePath Reference.noOptions
  = Fail (ErrMissingNameOrPattern "{}")
  /\ Reference.compile "/{:.}" regexpTypePath Reference.noOptions
     = Fail (ErrMissingNameOrPattern "{:.}")
  /\ Reference.compile "/{a:}" regexpTypePath Reference.noOptions
     = Fail (ErrMissingNameOrPattern "{a:}")
  /\ exists err, Reference.compile "/{id:abc(}" regexpTypePath Reference.noOptions
                 = Fail (ErrCompilingRegex "{id:abc(}" err).
Proof.
  split; [|split; [|split]].
  - apply (proj1 (newRouteRegexp_single_variable_errors RefRegexp.lib "/" "" ""
                    regexpTypePath Reference.noOptions eq_refl eq_refl eq_refl)).
    left. reflexivity.
  - apply (proj1 (newRouteRegexp_single_variable_errors RefRegexp.lib "/" ":." ""
                    regexpTypePath Reference.noOptions eq_refl eq_refl eq_refl)).
    left. reflexivity.
  - apply (proj1 (newRouteRegexp_single_variable_errors RefRegexp.lib "/" "a:" ""
                    regexpTypePath Reference.noOptions eq_refl eq_refl eq_refl)).
    right. reflexivity.
  - let c := eval vm_compute in (RefRegexp.Compile "^abc($") in
    match c with
    | inr ?err =>
        exists err;
        apply (proj2 (newRouteRegexp_single_variable_errors RefRegexp.lib "/" "id:abc(" ""
                        regexpTypePath Reference.noOptions eq_refl eq_refl eq_refl))
    end.
    + discriminate.
    + discriminate.
    + reflexivity.
Defined.

Lemma sliceFrom_app2 (a b rest : string) :
  sliceFrom (a +:+ b +:+ rest) (len a + len b) = rest.
Proof. rewrite <- append_assoc, <- len_app. apply sliceFrom_app. Qed.

(** X20: a template with a single variable [{body}] between literal text
    [pre] and [post] that is not a query template compiles, if at all, to a
    record with that one variable name and one validator compiled from the
    anchored pattern of the variable; its reverse template is [pre], ["%s"]
    and [post]; and its full pattern is compiled from ["^"], the quoted
    [pre], the group [(?P<v0>patt)], the quoted [post] (without its final
    slash under strict slash, followed by ["[/]?"]), and ["$"] unless it is
    a prefix template. *)
Theorem newRouteRegexp_single_variable :
  forall (L : RegexpLib) (pre body post : string) (typ : regexpType)
         (opts : routeRegexpOptions) (r : routeRegexp),
    allBytes noBrace pre = true ->
    allBytes noBrace body = true ->
    allBytes noBrace post = true ->
    typ <> regexpTypeQuery ->
    let tag := "{" +:+ body +:+ "}" in
    let tpl := pre +:+ tag +:+ post in
    let colonIdx := Index body ":" in
    let name := if decide (colonIdx = (-1)%Z) then body
                else slice body 0 (Z.to_nat colonIdx) in
    let patt := if decide (colonIdx = (-1)%Z) then defaultPatternOf typ
                else sliceFrom body (Z.to_nat colonIdx + 1) in
    let strict := opt_strictSlash opts && bool_decide (typ = regexpTypePath) in
    let post' := if strict && HasSuffix tpl "/" then sliceTo post (len post - 1) else post in
    newRouteRegexp tpl typ opts = Return r ->
    name <> EmptyString /\ patt <> EmptyString
    /\ varsN r = [name]
    /\ (exists re, RegexpCompileFunc ("^" +:+ patt +:+ "$") = inl re /\ varsR r = [re])
    /\ reverse r = pre +:+ "%s" +:+ post
    /\ NumSubexp (regexp r) = 1
    /\ RegexpCompileFunc
         ("^" +:+ QuoteMeta pre +:+ "(?P<v0>" +:+ patt +:+ ")" +:+ QuoteMeta post'
              +:+ (if strict then "[/]?" else "")
              +:+ (if decide (typ <> regexpTypePrefix) then "$" else ""))
       = inl (regexp r).
Proof.
  intros L pre body post typ opts r Hpre Hbody Hpost Hq tag tpl colonIdx name patt
         strict post' Hr.
  pose proof (newRouteRegexp_groups _ _ _ _ Hr) as [Hg _].
  unfold newRouteRegexp, tpl, tag in Hr.
  rewrite (buildPattern_single_loop pre body post typ opts Hpre Hbody Hpost) in Hr.
  rewrite parseVars_single in Hr by reflexivity.
  fold tag in Hr. fold tpl in Hr. fold colonIdx in Hr. fold name in Hr. fold patt in Hr.
  fold strict in Hr. fold post' in Hr.
  destruct (decide (name = EmptyString \/ patt = EmptyString)) as [|Hne];
    [discriminate Hr|].
  destruct (RegexpCompileFunc ("^" +:+ patt +:+ "$")) as [re|err] eqn:Hre;
    [|discriminate Hr].
  cbn [mbind outcome_bind ps_end ps_pattern] in Hr. cbv zeta in Hr.
  rewrite (decide_False (P := typ = regexpTypeQuery)) in Hr by exact Hq.
  cbn [mbind outcome_bind bp_patternStr bp_state bp_nvars bp_raw bp_endSlash bp_options
             ps_reverse ps_varsN ps_varsR] in Hr.
  assert (Hraw : sliceFrom (pre +:+ tag +:+ post') (len pre + len tag) = post')
    by apply sliceFrom_app2.
  rewrite Hraw in Hr.
  match type of Hr with
  | context [RegexpCompileFunc ?p] =>
      destruct (RegexpCompileFunc p) as [reg|err] eqn:Hc; [|discriminate Hr]
  end.
  destruct (decide (NumSubexp reg <> 1)); [discriminate Hr|].
  inversion Hr; subst r. cbn [varsN varsR reverse regexp] in *.
  split; [tauto|]. split; [tauto|]. split; [reflexivity|].
  split; [exists re; split; reflexivity|].
  split; [|split; [exact Hg|]].
  - assert (Hrev : forall x, ("" +:+ pre +:+ "%s") +:+ x = pre +:+ "%s" +:+ x).
    { intros x. change ("" +:+ pre +:+ "%s") with (pre +:+ "%s").
      rewrite append_assoc. reflexivity. }
    unfold post'. destruct (strict && HasSuffix tpl "/") eqn:Hs.
    + apply andb_true_iff in Hs as [_ Hs].
      destruct (single_trim pre body post Hs) as [Hpne _].
      unfold tpl in Hs. rewrite <- append_assoc in Hs.
      rewrite (HasSuffix_byte_app _ post "/"%char Hpne) in Hs.
      rewrite (append_assoc _ (sliceTo post (len post - 1)) "/").
      change (len post - 1) with (len post - len "/").
      rewrite (HasSuffix_restore post "/" Hs). apply Hrev.
    + apply Hrev.
  - rewrite <- Hc. f_equal.
    change (varGroupName 0) with "v0".
    destruct strict, (decide (typ <> regexpTypePrefix));
      rewrite ?append_assoc; cbn [String.append]; rewrite ?append_assoc;
      cbn [String.append]; rewrite ?append_nil_r; reflexivity.
Qed.

Lemma newRouteRegexp_single_variable_witness :
  exists r,
    Reference.compile "/users/{id:[0-9]+}/" regexpTypePath Reference.strictSlashOptions
    = Return r
    /\ varsN r = ["id"] /\ reverse r = "/users/%s/"
    /\ RefRegexp.Compile "^/users/(?P<v0>[0-9]+)[/]?$" = inl (regexp r).
Proof.
  exists_compiled.
  match goal with
  | |- varsN ?r = _ /\ _ =>
      destruct (newRouteRegexp_single_variable RefRegexp.lib "/users/" "id:[0-9]+" "/"
                  regexpTypePath Reference.strictSlashOptions r
                  eq_refl eq_refl eq_refl ltac:(discriminate) eq_refl)
        as (_ & _ & HN & _ & Hrev & _ & Hc)
  end.
  split; [exact HN|]. split; [exact Hrev|exact Hc].
Defined.

(** ** What [setMatch] leaves alone *)

Section SetMatchFrame.
Context `{RegexpLib} `{GoStd} `{HTTPTypes}.

Lemma extractVars_loop_grows (input : string) (matches : list Z) :
  forall (names : list string) (i : nat) (output out : option (gmap string string)),
    extractVars_loop input matches i names output = Return out ->
    forall name, is_Some (default ∅ output !! name) -> is_Some (default ∅ out !! name).
Proof.
  induction names as [|n names IH]; intros i output out Hrun name Hin.
  - simpl in Hrun. inversion Hrun; subst out. exact Hin.
  - cbn [extractVars_loop] in Hrun.
    destruct (matches !! (2 * i + 2)) as [lo|]; [|discriminate].
    destruct (matches !! (2 * i + 3)) as [hi|]; [|discriminate].
    destruct (sliceChecked input lo hi) as [v|]; [|discriminate].
    apply (IH _ _ _ Hrun). simpl.
    destruct (decide (n = name)) as [->|Hne].
    + rewrite lookup_insert_eq. eauto.
    + rewrite lookup_insert_ne by exact Hne.
      destruct output; exact Hin.
Qed.

Lemma storeVars_grows (re : routeRegexp) (input : string) (m m' : RouteMatch) :
  storeVars re input m = Return m' ->
  forall name, is_Some (default ∅ (match_Vars m) !! name)
               -> is_Some (default ∅ (match_Vars m') !! name).
Proof.
  unfold storeVars. intros Hs name Hin.
  destruct (decide (0 < length (varsN re))); [|inversion Hs; subst; exact Hin].
  destruct (decide (0 < length _)); [|inversion Hs; subst; exact Hin].
  destruct (extractVars _ _ _ _) as [vars|e|p] eqn:Hx; simpl in Hs; inversion Hs; subst.
  simpl. apply (extractVars_loop_grows _ _ _ _ _ _ Hx name Hin).
Qed.

Lemma keeps_refl (m : RouteMatch) : matchKept m m.
Proof. repeat split; auto. Qed.

Lemma keeps_trans (m1 m2 m3 : RouteMatch) : matchKept m1 m2 -> matchKept m2 m3 -> matchKept m1 m3.
Proof.
  intros (R1 & E1 & V1) (R2 & E2 & V2). repeat split; try congruence.
  intros name Hin. apply V2, V1, Hin.
Qed.

Lemma storeVars_keeps (re : routeRegexp) (input : string) (m m' : RouteMatch) :
  storeVars re input m = Return m' -> matchKept m m'.
Proof.
  intros Hs. destruct (storeVars_Return _ _ _ _ Hs) as (_ & HR & HE).
  split; [exact HR|]. split; [exact HE|]. apply (storeVars_grows _ _ _ _ Hs).
Qed.

Lemma setMatch_queries_keeps (req : Request) :
  forall (queries : list routeRegexp) (m m' : RouteMatch),
    setMatch_queries queries req m = Return m' -> matchKept m m'.
Proof.
  induction queries as [|q queries IH]; intros m m' Hs; simpl in Hs.
  - inversion Hs; subst. apply keeps_refl.
  - destruct (storeVars q (getURLQuery q req) m) as [m1|e|p] eqn:Hq1; simpl in Hs;
      try discriminate.
    eapply keeps_trans; [apply (storeVars_keeps _ _ _ _ Hq1)|apply (IH _ _ Hs)].
Qed.

Lemma setMatch_keeps (v : routeRegexpGroup) (req : Request) (m m' : RouteMatch) (r : Route) :
  setMatch v req m r = Return m' -> matchKept m m'.
Proof.
  unfold setMatch. intros Hs.
  destruct (match rg_host v with
            | Some h => storeVars h (hostToMatch h (getHost req)) m
            | None => Return m
            end) as [m1|e|p] eqn:Hhost; try discriminate.
  change (Return m1 ≫= ?k) with (k m1) in Hs. cbv beta zeta in Hs.
  assert (K1 : matchKept m m1).
  { destruct (rg_host v) as [h|].
    - apply (storeVars_keeps _ _ _ _ Hhost).
    - inversion Hhost; subst. apply keeps_refl. }
  match type of Hs with
  | mbind _ ?mid = _ =>
      destruct mid as [m2|e|p] eqn:Hpath; try discriminate
  end.
  change (Return m2 ≫= ?k) with (k m2) in Hs. cbv beta in Hs.
  assert (K2 : matchKept m1 m2).
  { destruct (rg_path v) as [vpath|]; [|inversion Hpath; subst; apply keeps_refl].
    destruct (storeVars vpath (requestPath r req) m1) as [m1'|e|p] eqn:Hp1;
      cbn [mbind outcome_bind] in Hpath; try discriminate.
    apply (keeps_trans _ m1'); [apply (storeVars_keeps _ _ _ _ Hp1)|].
    repeat match type of Hpath with
           | context [match ?x with _ => _ end] =>
               destruct x; cbn [mbind outcome_bind] in Hpath; try discriminate
           end;
      inversion Hpath; subst; repeat split; auto. }
  eapply keeps_trans; [exact K1|]. eapply keeps_trans; [exact K2|].
  apply (setMatch_queries_keeps _ _ _ _ Hs).
Qed.

End SetMatchFrame.

(** X21: [setMatch] only adds to a match: when it returns, the route and
    the match error are the ones it was given, and every variable that was
    bound before is still bound (a template that declares the same name
    overwrites the value, none is removed). *)
Theorem setMatch_keeps_route_error_and_variables :
  forall (L : RegexpLib) (G : GoStd) (T : HTTPTypes) (v : routeRegexpGroup)
         (req : Request) (m m' : RouteMatch) (r : Route),
    setMatch v req m r = Return m' ->
    match_Route m' = match_Route m
    /\ MatchErr m' = MatchErr m
    /\ forall name, is_Some (default ∅ (match_Vars m) !! name)
                    -> is_Some (default ∅ (match_Vars m') !! name).
Proof.
  intros L G T v req m m' r Hs. apply (setMatch_keeps v req m m' r Hs).
Qed.

Lemma setMatch_keeps_route_error_and_variables_witness :
  exists re,
    Reference.compile "/users/{id}" regexpTypePath Reference.noOptions = Return re
    /\ let route := Reference.anyMethod re in
       let req := Reference.request "GET" "example.com" "/users/7" "" in
       let m := set_Vars (Reference.matchOf route) (Some {["lang" := "en"]}) in
       exists m',
         @setMatch RefRegexp.lib Reference.std Reference.types
           (conf_regexp (route_conf route)) req m route = Return m'
         /\ match_Vars m' = Some {["id" := "7"; "lang" := "en"]}
         /\ is_Some (default ∅ (match_Vars m') !! "lang").
Proof.
  exists_compiled. intros route req m.
  eexists. split; [reflexivity|]. split; [vm_compute; reflexivity|].
  refine (proj2 (proj2 (setMatch_keeps_route_error_and_variables RefRegexp.lib Reference.std
                          Reference.types (conf_regexp (route_conf route)) req m _ route
                          eq_refl)) "lang" _).
  eexists. reflexivity.
Defined.

(** ** The query string a query template is matched against *)

Lemma SplitN2_key (k rest : string) :
  allBytes (fun c => negb (bool_decide (c = "="%char))) k = true ->
  SplitN2 (k +:+ String "="%char rest) "=" = [k; rest].
Proof.
  intros Hk. unfold SplitN2, Cut. rewrite Index_single.
  assert (Hnone : (IndexAny k "=" < 0)%Z).
  { clear rest. induction k as [|c k IH]; simpl in *; [lia|].
    apply andb_true_iff in Hk as [Hc Hk].
    apply negb_true_iff, bool_decide_eq_false in Hc.
    rewrite decide_False by congruence.
    specialize (IH Hk). apply Z.ltb_lt in IH. rewrite IH. lia. }
  rewrite (IndexAny_none_app "=" k rest "="%char Hnone eq_refl).
  assert ((0 <=? Z.of_nat (len k))%Z = true) as -> by (apply Z.leb_le; lia).
  rewrite Nat2Z.id, sliceTo_app.
  change (len "=") with 1.
  replace (len k + 1) with (len (k +:+ String "="%char EmptyString))
    by (rewrite len_app; reflexivity).
  rewrite <- (app_snoc_byte k rest "="%char), sliceFrom_app. reflexivity.
Qed.

Lemma findFirstQueryKey_escaped_first (k v tail : string) (strict : bool) :
  tail = EmptyString \/ (exists rest, tail = String "&"%char rest) ->
  findFirstQueryKey (QueryEscape k +:+ String "="%char (QueryEscape v) +:+ tail) k strict
  = (v, true).
Proof.
  assert (Hsep : isSeparator strict "&"%char = true) by (destruct strict; reflexivity).
  intros [->|[rest ->]]; rewrite findFirstQueryKey_spec; unfold findKey_spec, segments.
  - rewrite append_nil_r.
    rewrite splitOn_no_sep by apply escapedPair_no_separator.
    rewrite firstValue_escapedPair, decide_True by reflexivity. reflexivity.
  - assert (Happ : QueryEscape k +:+ String "="%char (QueryEscape v) +:+ String "&"%char rest
                   = (QueryEscape k +:+ String "="%char (QueryEscape v))
                       +:+ String "&"%char rest).
    { rewrite append_assoc. reflexivity. }
    rewrite Happ.
    rewrite splitOn_app_sep by (apply escapedPair_no_separator || exact Hsep).
    rewrite firstValue_escapedPair, decide_True by reflexivity. reflexivity.
Qed.

(** X22: a query template [key=...] is matched against the key and the
    decoded first value for that key: when the raw query starts with the
    escaped pair of [key] and a value [v] (alone, or followed by ['&'] and
    anything), the string handed to the pattern is [key=v], whatever follows;
    a template of another type is handed the empty string. *)
Theorem getURLQuery_decoded_first_value :
  forall (L : RegexpLib) (G : GoStd) (T : HTTPTypes) (r : routeRegexp) (req : Request)
         (key pattern v tail : string),
    (regexpType_of r <> regexpTypeQuery -> getURLQuery r req = EmptyString)
    /\ (regexpType_of r = regexpTypeQuery ->
        template r = key +:+ "=" +:+ pattern ->
        allBytes (fun c => negb (bool_decide (c = "="%char))) key = true ->
        RawQuery (req_URL req) = QueryEscape key +:+ "=" +:+ QueryEscape v +:+ tail ->
        tail = EmptyString \/ (exists rest, tail = "&" +:+ rest) ->
        getURLQuery r req = key +:+ "=" +:+ v
        /\ routeRegexp_Match r req emptyMatch = MatchString (regexp r) (key +:+ "=" +:+ v)).
Proof.
  intros L G T r req key pattern v tail. split.
  - intros Hne. unfold getURLQuery. rewrite decide_True by exact Hne. reflexivity.
  - intros Hq Htpl Hkey Hraw Htail.
    assert (Hget : getURLQuery r req = key +:+ "=" +:+ v).
    { unfold getURLQuery. rewrite decide_False by (intros Hc; apply Hc; exact Hq).
      cbv zeta. unfold templateKeyOf. rewrite Htpl.
      change (key +:+ "=" +:+ pattern) with (key +:+ String "="%char pattern).
      rewrite (SplitN2_key key pattern Hkey). cbn [head default]. simpl.
      rewrite Hraw.
      replace (QueryEscape key +:+ "=" +:+ QueryEscape v +:+ tail)
        with (QueryEscape key +:+ String "="%char (QueryEscape v) +:+ tail)
        by reflexivity.
      rewrite (findFirstQueryKey_escaped_first key v tail _ Htail). reflexivity. }
    split; [exact Hget|].
    unfold routeRegexp_Match.
    rewrite decide_False by (rewrite Hq; discriminate).
    rewrite decide_True by exact Hq.
    unfold matchQueryString. rewrite Hget. reflexivity.
Qed.

Lemma getURLQuery_decoded_first_value_witness :
  exists r,
    Reference.compile "q={term}" regexpTypeQuery Reference.noOptions = Return r
    /\ let req := Reference.request "GET" "example.com" "/search" "q=a+b%26c&q=other" in
       Reference.matches r req = @MatchString RefRegexp.lib (regexp r) "q=a b&c".
Proof.
  exists_compiled. intros req.
  match goal with
  | |- Reference.matches ?r req = _ =>
      apply (proj2 (getURLQuery_decoded_first_value RefRegexp.lib Reference.std
                      Reference.types r req "q" "{term}" "a b&c" "&q=other")
               eq_refl eq_refl eq_refl eq_refl)
  end.
  right. exists "q=other". reflexivity.
Defined.
